(** * career-agent: the tool-calling conversation loop

    A shallow embedding of [career_agent/agent.py]: the tool handlers and
    their registry, the prompt builder, the tool executor
    ([handle_tool_calls]) and the conversation loop ([chat]), together with
    the fragment of the Python runtime they rest on (strings, writing to
    stdout, [json.loads], [json.dumps], keyword-argument binding,
    exceptions, list objects).

    Conventions.
    - A Python [str] is the list of its code points ([pystr]).
    - Effects are threaded through a state-and-exception monad [M]; the
      external collaborators (language model, HTTP endpoint, files,
      process environment, interpreter settings) are scripted by a record
      [env].
    - stdout is a UTF-8 text stream on a platform whose line separator is
      the newline: [print] fails only on a surrogate that the error handler
      of the stream does not let through.  The lines printed by [push] and
      by the executor are modelled; the warnings of the two file readers,
      whose text is a path of the source and a report of the library, are
      taken to be writable. *)

From Stdlib Require Import ZArith NArith List Ascii String DecimalString Lia.
From stdpp Require Import base option list gmap.

Set Warnings "-register-all".

Local Open Scope N_scope.

(* ====================================================================== *)
(** ** Python strings *)
(* ====================================================================== *)

(** A [str] value: its sequence of Unicode code points. *)
Definition pystr : Type := list N.

(** The [str] denoted by an ASCII literal of the source. *)
Definition py (s : string) : pystr := map N_of_ascii (list_ascii_of_string s).

(** ["\n"] *)
Definition nl : pystr := [10].

(** [sep.join(parts)] *)
Fixpoint join (sep : pystr) (parts : list pystr) : pystr :=
  match parts with
  | [] => []
  | [p] => p
  | p :: ps => p ++ sep ++ join sep ps
  end.

(** [str.isspace] on one code point: the characters Python treats as
    whitespace (bidirectional class WS, B or S, or category Zs). *)
Definition py_isspace (c : N) : bool :=
  ((9 <=? c) && (c <=? 13)) || ((28 <=? c) && (c <=? 32))
  || (c =? 133) || (c =? 160) || (c =? 5760)
  || ((8192 <=? c) && (c <=? 8202))
  || (c =? 8232) || (c =? 8233) || (c =? 8239) || (c =? 8287) || (c =? 12288).

Fixpoint lstrip (s : pystr) : pystr :=
  match s with
  | c :: r => if py_isspace c then lstrip r else s
  | [] => []
  end.

(** [s.strip()] *)
Definition strip (s : pystr) : pystr := rev (lstrip (rev (lstrip s))).

(** [x or <empty string>] for an optional string. *)
Definition or_empty (x : option pystr) : pystr :=
  match x with
  | Some s => s
  | None => []
  end.

(** Decimal text of an integer, as [str(int)] prints it. *)
Definition str_of_Z (z : Z) : pystr := py (NilZero.string_of_int (Z.to_int z)).

(** What reading a file in text mode does to its line ends (universal
    newlines, the default of [open] and of [Path.read_text]): a carriage
    return, with the line feed after it if there is one, becomes a line
    feed. *)
Fixpoint universal_newlines (s : pystr) : pystr :=
  match s with
  | [] => []
  | c :: r =>
      if c =? 13 then
        10 :: match r with
              | d :: r' => if d =? 10 then universal_newlines r' else universal_newlines r
              | [] => []
              end
      else c :: universal_newlines r
  end.

(** A surrogate code point, U+D800 to U+DFFF. *)
Definition is_surrogate (c : N) : bool := (55296 <=? c) && (c <=? 57343).

(** [\uXXXX] with four lower-case hex digits. *)
Definition hex_digit (n : N) : N := if n <? 10 then 48 + n else 87 + n.
Definition escape_u (u : N) : pystr :=
  [92; 117; hex_digit (u / 4096 mod 16); hex_digit (u / 256 mod 16);
   hex_digit (u / 16 mod 16); hex_digit (u mod 16)].

(* ====================================================================== *)
(** ** Writing text to a UTF-8 stream *)
(* ====================================================================== *)

(** The error handler of a text stream ([errors=]): [strict] refuses every
    surrogate, [surrogateescape] lets U+DC80 to U+DCFF through, and the
    others ([replace], [backslashreplace], [ignore], ...) never refuse. *)
Inductive error_handler : Type :=
| strict
| surrogateescape
| lenient.

(** Whether the UTF-8 encoder goes past the code point [c]. *)
Definition encodable (h : error_handler) (c : N) : bool :=
  negb (is_surrogate c)
  || match h with
     | strict => false
     | surrogateescape => (56448 <=? c) && (c <=? 56575)
     | lenient => true
     end.

(** The length of the run of surrogates at the head of [s]. *)
Fixpoint surrogate_run (s : pystr) : nat :=
  match s with
  | c :: r => if is_surrogate c then S (surrogate_run r) else O
  | [] => O
  end.

(** Where encoding [s] fails, if it does: the position of the first code
    point refused ([pos] being that of the head of [s]), the end of the run
    of surrogates it starts, and the code point itself. *)
Fixpoint encode_failure (h : error_handler) (pos : nat) (s : pystr) : option (nat * nat * N) :=
  match s with
  | [] => None
  | c :: r =>
      if encodable h c then encode_failure h (S pos) r
      else Some (pos, (pos + surrogate_run s)%nat, c)
  end.

(** [str(e)] for the [UnicodeEncodeError] of such a failure. *)
Definition encode_error_text (failure : nat * nat * N) : pystr :=
  let '(start, stop, c) := failure in
  py "'utf-8' codec can't encode character"
  ++ (if decide (stop = S start)
      then py " '" ++ escape_u c ++ py "' in position " ++ str_of_Z (Z.of_nat start)
      else py "s in position " ++ str_of_Z (Z.of_nat start) ++ py "-"
           ++ str_of_Z (Z.of_nat (stop - 1)))
  ++ py ": surrogates not allowed".

(** The stream takes the whole of [s]. *)
Definition writable (h : error_handler) (s : pystr) : bool := forallb (encodable h) s.

(* ====================================================================== *)
(** ** JSON: [json.loads] and [json.dumps] *)
(* ====================================================================== *)

Module Json.

(** The Python values [json.loads] can build.  A number with a fraction or
    an exponent (and the constants NaN, Infinity, -Infinity) becomes a
    [float]; it is kept as its literal text, no floating-point arithmetic
    being needed by the program.  A [dict] is kept in insertion order. *)
Inductive json : Type :=
| JNull
| JBool (b : bool)
| JInt (z : Z)
| JFloat (literal : pystr)
| JStr (s : pystr)
| JArr (items : list json)
| JObj (members : list (pystr * json)).

(** [d[k] = v] on an insertion-ordered dict: a repeated key keeps its place
    and takes the new value. *)
Fixpoint dict_set {V : Type} (k : pystr) (v : V) (d : list (pystr * V)) : list (pystr * V) :=
  match d with
  | [] => [(k, v)]
  | (k', v') :: r => if decide (k' = k) then (k, v) :: r else (k', v') :: dict_set k v r
  end.

(** [d.get(k)] *)
Fixpoint dict_get {V : Type} (k : pystr) (d : list (pystr * V)) : option V :=
  match d with
  | [] => None
  | (k', v) :: r => if decide (k' = k) then Some v else dict_get k r
  end.

Definition is_ws (c : N) : bool := (c =? 32) || (c =? 9) || (c =? 10) || (c =? 13).

Fixpoint skip_ws (s : pystr) : pystr :=
  match s with
  | c :: r => if is_ws c then skip_ws r else s
  | [] => []
  end.

Definition is_digit (c : N) : bool := (48 <=? c) && (c <=? 57).

Definition hex_val (c : N) : option N :=
  if (48 <=? c) && (c <=? 57) then Some (c - 48)
  else if (97 <=? c) && (c <=? 102) then Some (c - 87)
  else if (65 <=? c) && (c <=? 70) then Some (c - 55)
  else None.

(** The four hex digits of a [\uXXXX] escape. *)
Definition hex4 (a b c d : N) : option N :=
  match hex_val a, hex_val b, hex_val c, hex_val d with
  | Some x, Some y, Some z, Some w => Some (((x * 16 + y) * 16 + z) * 16 + w)
  | _, _, _, _ => None
  end.

Definition is_high_surrogate (u : N) : bool := (55296 <=? u) && (u <=? 56319).
Definition is_low_surrogate (u : N) : bool := (56320 <=? u) && (u <=? 57343).
Definition join_surrogates (hi lo : N) : N := 65536 + (hi - 55296) * 1024 + (lo - 56320).

(** [s] after the character [c], when it starts with it. *)
Definition expect (c : N) (s : pystr) : option pystr :=
  match s with
  | x :: r => if x =? c then Some r else None
  | [] => None
  end.

(** The low half of a surrogate pair, when the text goes on with one. *)
Definition low_surrogate_ahead (s : pystr) : option N :=
  match s with
  | x :: y :: a :: b :: c :: d :: _ =>
      if (x =? 92) && (y =? 117) then
        match hex4 a b c d with
        | Some lo => if is_low_surrogate lo then Some lo else None
        | None => None
        end
      else None
  | _ => None
  end.

(** [scanstring] (strict): the text after an opening quote, up to and
    including the closing quote.  [acc] holds the decoded characters in
    reverse.  [None] is a [JSONDecodeError]. *)
Fixpoint scanstring (s : pystr) (acc : pystr) {struct s} : option (pystr * pystr) :=
  match s with
  | [] => None
  | c :: r =>
      if c =? 34 then Some (rev acc, r)
      else if c =? 92 then
        match r with
        | [] => None
        | e :: r1 =>
            if e =? 117 then
              match r1 with
              | a :: b :: c' :: d :: r2 =>
                  match hex4 a b c' d with
                  | None => None
                  | Some u =>
                      if is_high_surrogate u then
                        match low_surrogate_ahead r2 with
                        | Some lo =>
                            match r2 with
                            | _ :: _ :: _ :: _ :: _ :: _ :: r3 =>
                                scanstring r3 (join_surrogates u lo :: acc)
                            | _ => None
                            end
                        | None => scanstring r2 (u :: acc)
                        end
                      else scanstring r2 (u :: acc)
                  end
              | _ => None
              end
            else if e =? 34 then scanstring r1 (34 :: acc)
            else if e =? 92 then scanstring r1 (92 :: acc)
            else if e =? 47 then scanstring r1 (47 :: acc)
            else if e =? 98 then scanstring r1 (8 :: acc)
            else if e =? 102 then scanstring r1 (12 :: acc)
            else if e =? 110 then scanstring r1 (10 :: acc)
            else if e =? 114 then scanstring r1 (13 :: acc)
            else if e =? 116 then scanstring r1 (9 :: acc)
            else None
        end
      else if c <=? 31 then None
      else scanstring r (c :: acc)
  end.

(** The longest run of decimal digits at the head of [s]. *)
Fixpoint span_digits (s : pystr) : pystr * pystr :=
  match s with
  | c :: r => if is_digit c then let '(ds, r') := span_digits r in (c :: ds, r') else ([], s)
  | [] => ([], [])
  end.

Definition digits_value (ds : pystr) : Z :=
  fold_left (fun acc c => (acc * 10 + Z.of_N (c - 48))%Z) ds 0%Z.

(** The integer part [0|[1-9][0-9]*] of a number. *)
Definition match_int_part (s : pystr) : option (pystr * pystr) :=
  match s with
  | c :: r =>
      if c =? 48 then Some ([48], r)
      else if is_digit c then let '(ds, r') := span_digits r in Some (c :: ds, r')
      else None
  | [] => None
  end.

(** The optional fraction [\.[0-9]+]. *)
Definition match_frac (s : pystr) : pystr * pystr :=
  match expect 46 s with
  | Some r =>
      match span_digits r with
      | ([], _) => ([], s)
      | (ds, r') => (46 :: ds, r')
      end
  | None => ([], s)
  end.

(** The optional exponent [[eE][-+]?[0-9]+]. *)
Definition match_exp (s : pystr) : pystr * pystr :=
  match s with
  | e :: r =>
      if (e =? 101) || (e =? 69) then
        let '(sign, r1) :=
          match r with
          | g :: r0 => if (g =? 45) || (g =? 43) then ([g], r0) else ([], r)
          | [] => ([], r)
          end in
        match span_digits r1 with
        | ([], _) => ([], s)
        | (ds, r') => (e :: sign ++ ds, r')
        end
      else ([], s)
  | [] => ([], s)
  end.

(** Why a text is not decoded: it is no JSON ([JSONDecodeError]), an
    integer literal has more digits than [int] converts ([ValueError]), or
    the containers nest deeper than the interpreter stack allows
    ([RecursionError], raised on entering an array or an object). *)
Inductive scan_error : Type :=
| Invalid
| DigitLimit (digits : nat)
| DepthLimit (array : bool).

(** [sys.get_int_max_str_digits()] against the digits of a literal; the
    value 0 switches the limit off. *)
Definition exceeds (max_digits digits : nat) : bool :=
  (0 <? max_digits)%nat && (max_digits <? digits)%nat.

(** [_match_number]: an [int] when there is neither fraction nor exponent,
    a [float] otherwise. *)
Definition match_number (max_digits : nat) (s : pystr) : scan_error + (json * pystr) :=
  let '(neg, s1) :=
    match expect 45 s with
    | Some r => (true, r)
    | None => (false, s)
    end in
  match match_int_part s1 with
  | None => inl Invalid
  | Some (ip, s2) =>
      let '(fp, s3) := match_frac s2 in
      let '(ep, s4) := match_exp s3 in
      match fp, ep with
      | [], [] =>
          if exceeds max_digits (length ip) then inl (DigitLimit (length ip))
          else inr (JInt (if neg then - digits_value ip else digits_value ip)%Z, s4)
      | _, _ => inr (JFloat ((if neg then [45] else []) ++ ip ++ fp ++ ep), s4)
      end
  end.

(** [s] without the prefix [p], when it starts with it. *)
Fixpoint strip_prefix (p s : pystr) : option pystr :=
  match p, s with
  | [], _ => Some s
  | a :: p', b :: s' => if a =? b then strip_prefix p' s' else None
  | _ :: _, [] => None
  end.

(** The literal names [null], [true], [false], [NaN], [Infinity],
    [-Infinity]. *)
Definition match_constant (s : pystr) : option (json * pystr) :=
  match strip_prefix (py "null") s with
  | Some r => Some (JNull, r)
  | None =>
  match strip_prefix (py "true") s with
  | Some r => Some (JBool true, r)
  | None =>
  match strip_prefix (py "false") s with
  | Some r => Some (JBool false, r)
  | None =>
  match strip_prefix (py "NaN") s with
  | Some r => Some (JFloat (py "NaN"), r)
  | None =>
  match strip_prefix (py "Infinity") s with
  | Some r => Some (JFloat (py "Infinity"), r)
  | None =>
  match strip_prefix (py "-Infinity") s with
  | Some r => Some (JFloat (py "-Infinity"), r)
  | None => None
  end end end end end end.

(** [scan_once] with the object and array loops it calls.  [room] is the
    number of containers that can still be entered.  Two successive calls
    consume at least one character between them, so a fuel of
    [2 * length s + 2] never runs out on a text [s] (lemma
    [loads_fuel_independent]). *)
Fixpoint scan_once (max_digits : nat) (fuel : nat) (room : nat) (s : pystr) {struct fuel}
  : scan_error + (json * pystr) :=
  match fuel with
  | O => inl Invalid
  | S fuel' =>
      match s with
      | [] => inl Invalid
      | c :: r =>
          if c =? 34 then
            match scanstring r [] with
            | Some (str, r') => inr (JStr str, r')
            | None => inl Invalid
            end
          else if c =? 123 then
            match room with
            | O => inl (DepthLimit false)
            | S room' =>
                match expect 125 (skip_ws r) with
                | Some r' => inr (JObj [], r')
                | None =>
                    match parse_members max_digits fuel' room' (skip_ws r) [] with
                    | inr (ms, r'') => inr (JObj ms, r'')
                    | inl e => inl e
                    end
                end
            end
          else if c =? 91 then
            match room with
            | O => inl (DepthLimit true)
            | S room' =>
                match expect 93 (skip_ws r) with
                | Some r' => inr (JArr [], r')
                | None =>
                    match parse_items max_digits fuel' room' (skip_ws r) [] with
                    | inr (xs, r'') => inr (JArr xs, r'')
                    | inl e => inl e
                    end
                end
            end
          else
            match match_constant s with
            | Some res => inr res
            | None => match_number max_digits s
            end
      end
  end

(** The members of an object, from a key on, up to the closing brace. *)
with parse_members (max_digits : nat) (fuel : nat) (room : nat) (s : pystr)
    (acc : list (pystr * json)) {struct fuel}
  : scan_error + (list (pystr * json) * pystr) :=
  match fuel with
  | O => inl Invalid
  | S fuel' =>
      match expect 34 s with
      | None => inl Invalid
      | Some r =>
          match scanstring r [] with
          | None => inl Invalid
          | Some (key, r1) =>
              match expect 58 (skip_ws r1) with
              | None => inl Invalid
              | Some r2 =>
                  match scan_once max_digits fuel' room (skip_ws r2) with
                  | inl e => inl e
                  | inr (v, r3) =>
                      let acc' := dict_set key v acc in
                      match expect 125 (skip_ws r3) with
                      | Some r4 => inr (acc', r4)
                      | None =>
                          match expect 44 (skip_ws r3) with
                          | Some r4 => parse_members max_digits fuel' room (skip_ws r4) acc'
                          | None => inl Invalid
                          end
                      end
                  end
              end
          end
      end
  end

(** The items of an array, from a value on, up to the closing bracket. *)
with parse_items (max_digits : nat) (fuel : nat) (room : nat) (s : pystr) (acc : list json)
    {struct fuel}
  : scan_error + (list json * pystr) :=
  match fuel with
  | O => inl Invalid
  | S fuel' =>
      match scan_once max_digits fuel' room s with
      | inl e => inl e
      | inr (v, r1) =>
          match expect 93 (skip_ws r1) with
          | Some r2 => inr (rev (v :: acc), r2)
          | None =>
              match expect 44 (skip_ws r1) with
              | Some r2 => parse_items max_digits fuel' room (skip_ws r2) (v :: acc)
              | None => inl Invalid
              end
          end
      end
  end.

(** [json.loads(s)] on an interpreter whose [int] converts [max_digits]
    digits and whose stack has room for [room] nested containers at the
    call. *)
Definition loads (max_digits : nat) (room : nat) (s : pystr) : scan_error + json :=
  match scan_once max_digits (2 * length s + 2) room (skip_ws s) with
  | inr (v, r) =>
      match skip_ws r with
      | [] => inr v
      | _ :: _ => inl Invalid
      end
  | inl e => inl e
  end.

(** One character under [ensure_ascii]: printable ASCII other than the
    quote and the backslash stands for itself. *)
Definition escape_char (c : N) : pystr :=
  if c =? 34 then [92; 34]
  else if c =? 92 then [92; 92]
  else if (32 <=? c) && (c <=? 126) then [c]
  else if c =? 10 then [92; 110]
  else if c =? 13 then [92; 114]
  else if c =? 9 then [92; 116]
  else if c =? 8 then [92; 98]
  else if c =? 12 then [92; 102]
  else if c <? 65536 then escape_u c
  else escape_u (55296 + (c - 65536) / 1024) ++ escape_u (56320 + (c - 65536) mod 1024).

(** [py_encode_basestring_ascii] *)
Definition encode_str (s : pystr) : pystr := [34] ++ concat (map escape_char s) ++ [34].

(** [json.dumps(d)] for a dict whose keys and values are strings, the only
    kind of payload the executor serialises. *)
Definition dumps (d : list (pystr * pystr)) : pystr :=
  [123] ++ join (py ", ") (map (fun kv => encode_str (fst kv) ++ py ": " ++ encode_str (snd kv)) d) ++ [125].

End Json.
Export Json.

(* ====================================================================== *)
(** ** Exceptions, program state and the effect monad *)
(* ====================================================================== *)

(** The exceptions the program meets, all of them subclasses of
    [Exception]: three classes it names or provokes, and [OtherException]
    for an exception of any other class [cls] ([UnicodeEncodeError],
    [ValueError], [RecursionError], ...). *)
Inductive exn : Type :=
| TypeError (msg : pystr)
| JSONDecodeError (doc : pystr)
| RequestException (msg : pystr)
| OtherException (cls : pystr) (msg : pystr).

(** [str(e)].  The report text of a [JSONDecodeError] (message, line and
    column) is not modelled. *)
Definition exn_str (e : exn) : option pystr :=
  match e with
  | TypeError m => Some m
  | JSONDecodeError _ => None
  | RequestException m => Some m
  | OtherException _ m => Some m
  end.

(** [isinstance(e, TypeError)] *)
Definition is_TypeError (e : exn) : bool :=
  match e with
  | TypeError _ => true
  | _ => false
  end.

(** A tool-call request of the model: [tc.id], [tc.function.name] and
    [tc.function.arguments]. *)
Record tool_call : Type := ToolCall {
  tc_id : pystr;
  tc_name : pystr;
  tc_arguments : option pystr
}.

(** A message dict.  [tool_calls] and [tool_call_id] are the optional keys
    of assistant and tool messages. *)
Record message : Type := Message {
  role : pystr;
  content : pystr;
  tool_calls : option (list tool_call);
  tool_call_id : option pystr
}.

(** [response.choices[0]]: [choice.finish_reason], [choice.message.content]
    and [choice.message.tool_calls]. *)
Record choice : Type := Choice {
  finish_reason : pystr;
  message_content : option pystr;
  message_tool_calls : option (list tool_call)
}.

(** References to Python list objects. *)
Definition loc : Type := nat.

(** What a run changes: the list objects, and three traces, oldest first:
    the notifications announced on stdout by [push], the messages handed
    to [requests.post], and the message sequences handed to the model. *)
Record world : Type := World {
  heap : gmap loc (list message);
  pushes : list pystr;
  posts : list pystr;
  model_calls : list (list message)
}.

Definition set_heap (h : gmap loc (list message)) (w : world) : world :=
  World h (pushes w) (posts w) (model_calls w).
Definition log_push (m : pystr) (w : world) : world :=
  World (heap w) (pushes w ++ [m]) (posts w) (model_calls w).
Definition log_post (m : pystr) (w : world) : world :=
  World (heap w) (pushes w) (posts w ++ [m]) (model_calls w).
Definition log_model_call (ms : list message) (w : world) : world :=
  World (heap w) (pushes w) (posts w) (model_calls w ++ [ms]).

(** How a computation ends: with a value, with an exception, still running
    when the fuel of the loop is spent ([Diverge]), or outside the modelled
    fragment of Python ([Stuck]). *)
Inductive outcome (A : Type) : Type :=
| Ret (a : A)
| Raise (e : exn)
| Diverge
| Stuck.
Arguments Ret {A} a.
Arguments Raise {A} e.
Arguments Diverge {A}.
Arguments Stuck {A}.

Definition M (A : Type) : Type := world -> outcome A * world.

#[export] Instance M_ret : MRet M := fun A a w => (Ret a, w).
#[export] Instance M_bind : MBind M := fun A B f c w =>
  match c w with
  | (Ret a, w') => f a w'
  | (Raise e, w') => (Raise e, w')
  | (Diverge, w') => (Diverge, w')
  | (Stuck, w') => (Stuck, w')
  end.

Definition raise {A : Type} (e : exn) : M A := fun w => (Raise e, w).
Definition diverge {A : Type} : M A := fun w => (Diverge, w).
Definition stuck {A : Type} : M A := fun w => (Stuck, w).

(** [try: c  except Exception as e: h e] *)
Definition try_except {A : Type} (c : M A) (h : exn -> M A) : M A := fun w =>
  match c w with
  | (Raise e, w') => h e w'
  | r => r
  end.

(** [[x, ...]]: a new list object. *)
Definition list_new (xs : list message) : M loc := fun w =>
  let l := fresh (dom (heap w)) in
  (Ret l, set_heap (<[l := xs]> (heap w)) w).

(** Reading a list object (iterating over it). *)
Definition list_read (l : loc) : M (list message) := fun w =>
  match heap w !! l with
  | Some xs => (Ret xs, w)
  | None => (Stuck, w)
  end.

(** [l.extend(xs)], and [l.append(x)] as [l.extend([x])]: in place. *)
Definition list_extend (l : loc) (xs : list message) : M unit := fun w =>
  match heap w !! l with
  | Some old => (Ret tt, set_heap (<[l := old ++ xs]> (heap w)) w)
  | None => (Stuck, w)
  end.
Definition list_append (l : loc) (x : message) : M unit := list_extend l [x].


(** [try: c  except requests.RequestException as e: h str(e)]: an exception
    of another class goes on. *)
Definition try_except_request {A : Type} (c : M A) (h : pystr -> M A) : M A := fun w =>
  match c w with
  | (Raise (RequestException msg), w') => h msg w'
  | r => r
  end.

(* ====================================================================== *)
(** ** Calling a Python function with keyword arguments *)
(* ====================================================================== *)

(** A result payload, [Dict[str, str]]. *)
Definition dict : Type := list (pystr * pystr).

(** A function definition: the module it is defined in, its name, its
    parameters in order (with the default of each optional one) and its
    body, run on the values of the parameters. *)
Record pyfunc : Type := PyFunc {
  fn_module : pystr;
  fn_name : pystr;
  fn_params : list (pystr * option json);
  fn_body : list json -> M dict
}.

(** [type(v).__name__] *)
Definition type_name (v : json) : pystr :=
  match v with
  | JNull => py "NoneType"
  | JBool _ => py "bool"
  | JInt _ => py "int"
  | JFloat _ => py "float"
  | JStr _ => py "str"
  | JArr _ => py "list"
  | JObj _ => py "dict"
  end.

Definition quote (s : pystr) : pystr := [39] ++ s ++ [39].

(** The names listed by a "missing arguments" report. *)
Fixpoint format_missing (names : list pystr) : pystr :=
  match names with
  | [] => []
  | [a] => quote a
  | [a; b] => quote a ++ py " and " ++ quote b
  | a :: ((_ :: _ :: _) as rest) =>
      match rest with
      | [b; c] => quote a ++ py ", " ++ quote b ++ py ", and " ++ quote c
      | _ => quote a ++ py ", " ++ format_missing rest
      end
  end.

(** Why keyword arguments do not fit a signature. *)
Inductive bind_error : Type :=
| NotAMapping (v : json)
| UnexpectedKeyword (k : pystr)
| MissingRequired (names : list pystr).

(** The text of the [TypeError] the interpreter raises, in the wording of
    CPython 3.9 to 3.12: the first report names the function with its
    module, the other two without.  (CPython 3.8 leaves the module out of
    the first; from 3.13 on the second may end with a suggestion.) *)
Definition bind_error_message (f : pyfunc) (err : bind_error) : pystr :=
  match err with
  | NotAMapping v =>
      fn_module f ++ py "." ++ fn_name f
      ++ py "() argument after ** must be a mapping, not " ++ type_name v
  | UnexpectedKeyword k =>
      fn_name f ++ py "() got an unexpected keyword argument " ++ quote k
  | MissingRequired names =>
      fn_name f ++ py "() missing " ++ str_of_Z (Z.of_nat (length names))
      ++ py " required positional argument"
      ++ (if decide (length names = 1%nat) then [] else py "s")
      ++ py ": " ++ format_missing names
  end.

Definition is_param (f : pyfunc) (k : pystr) : bool :=
  bool_decide (k ∈ map fst (fn_params f)).

(** The required parameters that [kw] leaves without a value. *)
Definition missing_params (f : pyfunc) (kw : list (pystr * json)) : list pystr :=
  omap (fun p : pystr * option json =>
          match snd p, dict_get (fst p) kw with
          | None, None => Some (fst p)
          | _, _ => None
          end) (fn_params f).

(** The value of every parameter: the keyword given, else the default. *)
Definition param_values (f : pyfunc) (kw : list (pystr * json)) : list json :=
  omap (fun p : pystr * option json =>
          match dict_get (fst p) kw with
          | Some v => Some v
          | None => snd p
          end) (fn_params f).

(** Binding the keyword arguments to the parameters of [f]: the first
    keyword that names no parameter is reported before any missing
    argument. *)
Definition bind_kwargs (f : pyfunc) (args : json) : bind_error + list json :=
  match args with
  | JObj kw =>
      match List.find (fun kv => negb (is_param f (fst kv))) kw with
      | Some (k, _) => inl (UnexpectedKeyword k)
      | None =>
          match missing_params f kw with
          | [] => inr (param_values f kw)
          | names => inl (MissingRequired names)
          end
      end
  | v => inl (NotAMapping v)
  end.

(** The call of [f] with the keyword arguments [args] (a double-star call). *)
Definition py_call (f : pyfunc) (args : json) : M dict :=
  match bind_kwargs f args with
  | inl err => raise (TypeError (bind_error_message f err))
  | inr values => fn_body f values
  end.

(* ====================================================================== *)
(** ** The external collaborators *)
(* ====================================================================== *)

(** What [requests.post] does: it returns a response (whatever its
    status), raises a [requests.RequestException] (or a subclass of it), or
    raises an exception of a class [cls] outside that hierarchy (a subclass
    of [Exception]: an interrupt of the interpreter is not modelled). *)
Inductive post_outcome : Type :=
| Delivered
| RequestFailed (msg : pystr)
| PostRaises (cls msg : pystr).

(** The exception of class [cls]. *)
Definition raised (cls msg : pystr) : exn :=
  if decide (cls = py "TypeError") then TypeError msg else OtherException cls msg.

(** A page of a PDF: [extract_text()] returns a text or [None], or raises. *)
Inductive page_source : Type :=
| PageText (t : option pystr)
| PageFails.

(** A PDF file: [PdfReader] cannot open it, or it has pages. *)
Inductive pdf_source : Type :=
| PdfUnreadable
| PdfPages (pages : list page_source).

(** A text file: reading or decoding it fails, or it holds a text (its
    bytes decoded as UTF-8, line ends as they are in the file). *)
Inductive txt_source : Type :=
| TxtUnreadable
| TxtContent (s : pystr).

(** The surroundings of one run.  [requests_post k m] is the outcome of the
    [k]-th POST (counting from 0) carrying the message [m];
    [completions_create k ms] is what the [k]-th call of
    [openai.chat.completions.create(model=OPENAI_MODEL, messages=ms,
    tools=TOOLS)] does: it raises, or its first choice is returned.  The
    two file tables give the file at a path, if it exists.  The rest is the
    interpreter: the error handler of stdout, the digits [int] converts
    ([sys.get_int_max_str_digits()], 0 for no limit), the containers that
    [json.loads] can enter below the outermost one before the recursion
    limit is met at its call in the executor (the outermost, and the few
    frames in which [json] builds the report of an error, are taken to
    fit), the text [str(v)] of a float, a list or a dict (the one
    formatting that is not modelled), and the name under which the module
    was imported ([__name__]). *)
Record env : Type := Env {
  PUSHOVER_USER : option pystr;
  PUSHOVER_TOKEN : option pystr;
  requests_post : nat -> pystr -> post_outcome;
  completions_create : nat -> list message -> exn + choice;
  pdf_at : pystr -> option pdf_source;
  text_at : pystr -> option txt_source;
  stdout_errors : error_handler;
  int_max_str_digits : nat;
  stack_room : nat;
  format_value : json -> pystr;
  module_name : pystr
}.

(* ====================================================================== *)
(** ** The program *)
(* ====================================================================== *)

Definition PROFILE_PDF : pystr := py "me/profile.pdf".
Definition SUMMARY_TXT : pystr := py "me/summary.txt".
Definition NAME : pystr := py "Carlos Vallejo".

(** Truth value of an optional string: [None] and the empty string are
    false. *)
Definition truthy (x : option pystr) : bool :=
  match x with
  | Some (_ :: _) => true
  | _ => false
  end.

(** The texts of the pages read before the first failure. *)
Fixpoint page_texts (pages : list page_source) : list pystr :=
  match pages with
  | PageText t :: rest => or_empty t :: page_texts rest
  | PageFails :: _ => []
  | [] => []
  end.

(** [build_system_prompt(name, summary, linkedin_text)] *)
Definition build_system_prompt (name summary linkedin_text : pystr) : pystr :=
  py "You are acting as " ++ name ++ py ". You are answering questions on " ++ name ++ py "'s website, "
  ++ py "particularly questions related to " ++ name ++ py "'s career, background, skills and experience. "
  ++ py "Your responsibility is to represent " ++ name ++ py " for interactions on the website as faithfully as possible. "
  ++ py "You are given a summary of " ++ name ++ py "'s background and LinkedIn profile which you can use to answer questions. "
  ++ py "Be professional and engaging, as if talking to a potential client or future employer who came across the website. "
  ++ py "If you don't know the answer to any question, use your record_unknown_question tool to record the question that you couldn't answer, "
  ++ py "even if it's about something trivial or unrelated to career. "
  ++ py "If the user is engaging in discussion, try to steer them towards getting in touch via email; ask for their email and name "
  ++ py "and record it using your record_user_details tool. "
  ++ py "Before calling the record_user_details tool, ask for the user's email address and name together."
  ++ nl ++ nl ++ py "## Summary:" ++ nl ++ summary ++ nl ++ nl ++ py "## LinkedIn Profile:" ++ nl ++ linkedin_text ++ nl ++ nl
  ++ py "With this context, please chat with the user, always staying in character as " ++ name ++ py ".".

(** [tc.function.arguments or "{}"]: the payload to decode. *)
Definition raw_args (tc : tool_call) : pystr :=
  if truthy (tc_arguments tc) then or_empty (tc_arguments tc) else py "{}".

(** The tool message carrying [result] in answer to [tc]:
    [{"role": "tool", "content": json.dumps(result), "tool_call_id": tc.id}]. *)
Definition tool_message (tc : tool_call) (result : dict) : message :=
  Message (py "tool") (Json.dumps result) None (Some (tc_id tc)).

(** The two notifications, as the f-strings of the handlers build them. *)
Definition details_line (name email notes : pystr) : pystr :=
  py "Recording interest from " ++ name ++ py " with email " ++ email ++ py " and notes " ++ notes.
Definition question_line (question : pystr) : pystr :=
  py "Recording '" ++ question ++ py "' asked that I couldn't answer".

Section Program.

Variable E : env.

(** [print(text)]: the line is written whole or, when stdout cannot encode
    it, not at all and a [UnicodeEncodeError] is raised. *)
Definition print (text : pystr) : M unit := fun w =>
  match encode_failure (stdout_errors E) 0 text with
  | Some failure =>
      (Raise (OtherException (py "UnicodeEncodeError") (encode_error_text failure)), w)
  | None => (Ret tt, w)
  end.

(** [str(v)], as an f-string formats [v].  The text of a float, a list or a
    dict is the interpreter's, given by the surroundings; it is a [repr],
    which writes a surrogate as an escape, so none is taken from it. *)
Definition py_str (v : json) : pystr :=
  match v with
  | JNull => py "None"
  | JBool true => py "True"
  | JBool false => py "False"
  | JInt z => str_of_Z z
  | JStr s => s
  | JFloat _ | JArr _ | JObj _ => List.filter (fun c => negb (is_surrogate c)) (format_value E v)
  end.

(** The exception [json.loads(raw)] raises for each way of failing. *)
Definition decode_exception (raw : pystr) (err : scan_error) : exn :=
  match err with
  | Invalid => JSONDecodeError raw
  | DigitLimit digits =>
      OtherException (py "ValueError")
        (py "Exceeds the limit (" ++ str_of_Z (Z.of_nat (int_max_str_digits E))
         ++ py " digits) for integer string conversion: value has "
         ++ str_of_Z (Z.of_nat digits)
         ++ py " digits; use sys.set_int_max_str_digits() to increase the limit")
  | DepthLimit array =>
      OtherException (py "RecursionError")
        (py "maximum recursion depth exceeded while decoding a JSON "
         ++ (if array then py "array" else py "object")
         ++ py " from a unicode string")
  end.

(** [json.loads(raw)] at its call in the executor. *)
Definition json_loads (raw : pystr) : M json :=
  match Json.loads (int_max_str_digits E) (S (stack_room E)) raw with
  | inr v => mret v
  | inl err => raise (decode_exception raw err)
  end.

(** [requests.post(PUSHOVER_URL, data=payload, timeout=10)], the payload
    carrying [message]. *)
Definition post (message : pystr) : M unit := fun w =>
  match requests_post E (length (posts w)) message with
  | Delivered => (Ret tt, log_post message w)
  | RequestFailed msg => (Raise (RequestException msg), log_post message w)
  | PostRaises cls msg => (Raise (raised cls msg), log_post message w)
  end.

(** [push(message)]: one notification.  It is announced on stdout first;
    without both credentials nothing is sent; a [RequestException] of the
    POST is caught and reported on stdout. *)
Definition push (message : pystr) : M unit :=
  print (py "[Push] " ++ message);;
  (fun w => (Ret tt, log_push message w));;
  if negb (truthy (PUSHOVER_USER E) && truthy (PUSHOVER_TOKEN E)) then mret tt
  else
    try_except_request (post message)
      (fun e => print (py "[Push][WARN] Failed to send pushover: " ++ e)).

(** [read_pdf_text(path)] *)
Definition read_pdf_text (path : pystr) : pystr :=
  match pdf_at E path with
  | None => []
  | Some PdfUnreadable => strip (join nl [])
  | Some (PdfPages pages) => strip (join nl (page_texts pages))
  end.

(** [read_text_file(path)] *)
Definition read_text_file (path : pystr) : pystr :=
  match text_at E path with
  | None => []
  | Some TxtUnreadable => []
  | Some (TxtContent s) => strip (universal_newlines s)
  end.

(** [record_user_details(email, name="Name not provided",
    notes="not provided")] *)
Definition record_user_details : pyfunc :=
  PyFunc (module_name E) (py "record_user_details")
    [(py "email", None);
     (py "name", Some (JStr (py "Name not provided")));
     (py "notes", Some (JStr (py "not provided")))]
    (fun values =>
       match values with
       | [email; name; notes] =>
           push (details_line (py_str name) (py_str email) (py_str notes));;
           mret [(py "recorded", py "ok")]
       | _ => stuck
       end).

(** [record_unknown_question(question)] *)
Definition record_unknown_question : pyfunc :=
  PyFunc (module_name E) (py "record_unknown_question")
    [(py "question", None)]
    (fun values =>
       match values with
       | [question] =>
           push (question_line (py_str question));;
           mret [(py "recorded", py "ok")]
       | _ => stuck
       end).

(** The name-to-handler table. *)
Definition TOOL_DISPATCH : gmap pystr pyfunc :=
  <[py "record_user_details" := record_user_details]>
    (<[py "record_unknown_question" := record_unknown_question]> ∅).

Section Executor.

(** The executor is written over the table it dispatches on;
    [handle_tool_calls] below is its instance at [TOOL_DISPATCH]. *)
Variable registry : gmap pystr pyfunc.

(** One turn of the [for tc in tool_calls] loop: the tool message answering
    [tc].  The arguments are decoded and the request is printed before the
    handler is looked up, all of it outside the [try]. *)
Definition handle_tool_call (tc : tool_call) : M message :=
  let tool_name := tc_name tc in
  args ← json_loads (raw_args tc);
  print (py "[Tool] " ++ tool_name ++ py "(" ++ py_str args ++ py ")");;
  result ← (match registry !! tool_name with
            | None =>
                print (py "[Tool][WARN] No handler for tool '" ++ tool_name ++ py "'");;
                mret [(py "error", py "unknown tool " ++ tool_name)]
            | Some func =>
                try_except (py_call func args)
                  (fun e =>
                     match exn_str e with
                     | Some text =>
                         if is_TypeError e
                         then mret [(py "error", py "bad arguments for " ++ tool_name ++ py ": " ++ text)]
                         else mret [(py "error", py "tool " ++ tool_name ++ py " failed: " ++ text)]
                     | None => stuck
                     end)
            end : M dict);
  mret (tool_message tc result).

(** The loop, with the list [results] built so far. *)
Fixpoint handle_tool_calls_from (results : list message) (tool_calls : list tool_call)
  : M (list message) :=
  match tool_calls with
  | [] => mret results
  | tc :: rest =>
      m ← handle_tool_call tc;
      handle_tool_calls_from (results ++ [m]) rest
  end.

(** [handle_tool_calls(tool_calls)] over the table [registry]. *)
Definition handle_tool_calls_with (tool_calls : list tool_call) : M (list message) :=
  handle_tool_calls_from [] tool_calls.

End Executor.

(** [handle_tool_calls(tool_calls)] *)
Definition handle_tool_calls : list tool_call -> M (list message) :=
  handle_tool_calls_with TOOL_DISPATCH.

(** One request to the model with the message sequence [ms]: the call is
    recorded, then it raises or yields its first choice. *)
Definition ask_model (ms : list message) : M choice := fun w =>
  match completions_create E (length (model_calls w)) ms with
  | inl e => (Raise e, log_model_call ms w)
  | inr c => (Ret c, log_model_call ms w)
  end.

(** The model call of one round, on the list object [messages]. *)
Definition create_completion (messages : loc) : M choice :=
  ms ← list_read messages;
  ask_model ms.

(** The [while True] loop of [chat]; [fuel] bounds the rounds the model
    follows, the loop itself has no bound. *)
Fixpoint chat_loop (fuel : nat) (messages : loc) : M pystr :=
  match fuel with
  | O => diverge
  | S fuel' =>
      choice ← create_completion messages;
      if decide (finish_reason choice = py "tool_calls") then
        let tool_calls := default [] (message_tool_calls choice) in
        results ← handle_tool_calls tool_calls;
        list_append messages
          (Message (py "assistant") (or_empty (message_content choice)) (Some tool_calls) None);;
        list_extend messages results;;
        chat_loop fuel' messages
      else mret (or_empty (message_content choice))
  end.

(** [chat(message, history)], [history] being the list object of the
    host. *)
Definition chat (fuel : nat) (message : pystr) (history : loc) : M pystr :=
  let linkedin_text := read_pdf_text PROFILE_PDF in
  let summary := read_text_file SUMMARY_TXT in
  let system_prompt := build_system_prompt NAME summary linkedin_text in
  messages ← list_new [Message (py "system") system_prompt None None];
  prior ← list_read history;
  list_extend messages prior;;
  list_append messages (Message (py "user") message None None);;
  chat_loop fuel messages.

End Program.

(* ====================================================================== *)
(** ** The tools advertised to the model *)
(* ====================================================================== *)

(** The schema of one parameter: its ["type"] and ["description"]. *)
Record property_schema : Type := PropertySchema {
  property_type : pystr;
  property_description : pystr
}.

(** The schema of a tool as the model sees it: ["name"], ["description"]
    and, under ["parameters"], the object type with its ["properties"],
    ["required"] and ["additionalProperties"]. *)
Record function_schema : Type := FunctionSchema {
  schema_name : pystr;
  schema_description : pystr;
  parameters_type : pystr;
  schema_properties : list (pystr * property_schema);
  schema_required : list pystr;
  additional_properties : bool
}.

Definition RECORD_USER_DETAILS_SCHEMA : function_schema :=
  FunctionSchema (py "record_user_details")
    (py "Use this tool to record that a user is interested in being in touch and provided an email address")
    (py "object")
    [(py "email", PropertySchema (py "string") (py "The email address of this user"));
     (py "name", PropertySchema (py "string") (py "The user's name, if they provided it"));
     (py "notes", PropertySchema (py "string") (py "Extra context worth recording"))]
    [py "email"]
    false.

Definition RECORD_UNKNOWN_QUESTION_SCHEMA : function_schema :=
  FunctionSchema (py "record_unknown_question")
    (py "Always use this tool to record any question that couldn't be answered")
    (py "object")
    [(py "question", PropertySchema (py "string") (py "The question that couldn't be answered"))]
    [py "question"]
    false.

(** [TOOLS]: each entry is [{"type": "function", "function": schema}]. *)
Definition TOOLS : list (pystr * function_schema) :=
  [(py "function", RECORD_USER_DETAILS_SCHEMA);
   (py "function", RECORD_UNKNOWN_QUESTION_SCHEMA)].

(* ====================================================================== *)
(** ** Vocabulary of the statements *)
(* ====================================================================== *)

(** The part of the world a computation leaves alone. *)
Definition same_lists (w w' : world) : Prop :=
  heap w' = heap w /\ model_calls w' = model_calls w.

(** What decoding a payload gives in the surroundings [E]. *)
Definition loads_in (E : env) (raw : pystr) : scan_error + json :=
  Json.loads (int_max_str_digits E) (S (stack_room E)) raw.

(** stdout takes the text. *)
Definition can_print (E : env) (text : pystr) : bool := writable (stdout_errors E) text.

(** The line the executor prints for a request with the arguments [args]. *)
Definition tool_line (E : env) (tc : tool_call) (args : json) : pystr :=
  py "[Tool] " ++ tc_name tc ++ py "(" ++ py_str E args ++ py ")".

(** The decoded arguments do not fit the declared parameters: they are no
    mapping, or a keyword names no parameter, or a parameter without
    default gets no value. *)
Definition shape_mismatch (f : pyfunc) (args : json) : Prop :=
  match args with
  | JObj kw =>
      (exists k, k ∈ map fst kw /\ k ∉ map fst (fn_params f))
      \/ (exists p, (p, None) ∈ fn_params f /\ p ∉ map fst kw)
  | _ => True
  end.

(** The assistant message a tool-calling round appends. *)
Definition assistant_message (c : choice) : message :=
  Message (py "assistant") (or_empty (message_content c))
    (Some (default [] (message_tool_calls c))) None.

(** The message sequence a turn starts from. *)
Definition seeded (E : env) (text : pystr) (prior : list message) : list message :=
  Message (py "system")
    (build_system_prompt NAME (read_text_file E SUMMARY_TXT) (read_pdf_text E PROFILE_PDF))
    None None
  :: prior ++ [Message (py "user") text None None].

(** Both Pushover credentials are set (and not empty). *)
Definition configured (E : env) : bool := truthy (PUSHOVER_USER E) && truthy (PUSHOVER_TOKEN E).

(** The [k]-th POST, carrying [message], does not make [push] raise: it
    returns, or it fails with a [RequestException] whose report stdout
    takes. *)
Definition post_settles (E : env) (k : nat) (message : pystr) : bool :=
  match requests_post E k message with
  | Delivered => true
  | RequestFailed msg => can_print E (py "[Push][WARN] Failed to send pushover: " ++ msg)
  | PostRaises _ _ => false
  end.

(** From [w] to [w'] the notifications [sent] were announced, each followed
    by its POST when the credentials are set, and nothing else changed. *)
Definition notified (E : env) (sent : list pystr) (w w' : world) : Prop :=
  pushes w' = pushes w ++ sent
  /\ posts w' = posts w ++ (if configured E then sent else [])
  /\ heap w' = heap w
  /\ model_calls w' = model_calls w.

(** The two traces of notifications from [w] to [w']. *)
Definition relayed (E : env) (sent : list pystr) (w w' : world) : Prop :=
  pushes w' = pushes w ++ sent
  /\ posts w' = posts w ++ (if configured E then sent else []).

(** A JSON text written with apostrophes for its double quotes. *)
Definition quoted (s : string) : pystr := map (fun c => if c =? 39 then 34 else c) (py s).

(** The two kinds of tool message the specification describes, as the
    texts they are: [{"error": "<reason>"}] with the reason as a JSON
    string, and [{"recorded": "ok"}], each under the identifier of the
    request it answers. *)
Definition error_reply (tc : tool_call) (reason : pystr) : message :=
  Message (py "tool") (quoted "{'error': " ++ encode_str reason ++ py "}") None (Some (tc_id tc)).
Definition recorded_reply (tc : tool_call) : message :=
  Message (py "tool") (quoted "{'recorded': 'ok'}") None (Some (tc_id tc)).

(** The reason of the error result for an exception [e] of a handler whose
    text is [text]. *)
Definition failure_reason (tc : tool_call) (e : exn) (text : pystr) : pystr :=
  if is_TypeError e
  then py "bad arguments for " ++ tc_name tc ++ py ": " ++ text
  else py "tool " ++ tc_name tc ++ py " failed: " ++ text.

(** stdout takes every string among the values of the arguments. *)
Definition printable_values (E : env) (args : json) : Prop :=
  match args with
  | JObj kw => forall k s, (k, JStr s) ∈ kw -> can_print E s = true
  | _ => True
  end.

(** [m] is a tool message in answer to [tc]. *)
Definition replies_to (tc : tool_call) (m : message) : Prop :=
  exists result, m = tool_message tc result.

(** What [n] tool rounds append to the message sequence: for each round the
    assistant message carrying the requests of the model, then one tool
    message per request, in order. *)
Inductive conversation : nat -> list message -> Prop :=
| conversation_end : conversation O []
| conversation_round (c : choice) (results rest : list message) (n : nat) :
    finish_reason c = py "tool_calls" ->
    Forall2 replies_to (default [] (message_tool_calls c)) results ->
    conversation n rest ->
    conversation (S n) (assistant_message c :: results ++ rest).

(** [s] neither starts nor ends with white space. *)
Definition no_edge_space (s : pystr) : Prop :=
  match s with
  | [] => True
  | c :: _ => py_isspace c = false /\ exists d, last s = Some d /\ py_isspace d = false
  end.

(** A code point that is a Unicode scalar value: in range and no surrogate. *)
Definition is_scalar (c : N) : bool := (c <=? 1114111) && negb ((55296 <=? c) && (c <=? 57343)).

(** A text of scalar values only: what UTF-8 can carry. *)
Definition scalar_text (s : pystr) : Prop := Forall (fun c => is_scalar c = true) s.

(** The text of one member of a dumped dict. *)
Definition member_text (kv : pystr * pystr) : pystr :=
  encode_str (fst kv) ++ py ": " ++ encode_str (snd kv).

(** A dict whose keys and values are such texts. *)
Definition scalar_dict (d : list (pystr * pystr)) : Prop :=
  Forall (fun kv => scalar_text (fst kv) /\ scalar_text (snd kv)) d.

(** What decoding builds from the members of [d], on top of [acc]. *)
Definition decoded_members (d : list (pystr * pystr)) (acc : list (pystr * json))
  : list (pystr * json) :=
  fold_left (fun a kv => dict_set (fst kv) (JStr (snd kv)) a) d acc.

(** The keys of [args] are those a schema allows: [args] is an object, it
    has every required key, and no key beyond the properties when
    additional properties are refused. *)
Definition allowed_keys (s : function_schema) (args : json) : Prop :=
  match args with
  | JObj kw =>
      (forall k, k ∈ schema_required s -> k ∈ map fst kw)
      /\ (additional_properties s = false ->
          forall k, k ∈ map fst kw -> k ∈ map fst (schema_properties s))
  | _ => False
  end.

(* ====================================================================== *)
(** ** Sample runs *)
(* ====================================================================== *)

(** A host whose history list, at reference 0, holds one earlier exchange. *)
Definition host_history : list message :=
  [Message (py "user") (py "Hi") None None;
   Message (py "assistant") (py "Hello, how can I help?") None None].
Definition host_world : world := World (<[0%nat := host_history]> ∅) [] [] [].

(** [str(v)] for the values of the sample runs: right for a float literal
    that is the shortest one of its value and for containers whose texts
    hold no apostrophe, backslash or unprintable character. *)
Fixpoint sample_repr (v : json) : pystr :=
  match v with
  | JNull => py "None"
  | JBool true => py "True"
  | JBool false => py "False"
  | JInt z => str_of_Z z
  | JFloat literal => literal
  | JStr s => quote s
  | JArr items => py "[" ++ join (py ", ") (map sample_repr items) ++ py "]"
  | JObj members =>
      py "{"
      ++ join (py ", ") (map (fun kv => quote (fst kv) ++ py ": " ++ sample_repr (snd kv)) members)
      ++ py "}"
  end.

(** Surroundings without credentials or documents, with a scripted model,
    on an interpreter with its defaults: a strict stdout, 4300 digits, a
    stack with room for 900 more containers. *)
Definition scripted (model : nat -> list message -> exn + choice) : env :=
  Env None None (fun _ _ => Delivered) model (fun _ => None) (fun _ => None)
      strict 4300 900 sample_repr (py "career_agent.agent").

(** A model that asks for tools on every round (with no tool-call list). *)
Definition insatiable : env := scripted (fun _ _ => inr (Choice (py "tool_calls") None None)).

(** A model that answers at once. *)
Definition forthcoming : env :=
  scripted (fun _ _ => inr (Choice (py "stop") (Some (py "I am Carlos.")) None)).

(** Requests: a payload that is no JSON, for a registered and for an
    unregistered tool; well-formed ones. *)
Definition truncated_call : tool_call :=
  ToolCall (py "call_2") (py "record_user_details") (Some (py "{")).
Definition truncated_unknown_call : tool_call :=
  ToolCall (py "call_1") (py "lookup_weather") (Some (py "{")).
Definition unknown_call : tool_call :=
  ToolCall (py "call_1") (py "lookup_weather") (Some (quoted "{'city': 'Quito'}")).
Definition question_call : tool_call :=
  ToolCall (py "call_1") (py "record_unknown_question") (Some (quoted "{'question': 'why?'}")).
Definition nameless_call : tool_call :=
  ToolCall (py "call_1") (py "record_user_details") (Some (quoted "{'name': 'Ana'}")).

(** A request for an unregistered tool whose name ends with a lone
    surrogate, and requests whose email or question is one. *)
Definition unprintable_call : tool_call :=
  ToolCall (py "call_1") (py "lookup" ++ [55296]) (Some (py "{}")).
Definition unprintable_email_call : tool_call :=
  ToolCall (py "call_4") (py "record_user_details") (Some (quoted "{'email': '\ud800'}")).
Definition unprintable_question_call : tool_call :=
  ToolCall (py "call_4") (py "record_unknown_question") (Some (quoted "{'question': '\udc80'}")).

(** A request whose payload is no object but a string, a lone surrogate. *)
Definition unprintable_payload_call : tool_call :=
  ToolCall (py "call_5") (py "record_user_details") (Some (quoted "'\ud800'")).

(** A model that asks for the same tool call on every round. *)
Definition persistent : env :=
  scripted (fun _ _ => inr (Choice (py "tool_calls") None (Some [question_call]))).

(** A model that first sends [calls], then answers. *)
Definition requesting (calls : list tool_call) : env :=
  scripted (fun k _ =>
              match k with
              | O => inr (Choice (py "tool_calls") None (Some calls))
              | S _ => inr (Choice (py "stop") (Some (py "Done.")) None)
              end).

(** A table with two handlers whose bodies fail, one of them with a
    [TypeError]. *)
Definition flaky : pyfunc :=
  PyFunc (py "plugins") (py "flaky") [(py "path", None)]
    (fun _ => raise (OtherException (py "OSError") (py "disk full"))).
Definition clumsy : pyfunc :=
  PyFunc (py "plugins") (py "clumsy") [(py "path", None)]
    (fun _ => raise (TypeError (py "list indices must be integers or slices, not str"))).
Definition flaky_registry : gmap pystr pyfunc :=
  <[py "flaky" := flaky]> (<[py "clumsy" := clumsy]> ∅).
Definition flaky_call (payload : string) : tool_call :=
  ToolCall (py "call_1") (py "flaky") (Some (quoted payload)).
Definition clumsy_call : tool_call :=
  ToolCall (py "call_6") (py "clumsy") (Some (quoted "{'path': '/tmp/x'}")).

(** Surroundings with both credentials set, a POST that fails, a model
    that asks for one tool call and then answers, a profile whose third
    page cannot be read, and a summary with spaces around it and line ends
    of three kinds. *)
Definition pushover : env :=
  Env (Some (py "user-key")) (Some (py "app-token"))
      (fun _ _ => RequestFailed (py "timed out"))
      (fun k _ =>
         match k with
         | O => inr (Choice (py "tool_calls") (Some (py "One moment.")) (Some [question_call]))
         | S _ => inr (Choice (py "stop") (Some (py "Done.")) None)
         end)
      (fun _ => Some (PdfPages [PageText (Some (py " Engineer ")); PageText None; PageFails;
                                PageText (Some (py "never read"))]))
      (fun _ => Some (TxtContent (py "  Builder" ++ [13; 10] ++ py "of" ++ [13] ++ py "things."
                                  ++ [10] ++ py " ")))
      strict 4300 900 sample_repr (py "career_agent.agent").

(** The same credentials with a POST that raises outside the
    [RequestException] hierarchy, on a stdout that lets escaped bytes
    through. *)
Definition broken_pipe : env :=
  Env (Some (py "user-key")) (Some (py "app-token"))
      (fun _ _ => PostRaises (py "BrokenPipeError") (py "[Errno 32] Broken pipe"))
      (fun _ _ => inr (Choice (py "stop") (Some (py "Done.")) None))
      (fun _ => None) (fun _ => None)
      surrogateescape 4300 900 sample_repr (py "career_agent.agent").

(** A model that cannot be reached. *)
Definition unreachable : env :=
  scripted (fun _ _ => inl (OtherException (py "APIConnectionError") (py "Connection error."))).

(** A request whose values are not the strings its schema asks for. *)
Definition lax_call : tool_call :=
  ToolCall (py "call_9") (py "record_user_details")
    (Some (quoted "{'notes': null, 'email': 42, 'name': 1.5}")).

(** A result whose text needs every kind of escape. *)
Definition garbled_result : dict :=
  [(py "error", py "tool " ++ [34; 233; 128512; 34] ++ py " failed: " ++ [10; 9; 92; 0; 127; 65535])].

(** A request with all three contact details. *)
Definition thorough_call : tool_call :=
  ToolCall (py "call_3") (py "record_user_details")
    (Some (Json.dumps [(py "email", py "ana@example.org"); (py "name", [65; 241; 97]);
                       (py "notes", py "said " ++ [34] ++ py "hi" ++ [34])])).

(** The same contact details with the keys in two orders. *)
Definition reordered_call : tool_call :=
  ToolCall (py "call_3") (py "record_user_details")
    (Some (quoted "{'notes': 'call me', 'email': 'ana@example.org'}")).

Definition ordered_call : tool_call :=
  ToolCall (py "call_3") (py "record_user_details")
    (Some (quoted "{'email': 'ana@example.org', 'notes': 'call me'}")).

(* ====================================================================== *)
(** ** The JSON scanner never lacks fuel *)
(* ====================================================================== *)

Lemma skip_ws_length s : (length (skip_ws s) <= length s)%nat.
Proof.
  induction s as [| c r IH]; cbn [skip_ws length]; [lia |].
  destruct (is_ws c); cbn [length]; lia.
Qed.

(** Case analysis on every test and scrutinee of a hypothesis. *)
Ltac break_in H :=
  repeat match type of H with
         | (if ?b then _ else _) = Some _ => destruct b eqn:?
         | match ?x with _ => _ end = Some _ => destruct x eqn:?; try discriminate H
         | (let '(_, _) := ?x in _) = Some _ => destruct x eqn:?
         end.

Lemma scanstring_shorter n : forall s acc x r,
  (length s <= n)%nat -> scanstring s acc = Some (x, r) -> (length r < length s)%nat.
Proof.
  induction n as [| n IH]; intros s acc x r Hn H.
  - destruct s; [discriminate H | cbn in Hn; lia].
  - destruct s as [| c s1]; [discriminate H |]. cbn [scanstring] in H. cbn [length] in Hn.
    break_in H; try discriminate H;
      try (injection H as <- <-; cbn [length]; lia);
      try (apply IH in H; cbn [length] in *; lia).
Qed.

Lemma span_digits_length s ds r : span_digits s = (ds, r) -> (length r <= length s)%nat.
Proof.
  revert ds r. induction s as [| c s IH]; intros ds r H; cbn [span_digits] in H.
  - injection H as <- <-. lia.
  - destruct (is_digit c).
    + destruct (span_digits s) as [ds' r'] eqn:Hs. injection H as <- <-.
      specialize (IH _ _ eq_refl). cbn [length]. lia.
    + injection H as <- <-. lia.
Qed.

Lemma match_int_part_shorter s ip r :
  match_int_part s = Some (ip, r) -> (length r < length s)%nat.
Proof.
  unfold match_int_part. destruct s as [| c s]; [discriminate |].
  destruct (c =? 48); [intros [= <- <-]; cbn [length]; lia |].
  destruct (is_digit c); [| discriminate].
  destruct (span_digits s) as [ds r'] eqn:Hs. intros [= <- <-].
  apply span_digits_length in Hs. cbn [length]. lia.
Qed.

Lemma expect_length c s r : expect c s = Some r -> length s = S (length r).
Proof.
  unfold expect. destruct s as [| x s]; [discriminate |].
  destruct (x =? c); [| discriminate]. intros [= <-]. reflexivity.
Qed.

Lemma match_frac_length s fp r : match_frac s = (fp, r) -> (length r <= length s)%nat.
Proof.
  unfold match_frac. destruct (expect 46 s) as [s1 |] eqn:Hdot; [| intros [= <- <-]; lia].
  apply expect_length in Hdot.
  destruct (span_digits s1) as [[| d ds] r'] eqn:Hs; intros [= <- <-]; [lia |].
  apply span_digits_length in Hs. lia.
Qed.

Lemma match_exp_length s ep r : match_exp s = (ep, r) -> (length r <= length s)%nat.
Proof.
  unfold match_exp. destruct s as [| e s]; [intros [= <- <-]; lia |].
  destruct ((e =? 101) || (e =? 69)); [| intros [= <- <-]; lia].
  destruct (match s with
            | [] => ([], s)
            | g :: r0 => if (g =? 45) || (g =? 43) then ([g], r0) else ([], s)
            end) as [sign r1] eqn:Hsign.
  assert (Hr1 : (length r1 <= length s)%nat).
  { destruct s as [| g r0]; [injection Hsign as <- <-; lia |].
    destruct ((g =? 45) || (g =? 43)); injection Hsign as <- <-; cbn [length]; lia. }
  destruct (span_digits r1) as [[| d ds] r'] eqn:Hs; intros [= <- <-]; [lia |].
  apply span_digits_length in Hs. cbn [length]. lia.
Qed.

Lemma match_number_shorter max_digits s v r :
  match_number max_digits s = inr (v, r) -> (length r < length s)%nat.
Proof.
  unfold match_number.
  destruct (match expect 45 s with
            | Some r => (true, r)
            | None => (false, s)
            end) as [neg s1] eqn:Hneg.
  assert (Hs1 : (length s1 <= length s)%nat).
  { destruct (expect 45 s) as [s' |] eqn:Hminus; injection Hneg as <- <-; [| lia].
    apply expect_length in Hminus. lia. }
  destruct (match_int_part s1) as [[ip s2] |] eqn:Hip; [| discriminate].
  apply match_int_part_shorter in Hip.
  destruct (match_frac s2) as [fp s3] eqn:Hfp. apply match_frac_length in Hfp.
  destruct (match_exp s3) as [ep s4] eqn:Hep. apply match_exp_length in Hep.
  destruct fp, ep; [destruct (exceeds max_digits (length ip)); [discriminate |] | | |];
    intros [= <- <-]; lia.
Qed.

Lemma strip_prefix_length p : forall s r,
  strip_prefix p s = Some r -> (length s = length p + length r)%nat.
Proof.
  induction p as [| a p IH]; intros s r H; cbn [strip_prefix] in H.
  - injection H as <-. reflexivity.
  - destruct s as [| b s]; [discriminate |].
    destruct (a =? b); [| discriminate]. apply IH in H. cbn [length]. lia.
Qed.

Lemma match_constant_shorter s v r :
  match_constant s = Some (v, r) -> (length r < length s)%nat.
Proof.
  unfold match_constant. intros H.
  repeat match type of H with
         | match strip_prefix ?p s with _ => _ end = _ =>
             destruct (strip_prefix p s) eqn:?
         end; try discriminate H; injection H as <- <-;
  match goal with
  | E : strip_prefix _ _ = Some _ |- _ => apply strip_prefix_length in E; rewrite E; cbn; lia
  end.
Qed.

(** What a successful scan leaves is shorter than what it was given. *)
Lemma scan_shorter max_digits n :
  (forall room s v r, scan_once max_digits n room s = inr (v, r) -> (length r < length s)%nat)
  /\ (forall room s acc ms r,
        parse_members max_digits n room s acc = inr (ms, r) -> (length r < length s)%nat)
  /\ (forall room s acc xs r,
        parse_items max_digits n room s acc = inr (xs, r) -> (length r < length s)%nat).
Proof.
  induction n as [| n (IHv & IHm & IHi)]; [repeat split; discriminate |].
  split; [| split].
  - intros room s v r H. cbn [scan_once] in H.
    destruct s as [| c s1]; [discriminate |].
    destruct (c =? 34).
    { destruct (scanstring s1 []) as [[str r'] |] eqn:Hstr; [| discriminate].
      injection H as <- <-. apply (scanstring_shorter _ _ _ _ _ (le_n _)) in Hstr.
      cbn [length]. lia. }
    pose proof (skip_ws_length s1) as Hws.
    destruct (c =? 123).
    { destruct room as [| room']; [discriminate |].
      destruct (expect 125 (skip_ws s1)) as [r' |] eqn:Hclose.
      - injection H as <- <-. apply expect_length in Hclose. cbn [length]. lia.
      - destruct (parse_members max_digits n room' (skip_ws s1) []) as [e | [ms r'']] eqn:Hms;
          [discriminate |].
        injection H as <- <-. apply IHm in Hms. cbn [length]. lia. }
    destruct (c =? 91).
    { destruct room as [| room']; [discriminate |].
      destruct (expect 93 (skip_ws s1)) as [r' |] eqn:Hclose.
      - injection H as <- <-. apply expect_length in Hclose. cbn [length]. lia.
      - destruct (parse_items max_digits n room' (skip_ws s1) []) as [e | [xs r'']] eqn:Hxs;
          [discriminate |].
        injection H as <- <-. apply IHi in Hxs. cbn [length]. lia. }
    destruct (match_constant (c :: s1)) as [[v' r'] |] eqn:Hconst.
    + injection H as <- <-. exact (match_constant_shorter _ _ _ Hconst).
    + exact (match_number_shorter _ _ _ _ H).
  - intros room s acc ms r H. cbn [parse_members] in H.
    destruct (expect 34 s) as [s1 |] eqn:Hq; [| discriminate]. apply expect_length in Hq.
    destruct (scanstring s1 []) as [[key r1] |] eqn:Hkey; [| discriminate].
    apply (scanstring_shorter _ _ _ _ _ (le_n _)) in Hkey.
    pose proof (skip_ws_length r1) as Hws1.
    destruct (expect 58 (skip_ws r1)) as [r2 |] eqn:Hcolon; [| discriminate].
    apply expect_length in Hcolon. pose proof (skip_ws_length r2) as Hws2.
    destruct (scan_once max_digits n room (skip_ws r2)) as [e | [v r3]] eqn:Hv; [discriminate |].
    apply IHv in Hv. pose proof (skip_ws_length r3) as Hws3.
    destruct (expect 125 (skip_ws r3)) as [r4 |] eqn:Hclose.
    + injection H as <- <-. apply expect_length in Hclose. lia.
    + destruct (expect 44 (skip_ws r3)) as [r4 |] eqn:Hcomma; [| discriminate].
      apply expect_length in Hcomma. pose proof (skip_ws_length r4) as Hws4.
      apply IHm in H. lia.
  - intros room s acc xs r H. cbn [parse_items] in H.
    destruct (scan_once max_digits n room s) as [e | [v r1]] eqn:Hv; [discriminate |].
    apply IHv in Hv. pose proof (skip_ws_length r1) as Hws1.
    destruct (expect 93 (skip_ws r1)) as [r2 |] eqn:Hclose.
    + injection H as <- <-. apply expect_length in Hclose. lia.
    + destruct (expect 44 (skip_ws r1)) as [r2 |] eqn:Hcomma; [| discriminate].
      apply expect_length in Hcomma. pose proof (skip_ws_length r2) as Hws2.
      apply IHi in H. lia.
Qed.

(** Fuel beyond twice the length of the text changes nothing: the scan
    never stops for lack of fuel. *)
Lemma scan_fuel_enough max_digits n :
  (forall room s m, (2 * length s + 1 <= n)%nat -> (n <= m)%nat ->
     scan_once max_digits m room s = scan_once max_digits n room s)
  /\ (forall room s acc m, (2 * length s + 2 <= n)%nat -> (n <= m)%nat ->
        parse_members max_digits m room s acc = parse_members max_digits n room s acc)
  /\ (forall room s acc m, (2 * length s + 2 <= n)%nat -> (n <= m)%nat ->
        parse_items max_digits m room s acc = parse_items max_digits n room s acc).
Proof.
  induction n as [| n (IHv & IHm & IHi)]; [repeat split; intros; lia |].
  split; [| split].
  - intros room s [| m] Hn Hm; [lia |]. cbn [scan_once].
    destruct s as [| c s1]; [reflexivity |]. cbn [length] in Hn.
    pose proof (skip_ws_length s1) as Hws.
    destruct room as [| room']; [reflexivity |].
    rewrite (IHm room' (skip_ws s1) [] m) by lia.
    rewrite (IHi room' (skip_ws s1) [] m) by lia. reflexivity.
  - intros room s acc [| m] Hn Hm; [lia |]. cbn [parse_members].
    destruct (expect 34 s) as [s1 |] eqn:Hq; [| reflexivity]. apply expect_length in Hq.
    destruct (scanstring s1 []) as [[key r1] |] eqn:Hkey; [| reflexivity].
    apply (scanstring_shorter _ _ _ _ _ (le_n _)) in Hkey.
    pose proof (skip_ws_length r1) as Hws1.
    destruct (expect 58 (skip_ws r1)) as [r2 |] eqn:Hcolon; [| reflexivity].
    apply expect_length in Hcolon. pose proof (skip_ws_length r2) as Hws2.
    rewrite (IHv room (skip_ws r2) m) by lia.
    destruct (scan_once max_digits n room (skip_ws r2)) as [e | [v r3]] eqn:Hv; [reflexivity |].
    apply (proj1 (scan_shorter max_digits n)) in Hv. pose proof (skip_ws_length r3) as Hws3.
    destruct (expect 125 (skip_ws r3)) as [r4 |]; [reflexivity |].
    destruct (expect 44 (skip_ws r3)) as [r4 |] eqn:Hcomma; [| reflexivity].
    apply expect_length in Hcomma. pose proof (skip_ws_length r4) as Hws4.
    apply IHm; lia.
  - intros room s acc [| m] Hn Hm; [lia |]. cbn [parse_items].
    rewrite (IHv room s m) by lia.
    destruct (scan_once max_digits n room s) as [e | [v r1]] eqn:Hv; [reflexivity |].
    apply (proj1 (scan_shorter max_digits n)) in Hv. pose proof (skip_ws_length r1) as Hws1.
    destruct (expect 93 (skip_ws r1)) as [r2 |]; [reflexivity |].
    destruct (expect 44 (skip_ws r1)) as [r2 |] eqn:Hcomma; [| reflexivity].
    apply expect_length in Hcomma. pose proof (skip_ws_length r2) as Hws2.
    apply IHi; lia.
Qed.

(** [loads] does not depend on its fuel: any larger amount decodes a text
    to the same value, or fails on it alike. *)
Lemma loads_fuel_independent max_digits room s m :
  (2 * length s + 2 <= m)%nat ->
  loads max_digits room s =
  match scan_once max_digits m room (skip_ws s) with
  | inr (v, r) => match skip_ws r with [] => inr v | _ :: _ => inl Invalid end
  | inl e => inl e
  end.
Proof.
  intros Hm. unfold loads. pose proof (skip_ws_length s) as Hws.
  rewrite (proj1 (scan_fuel_enough max_digits (2 * length s + 2)) room (skip_ws s) m) by lia.
  reflexivity.
Qed.

(* ====================================================================== *)
(** ** Running computations *)
(* ====================================================================== *)

Lemma bind_run {A B : Type} (c : M A) (f : A -> M B) (w : world) :
  (c ≫= f) w =
  match c w with
  | (Ret a, w') => f a w'
  | (Raise e, w') => (Raise e, w')
  | (Diverge, w') => (Diverge, w')
  | (Stuck, w') => (Stuck, w')
  end.
Proof. reflexivity. Qed.

Lemma bind_ret_run {A B : Type} (c : M A) (f : A -> M B) (w w' : world) (a : A) :
  c w = (Ret a, w') -> (c ≫= f) w = f a w'.
Proof. intros H. rewrite bind_run, H. reflexivity. Qed.

Lemma bind_raise_run {A B : Type} (c : M A) (f : A -> M B) (w w' : world) (e : exn) :
  c w = (Raise e, w') -> (c ≫= f) w = (Raise e, w').
Proof. intros H. rewrite bind_run, H. reflexivity. Qed.

Lemma ret_run {A : Type} (a : A) (w : world) : (mret a : M A) w = (Ret a, w).
Proof. reflexivity. Qed.

Lemma same_lists_refl w : same_lists w w.
Proof. split; reflexivity. Qed.

Lemma same_lists_trans w1 w2 w3 : same_lists w1 w2 -> same_lists w2 w3 -> same_lists w1 w3.
Proof. intros [H1 H2] [H3 H4]. split; congruence. Qed.

(* ====================================================================== *)
(** ** What stdout takes *)
(* ====================================================================== *)

Lemma encode_failure_writable h s : forall pos,
  encode_failure h pos s = None <-> writable h s = true.
Proof.
  induction s as [| c r IH]; intros pos; cbn [encode_failure writable forallb]; [tauto |].
  destruct (encodable h c); cbn [andb].
  - apply IH.
  - split; discriminate.
Qed.

Lemma writable_app h a b : writable h (a ++ b) = writable h a && writable h b.
Proof. apply forallb_app. Qed.

(** A cast of an ASCII literal holds no surrogate. *)
Lemma writable_py h (s : string) : writable h (py s) = true.
Proof.
  unfold py. induction (list_ascii_of_string s) as [| a l IH]; [reflexivity |].
  cbn [map writable forallb]. fold (writable h (map N_of_ascii l)). rewrite IH, andb_true_r.
  unfold encodable, is_surrogate.
  pose proof (N_ascii_bounded a) as Ha.
  replace (55296 <=? N_of_ascii a) with false by (symmetry; apply N.leb_gt; lia).
  reflexivity.
Qed.

Lemma writable_str_of_Z h z : writable h (str_of_Z z) = true.
Proof. apply writable_py. Qed.

Lemma writable_no_surrogate h s :
  writable h (List.filter (fun c => negb (is_surrogate c)) s) = true.
Proof.
  induction s as [| c r IH]; [reflexivity |]. cbn [List.filter].
  destruct (negb (is_surrogate c)) eqn:Hc; [| exact IH].
  cbn [writable forallb]. fold (writable h (List.filter (fun c => negb (is_surrogate c)) r)).
  rewrite IH, andb_true_r. unfold encodable. rewrite Hc. reflexivity.
Qed.

Lemma surrogate_run_sealed a c0 b :
  is_surrogate c0 = false -> surrogate_run (a ++ c0 :: b) = surrogate_run (a ++ [c0]).
Proof.
  intros Hc0. induction a as [| c a IH]; cbn [app surrogate_run].
  - rewrite Hc0. reflexivity.
  - destruct (is_surrogate c); [rewrite IH |]; reflexivity.
Qed.

(** Past a character that is no surrogate, text that stdout takes does not
    change where or how a write fails. *)
Lemma encode_failure_sealed h a c0 b : forall pos,
  is_surrogate c0 = false -> writable h b = true ->
  encode_failure h pos (a ++ c0 :: b) = encode_failure h pos (a ++ [c0]).
Proof.
  intros pos Hc0 Hb. revert pos. induction a as [| c a IH]; intros pos; cbn [app encode_failure].
  - unfold encodable. rewrite Hc0. cbn [negb orb].
    apply (encode_failure_writable h b (S pos)). exact Hb.
  - destruct (encodable h c); [apply IH |].
    change (c :: a ++ c0 :: b) with ((c :: a) ++ c0 :: b).
    change (c :: a ++ [c0]) with ((c :: a) ++ [c0]).
    rewrite (surrogate_run_sealed (c :: a) c0 b Hc0). reflexivity.
Qed.

Section PrintFacts.

Variable E : env.

Lemma print_writable text w : can_print E text = true -> print E text w = (Ret tt, w).
Proof.
  unfold can_print, print. intros H.
  apply (encode_failure_writable _ _ 0%nat) in H. rewrite H. reflexivity.
Qed.

Lemma print_unwritable text w :
  can_print E text = false ->
  exists msg, print E text w = (Raise (OtherException (py "UnicodeEncodeError") msg), w).
Proof.
  unfold can_print, print. intros H.
  destruct (encode_failure (stdout_errors E) 0 text) as [failure |] eqn:Hf; [eauto |].
  apply encode_failure_writable in Hf. congruence.
Qed.

Lemma can_print_app a b : can_print E (a ++ b) = can_print E a && can_print E b.
Proof. apply writable_app. Qed.

Lemma can_print_py (s : string) : can_print E (py s) = true.
Proof. apply writable_py. Qed.

(** Of the values an f-string formats only a string can hold what stdout
    refuses. *)
Lemma can_print_py_str v :
  can_print E (py_str E v) = match v with JStr s => can_print E s | _ => true end.
Proof.
  destruct v as [| [|] | z | l | s | xs | kw]; cbn [py_str];
    first [apply can_print_py | apply writable_str_of_Z | apply writable_no_surrogate
          | reflexivity].
Qed.

(** The line of a request is written when stdout takes the tool name and,
    the arguments being a string, the arguments. *)
Lemma can_print_tool_line tc args :
  can_print E (tool_line E tc args)
  = can_print E (tc_name tc) && match args with JStr s => can_print E s | _ => true end.
Proof.
  unfold tool_line. rewrite !can_print_app, !can_print_py, can_print_py_str.
  cbn [andb]. rewrite andb_true_r. reflexivity.
Qed.

(** For arguments that are no string, how the line of a request is written
    depends on the tool name alone. *)
Lemma print_tool_line tc args w :
  (forall s, args <> JStr s) ->
  print E (tool_line E tc args) w = print E (py "[Tool] " ++ tc_name tc ++ py "(") w.
Proof.
  intros Hargs. unfold print, tool_line.
  replace (py "[Tool] " ++ tc_name tc ++ py "(" ++ py_str E args ++ py ")")
    with ((py "[Tool] " ++ tc_name tc) ++ 40 :: (py_str E args ++ py ")"))
    by (rewrite <- !app_assoc; reflexivity).
  replace (py "[Tool] " ++ tc_name tc ++ py "(") with ((py "[Tool] " ++ tc_name tc) ++ [40])
    by (rewrite <- !app_assoc; reflexivity).
  rewrite encode_failure_sealed; [reflexivity | reflexivity |].
  change (can_print E (py_str E args ++ py ")") = true).
  rewrite can_print_app, can_print_py, can_print_py_str, andb_true_r.
  destruct args; try reflexivity. exfalso. eapply Hargs. reflexivity.
Qed.

End PrintFacts.

(* ====================================================================== *)
(** ** The executor, one request at a time *)
(* ====================================================================== *)

Section ExecutorFacts.

Variable E : env.
Variable registry : gmap pystr pyfunc.

Lemma json_loads_run raw w :
  json_loads E raw w =
  match loads_in E raw with
  | inr v => (Ret v, w)
  | inl err => (Raise (decode_exception E raw err), w)
  end.
Proof. unfold json_loads, loads_in. destruct (loads _ _ raw); reflexivity. Qed.

(** One turn of the loop, step by step. *)
Lemma handle_tool_call_run tc w :
  handle_tool_call E registry tc w =
  match loads_in E (raw_args tc) with
  | inl err => (Raise (decode_exception E (raw_args tc) err), w)
  | inr args =>
      match print E (tool_line E tc args) w with
      | (Ret _, _) =>
          match registry !! tc_name tc with
          | None =>
              (Ret (tool_message tc [(py "error", py "unknown tool " ++ tc_name tc)]), w)
          | Some f =>
              match py_call f args w with
              | (Ret result, w') => (Ret (tool_message tc result), w')
              | (Raise e, w') =>
                  match exn_str e with
                  | Some text =>
                      (Ret (tool_message tc
                              [(py "error",
                                (if is_TypeError e then py "bad arguments for "
                                 else py "tool ") ++ tc_name tc
                                ++ (if is_TypeError e then py ": " else py " failed: ")
                                ++ text)]), w')
                  | None => (Stuck, w')
                  end
              | (Diverge, w') => (Diverge, w')
              | (Stuck, w') => (Stuck, w')
              end
          end
      | (Raise e, w') => (Raise e, w')
      | (Diverge, w') => (Diverge, w')
      | (Stuck, w') => (Stuck, w')
      end
  end.
Proof.
  unfold handle_tool_call. rewrite bind_run, json_loads_run.
  destruct (loads_in E (raw_args tc)) as [err | args]; [reflexivity |].
  rewrite bind_run. fold (tool_line E tc args).
  destruct (can_print E (tool_line E tc args)) eqn:Hline.
  - rewrite (print_writable E _ w Hline), bind_run.
    destruct (registry !! tc_name tc) as [f |].
    + unfold try_except.
      destruct (py_call f args w) as [[result | e | |] w']; try reflexivity.
      destruct (exn_str e) as [text |]; [| reflexivity].
      destruct (is_TypeError e); rewrite <- ?app_assoc; reflexivity.
    + rewrite bind_run.
      rewrite (print_writable E _ w); [reflexivity |].
      rewrite can_print_tool_line in Hline. apply andb_prop in Hline as [Hname _].
      rewrite !can_print_app, !can_print_py, Hname. reflexivity.
  - destruct (print_unwritable E _ w Hline) as [msg ->]. reflexivity.
Qed.

Lemma handle_tool_call_decode_error tc err w :
  loads_in E (raw_args tc) = inl err ->
  handle_tool_call E registry tc w = (Raise (decode_exception E (raw_args tc) err), w).
Proof. intros Hdec. rewrite handle_tool_call_run, Hdec. reflexivity. Qed.

Lemma handle_tool_call_unprintable tc args w :
  loads_in E (raw_args tc) = inr args ->
  can_print E (tool_line E tc args) = false ->
  exists msg,
    handle_tool_call E registry tc w = (Raise (OtherException (py "UnicodeEncodeError") msg), w).
Proof.
  intros Hdec Hline. rewrite handle_tool_call_run, Hdec.
  destruct (print_unwritable E _ w Hline) as [msg ->]. eauto.
Qed.

Lemma handle_tool_call_unknown tc args w :
  loads_in E (raw_args tc) = inr args ->
  can_print E (tool_line E tc args) = true ->
  registry !! tc_name tc = None ->
  handle_tool_call E registry tc w =
  (Ret (tool_message tc [(py "error", py "unknown tool " ++ tc_name tc)]), w).
Proof.
  intros Hdec Hline Hreg.
  rewrite handle_tool_call_run, Hdec, (print_writable E _ w Hline), Hreg. reflexivity.
Qed.

Lemma handle_tool_call_bad_arguments tc args f err w :
  loads_in E (raw_args tc) = inr args ->
  can_print E (tool_line E tc args) = true ->
  registry !! tc_name tc = Some f ->
  bind_kwargs f args = inl err ->
  handle_tool_call E registry tc w =
  (Ret (tool_message tc
          [(py "error",
            py "bad arguments for " ++ tc_name tc ++ py ": " ++ bind_error_message f err)]), w).
Proof.
  intros Hdec Hline Hreg Hbind.
  rewrite handle_tool_call_run, Hdec, (print_writable E _ w Hline), Hreg.
  unfold py_call. rewrite Hbind. reflexivity.
Qed.

Lemma handle_tool_call_failure tc args f values e text w w' :
  loads_in E (raw_args tc) = inr args ->
  can_print E (tool_line E tc args) = true ->
  registry !! tc_name tc = Some f ->
  bind_kwargs f args = inr values ->
  fn_body f values w = (Raise e, w') ->
  exn_str e = Some text ->
  handle_tool_call E registry tc w =
  (Ret (tool_message tc
          [(py "error",
            if is_TypeError e
            then py "bad arguments for " ++ tc_name tc ++ py ": " ++ text
            else py "tool " ++ tc_name tc ++ py " failed: " ++ text)]), w').
Proof.
  intros Hdec Hline Hreg Hbind Hbody Hstr.
  rewrite handle_tool_call_run, Hdec, (print_writable E _ w Hline), Hreg.
  unfold py_call. rewrite Hbind, Hbody, Hstr. destruct (is_TypeError e); reflexivity.
Qed.

Lemma handle_tool_call_success tc args f values result w w' :
  loads_in E (raw_args tc) = inr args ->
  can_print E (tool_line E tc args) = true ->
  registry !! tc_name tc = Some f ->
  bind_kwargs f args = inr values ->
  fn_body f values w = (Ret result, w') ->
  handle_tool_call E registry tc w = (Ret (tool_message tc result), w').
Proof.
  intros Hdec Hline Hreg Hbind Hbody.
  rewrite handle_tool_call_run, Hdec, (print_writable E _ w Hline), Hreg.
  unfold py_call. rewrite Hbind, Hbody. reflexivity.
Qed.

(** The loop goes on with the next request once one is answered. *)
Lemma handle_tool_calls_from_cons results tc rest m w w' :
  handle_tool_call E registry tc w = (Ret m, w') ->
  handle_tool_calls_from E registry results (tc :: rest) w =
  handle_tool_calls_from E registry (results ++ [m]) rest w'.
Proof.
  intros H. cbn [handle_tool_calls_from]. rewrite (bind_ret_run _ _ _ _ _ H). reflexivity.
Qed.

(** An exception of one turn ends the loop: nothing is returned. *)
Lemma handle_tool_calls_from_raise results tc rest e w w' :
  handle_tool_call E registry tc w = (Raise e, w') ->
  handle_tool_calls_from E registry results (tc :: rest) w = (Raise e, w').
Proof.
  intros H. cbn [handle_tool_calls_from]. rewrite (bind_raise_run _ _ _ _ _ H). reflexivity.
Qed.

(** Running the loop on a concatenation. *)
Lemma handle_tool_calls_from_app first : forall results second answered w w',
  handle_tool_calls_from E registry results first w = (Ret answered, w') ->
  handle_tool_calls_from E registry results (first ++ second) w =
  handle_tool_calls_from E registry answered second w'.
Proof.
  induction first as [| tc rest IH]; intros results second answered w w' Hrun.
  - cbn [handle_tool_calls_from] in Hrun. rewrite ret_run in Hrun.
    injection Hrun as -> ->. reflexivity.
  - cbn [handle_tool_calls_from app] in *. rewrite bind_run in *.
    destruct (handle_tool_call E registry tc w) as [[m | e | |] w1]; try discriminate Hrun.
    apply IH. exact Hrun.
Qed.

(** The results built so far ride along unchanged. *)
Lemma handle_tool_calls_from_shift tool_calls : forall results w,
  handle_tool_calls_from E registry results tool_calls w =
  match handle_tool_calls_from E registry [] tool_calls w with
  | (Ret answered, w') => (Ret (results ++ answered), w')
  | other => other
  end.
Proof.
  induction tool_calls as [| tc rest IH]; intros results w; cbn [handle_tool_calls_from].
  - rewrite !ret_run, app_nil_r. reflexivity.
  - rewrite !bind_run.
    destruct (handle_tool_call E registry tc w) as [[m | e | |] w1]; try reflexivity.
    rewrite (IH (results ++ [m])), (IH ([] ++ [m])).
    destruct (handle_tool_calls_from E registry [] rest w1) as [[answered | e | |] w2];
      try reflexivity.
    rewrite <- app_assoc. reflexivity.
Qed.

Lemma handle_tool_calls_from_app_raise first : forall results second e w w',
  handle_tool_calls_from E registry results first w = (Raise e, w') ->
  handle_tool_calls_from E registry results (first ++ second) w = (Raise e, w').
Proof.
  induction first as [| tc rest IH]; intros results second e w w' Hrun;
    cbn [handle_tool_calls_from app] in *.
  - rewrite ret_run in Hrun. discriminate.
  - rewrite bind_run in *.
    destruct (handle_tool_call E registry tc w) as [[m | e' | |] w1]; try discriminate Hrun.
    + apply IH. exact Hrun.
    + exact Hrun.
Qed.

(** Every tool message answers its request. *)
Lemma handle_tool_call_replies tc w m w' :
  handle_tool_call E registry tc w = (Ret m, w') -> replies_to tc m.
Proof.
  rewrite handle_tool_call_run.
  destruct (loads_in E (raw_args tc)) as [err | args]; [discriminate |].
  destruct (print E (tool_line E tc args) w) as [[[] | e | |] w1]; try discriminate.
  destruct (registry !! tc_name tc) as [f |]; [| intros [= <- <-]; eexists; reflexivity].
  destruct (py_call f args w) as [[result | e | |] w2]; try discriminate.
  - intros [= <- <-]. eexists; reflexivity.
  - destruct (exn_str e) as [text |]; [| discriminate]. intros [= <- <-]. eexists; reflexivity.
Qed.

Lemma handle_tool_calls_from_replies tool_calls : forall results w answered w',
  handle_tool_calls_from E registry results tool_calls w = (Ret answered, w') ->
  exists replies, answered = results ++ replies /\ Forall2 replies_to tool_calls replies.
Proof.
  induction tool_calls as [| tc rest IH]; intros results w answered w' Hrun;
    cbn [handle_tool_calls_from] in Hrun.
  - rewrite ret_run in Hrun. injection Hrun as <- <-.
    exists []. rewrite app_nil_r. split; [reflexivity | constructor].
  - rewrite bind_run in Hrun.
    destruct (handle_tool_call E registry tc w) as [[m | e | |] w1] eqn:Hone;
      try discriminate Hrun.
    destruct (IH _ _ _ _ Hrun) as (replies & -> & Hall).
    exists (m :: replies). rewrite <- app_assoc. split; [reflexivity |].
    constructor; [exact (handle_tool_call_replies _ _ _ _ Hone) | exact Hall].
Qed.

End ExecutorFacts.

(* ====================================================================== *)
(** ** Keyword arguments against a signature *)
(* ====================================================================== *)

Lemma dict_get_None {V : Type} (k : pystr) (d : list (pystr * V)) :
  dict_get k d = None <-> k ∉ map fst d.
Proof.
  induction d as [| [k' v] d IH]; cbn [dict_get map fst].
  - split; [intros _; apply not_elem_of_nil | reflexivity].
  - destruct (decide (k' = k)) as [-> | Hne].
    + split; [discriminate | intros H; exfalso; apply H; left].
    + rewrite IH, not_elem_of_cons. split; [intros H; split; [congruence | exact H] | tauto].
Qed.

Lemma is_param_true f k : is_param f k = true <-> k ∈ map fst (fn_params f).
Proof. unfold is_param. apply bool_decide_eq_true. Qed.

Lemma unexpected_keyword_found f (kw : list (pystr * json)) k :
  k ∈ map fst kw -> k ∉ map fst (fn_params f) ->
  exists k' v, List.find (fun kv => negb (is_param f (fst kv))) kw = Some (k', v).
Proof.
  intros Hin Hnot.
  destruct (List.find (fun kv => negb (is_param f (fst kv))) kw) as [[k' v] |] eqn:Hfind.
  - eauto.
  - exfalso. apply list_elem_of_fmap in Hin as [[k0 v0] [-> Hin]].
    apply list_elem_of_In in Hin.
    pose proof (find_none _ _ Hfind _ Hin) as Hf. cbn in Hf.
    apply negb_false_iff, is_param_true in Hf. exact (Hnot Hf).
Qed.

Lemma missing_params_elem f kw p :
  p ∈ missing_params f kw <-> (p, None) ∈ fn_params f /\ p ∉ map fst kw.
Proof.
  unfold missing_params. rewrite list_elem_of_omap. split.
  - intros [[q d] [Hin Hq]]. cbn in Hq.
    destruct d as [d |]; [discriminate |].
    destruct (dict_get q kw) eqn:Hget; [discriminate |].
    injection Hq as <-. split; [exact Hin | apply dict_get_None; exact Hget].
  - intros [Hin Hnot]. exists (p, None). split; [exact Hin |].
    cbn. apply dict_get_None in Hnot. rewrite Hnot. reflexivity.
Qed.

(** Binding fails exactly on a shape mismatch. *)
Lemma bind_kwargs_fails_iff f args :
  (exists err, bind_kwargs f args = inl err) <-> shape_mismatch f args.
Proof.
  destruct args as [| b | z | l | s | xs | kw]; cbn [bind_kwargs shape_mismatch];
    try (split; [trivial | intros _; eexists; reflexivity]).
  split.
  - intros [err Herr].
    destruct (List.find _ kw) as [[k v] |] eqn:Hfind.
    + left. apply find_some in Hfind as [Hin Hf]. cbn in Hf.
      exists k. split.
      * apply list_elem_of_fmap. exists (k, v). split; [reflexivity | apply list_elem_of_In, Hin].
      * intros Hp. apply is_param_true in Hp. rewrite Hp in Hf. discriminate.
    + right. destruct (missing_params f kw) as [| p ps] eqn:Hmiss; [discriminate |].
      exists p. apply missing_params_elem. rewrite Hmiss. left.
  - intros [[k [Hin Hnot]] | [p Hp]].
    + destruct (unexpected_keyword_found f kw k Hin Hnot) as (k' & v & ->). eauto.
    + destruct (List.find _ kw) as [[k v] |]; [eauto |].
      apply missing_params_elem in Hp.
      destruct (missing_params f kw) as [| q qs]; [| eauto].
      exfalso. exact (not_elem_of_nil _ Hp).
Qed.

Lemma dict_get_Some_elem {V : Type} (k : pystr) (d : list (pystr * V)) (v : V) :
  dict_get k d = Some v -> (k, v) ∈ d.
Proof.
  induction d as [| [k' v'] d IH]; cbn [dict_get]; [discriminate |].
  destruct (decide (k' = k)) as [-> | Hne].
  - intros [= ->]. left.
  - intros H. right. exact (IH H).
Qed.

Lemma dict_get_elem {V : Type} (k : pystr) (d : list (pystr * V)) (v : V) :
  NoDup (map fst d) -> (k, v) ∈ d -> dict_get k d = Some v.
Proof.
  induction d as [| [k' v'] d IH]; cbn [map fst dict_get]; intros Hnd Hin.
  - destruct (not_elem_of_nil _ Hin).
  - apply NoDup_cons in Hnd as [Hfresh Hnd].
    apply elem_of_cons in Hin as [[= <- <-] | Hin].
    + destruct (decide (k = k)); [reflexivity | contradiction].
    + destruct (decide (k' = k)) as [-> | Hne]; [| exact (IH Hnd Hin)].
      exfalso. apply Hfresh. apply list_elem_of_fmap. exists (k, v). split; [reflexivity | exact Hin].
Qed.

Lemma dict_get_permutation {V : Type} (k : pystr) (d d' : list (pystr * V)) :
  NoDup (map fst d) -> d ≡ₚ d' -> dict_get k d = dict_get k d'.
Proof.
  intros Hnd Hperm.
  assert (Hnd' : NoDup (map fst d')) by (rewrite <- Hperm; exact Hnd).
  destruct (dict_get k d) as [v |] eqn:Hget.
  - symmetry. apply dict_get_elem; [exact Hnd' |]. rewrite <- Hperm. apply dict_get_Some_elem, Hget.
  - symmetry. apply dict_get_None. rewrite <- Hperm. apply dict_get_None, Hget.
Qed.

Lemma bind_kwargs_permutation f kw kw' :
  NoDup (map fst kw) -> kw ≡ₚ kw' ->
  Forall (fun kv => is_param f (fst kv) = true) kw ->
  bind_kwargs f (JObj kw') = bind_kwargs f (JObj kw).
Proof.
  intros Hnd Hperm Hall.
  assert (Hall' : Forall (fun kv => is_param f (fst kv) = true) kw') by (rewrite <- Hperm; exact Hall).
  assert (Hfind : forall l, Forall (fun kv : pystr * json => is_param f (fst kv) = true) l ->
                    List.find (fun kv => negb (is_param f (fst kv))) l = None).
  { induction 1 as [| kv l Hkv _ IH]; cbn [List.find]; [reflexivity |]. rewrite Hkv. exact IH. }
  cbn [bind_kwargs]. rewrite (Hfind kw Hall), (Hfind kw' Hall').
  assert (Hmiss : missing_params f kw' = missing_params f kw).
  { unfold missing_params.
    induction (fn_params f) as [| p ps IH]; [reflexivity |]. cbn [omap list_omap].
    rewrite <- (dict_get_permutation (fst p) kw kw' Hnd Hperm), IH. reflexivity. }
  assert (Hval : param_values f kw' = param_values f kw).
  { unfold param_values.
    induction (fn_params f) as [| p ps IH]; [reflexivity |]. cbn [omap list_omap].
    rewrite <- (dict_get_permutation (fst p) kw kw' Hnd Hperm), IH. reflexivity. }
  rewrite Hmiss, Hval. reflexivity.
Qed.

Lemma bind_kwargs_length f args values :
  bind_kwargs f args = inr values -> length values = length (fn_params f).
Proof.
  destruct args as [| b | z | l | s | xs | kw]; try discriminate. cbn [bind_kwargs].
  destruct (List.find _ kw) as [[k v] |]; [discriminate |].
  destruct (missing_params f kw) eqn:Hmiss; [| discriminate]. intros [= <-].
  unfold missing_params, param_values in *.
  induction (fn_params f) as [| [p d] ps IH]; [reflexivity |].
  cbn [omap list_omap fst snd] in *.
  destruct (dict_get p kw) as [v |].
  - destruct d; cbn [length]; rewrite IH; [reflexivity | exact Hmiss | reflexivity | exact Hmiss].
  - destruct d as [d |]; [| discriminate]. cbn [length]. rewrite IH; [reflexivity | exact Hmiss].
Qed.

(* ====================================================================== *)
(** ** The notifier and the two handlers *)
(* ====================================================================== *)

Lemma notified_nil E w : notified E [] w w.
Proof. unfold notified. rewrite !app_nil_r. destruct (configured E); rewrite ?app_nil_r; auto. Qed.

Lemma notified_trans E s1 s2 w1 w2 w3 :
  notified E s1 w1 w2 -> notified E s2 w2 w3 -> notified E (s1 ++ s2) w1 w3.
Proof.
  intros (Hp1 & Hq1 & Hh1 & Hm1) (Hp2 & Hq2 & Hh2 & Hm2). unfold notified.
  rewrite Hp2, Hp1, Hq2, Hq1, Hh2, Hh1, Hm2, Hm1.
  destruct (configured E); rewrite <- !app_assoc; auto.
Qed.

Lemma notified_nothing E w w' : notified E [] w w' -> w' = w.
Proof.
  intros (Hp & Hq & Hh & Hm). destruct w, w'. cbn in *.
  rewrite app_nil_r in Hp. destruct (configured E); rewrite app_nil_r in Hq; congruence.
Qed.

Lemma notified_same_lists E sent w w' : notified E sent w w' -> same_lists w w'.
Proof. intros (_ & _ & Hh & Hm). split; assumption. Qed.

Lemma relayed_nil E w w' : pushes w' = pushes w -> posts w' = posts w -> relayed E [] w w'.
Proof. intros Hp Hq. unfold relayed. rewrite Hp, Hq. destruct (configured E); rewrite !app_nil_r; auto. Qed.

Lemma relayed_trans E s1 s2 w1 w2 w3 :
  relayed E s1 w1 w2 -> relayed E s2 w2 w3 -> relayed E (s1 ++ s2) w1 w3.
Proof.
  intros [Hp1 Hq1] [Hp2 Hq2]. unfold relayed. rewrite Hp2, Hp1, Hq2, Hq1.
  destruct (configured E); rewrite <- !app_assoc; auto.
Qed.

Lemma notified_relayed E sent w w' : notified E sent w w' -> relayed E sent w w'.
Proof. intros (Hp & Hq & _). split; assumption. Qed.

Lemma exn_str_raised cls msg : exn_str (raised cls msg) = Some msg.
Proof. unfold raised. destruct (decide (cls = py "TypeError")); reflexivity. Qed.

Section HandlerFacts.

Variable E : env.

Lemma can_print_push_line message : can_print E (py "[Push] " ++ message) = can_print E message.
Proof. rewrite can_print_app, can_print_py. reflexivity. Qed.

(** Nothing is announced, sent or changed when stdout refuses the
    announcement. *)
Lemma push_unprintable message w :
  can_print E message = false ->
  exists msg, push E message w = (Raise (OtherException (py "UnicodeEncodeError") msg), w).
Proof.
  intros H. rewrite <- can_print_push_line in H.
  destruct (print_unwritable E _ w H) as [msg Hmsg].
  exists msg. unfold push. rewrite (bind_raise_run _ _ _ _ _ Hmsg). reflexivity.
Qed.

(** Without both credentials the announcement is all there is. *)
Lemma push_unconfigured message w :
  can_print E message = true -> configured E = false ->
  push E message w = (Ret tt, log_push message w).
Proof.
  intros H Hconf. rewrite <- can_print_push_line in H. unfold push, configured in *.
  rewrite (bind_ret_run _ _ _ _ _ (print_writable E _ w H)), bind_run, Hconf. reflexivity.
Qed.

(** With them, the POST is made and decides the outcome. *)
Lemma push_configured message w :
  can_print E message = true -> configured E = true ->
  push E message w =
  (match requests_post E (length (posts w)) message with
   | Delivered => Ret tt
   | RequestFailed msg =>
       fst (print E (py "[Push][WARN] Failed to send pushover: " ++ msg) w)
   | PostRaises cls msg => Raise (raised cls msg)
   end, log_post message (log_push message w)).
Proof.
  intros H Hconf. rewrite <- can_print_push_line in H. unfold push, configured in *.
  rewrite (bind_ret_run _ _ _ _ _ (print_writable E _ w H)), bind_run, Hconf.
  cbn [negb]. unfold try_except_request, post. cbn [log_push posts].
  destruct (requests_post E (length (posts w)) message) as [| msg | cls msg]; try reflexivity.
  - unfold print. destruct (encode_failure _ _ _); reflexivity.
  - unfold raised. destruct (decide (cls = py "TypeError")); reflexivity.
Qed.

(** What [push] does, in all: when stdout takes the announcement exactly
    one notification is announced, and posted if the credentials are set;
    it returns unless the POST, or the report of its failure, raises. *)
Lemma push_run message w :
  can_print E message = true ->
  exists out w',
    push E message w = (out, w')
    /\ notified E [message] w w'
    /\ (out = Ret tt \/ exists e text, out = Raise e /\ exn_str e = Some text)
    /\ ((configured E = true -> post_settles E (length (posts w)) message = true) ->
        out = Ret tt).
Proof.
  intros H. destruct (configured E) eqn:Hconf.
  - rewrite (push_configured message w H Hconf). eexists _, _. split; [reflexivity |].
    split; [unfold notified; rewrite Hconf; auto |].
    unfold post_settles.
    destruct (requests_post E (length (posts w)) message) as [| msg | cls msg].
    + split; [left; reflexivity | reflexivity].
    + destruct (can_print E (py "[Push][WARN] Failed to send pushover: " ++ msg)) eqn:Hwarn.
      * rewrite (print_writable E _ w Hwarn). split; [left; reflexivity | reflexivity].
      * destruct (print_unwritable E _ w Hwarn) as [text ->]. cbn [fst].
        split; [right; eauto |]. intros Hs. specialize (Hs eq_refl). discriminate.
    + split; [right; eexists _, _; split; [reflexivity | apply exn_str_raised] |].
      intros Hs. specialize (Hs eq_refl). discriminate.
  - rewrite (push_unconfigured message w H Hconf). eexists _, _. split; [reflexivity |].
    split; [| split; [left; reflexivity | reflexivity]].
    unfold notified. rewrite Hconf, app_nil_r. auto.
Qed.

(** The body of a handler: one [push] of its line, then the payload. *)
Lemma recorder_run line w :
  exists out w' sent,
    (push E line ;; mret [(py "recorded", py "ok")] : M dict) w = (out, w')
    /\ notified E sent w w'
    /\ ((out = Ret [(py "recorded", py "ok")] /\ sent = [line])
        \/ (exists e text, out = Raise e /\ exn_str e = Some text
              /\ (sent = [] \/ sent = [line])))
    /\ (can_print E line = true ->
        (configured E = true -> post_settles E (length (posts w)) line = true) ->
        out = Ret [(py "recorded", py "ok")]).
Proof.
  destruct (can_print E line) eqn:Hline.
  - destruct (push_run line w Hline) as (out & w' & Hrun & Hnote & Hout & Hsettles).
    rewrite bind_run, Hrun. destruct Hout as [-> | (e & text & -> & Hstr)].
    + eexists _, _, _. split; [reflexivity |]. split; [exact Hnote |].
      split; [left; split; reflexivity | reflexivity].
    + eexists _, _, _. split; [reflexivity |]. split; [exact Hnote |].
      split; [right; eauto 6 |]. intros _ Hs. specialize (Hsettles Hs). discriminate.
  - destruct (push_unprintable line w Hline) as [msg Hrun].
    rewrite bind_run, Hrun. eexists _, _, []. split; [reflexivity |].
    split; [apply notified_nil |]. split; [right; eauto 6 | discriminate].
Qed.

Lemma TOOL_DISPATCH_lookup name f :
  TOOL_DISPATCH E !! name = Some f ->
  (name = py "record_user_details" /\ f = record_user_details E)
  \/ (name = py "record_unknown_question" /\ f = record_unknown_question E).
Proof.
  unfold TOOL_DISPATCH. intros H.
  apply lookup_insert_Some in H as [[<- <-] | [_ H]]; [left; split; reflexivity |].
  apply lookup_insert_Some in H as [[<- <-] | [_ H]]; [right; split; reflexivity |].
  rewrite lookup_empty in H. discriminate.
Qed.

Lemma TOOL_DISPATCH_record_user_details :
  TOOL_DISPATCH E !! py "record_user_details" = Some (record_user_details E).
Proof. unfold TOOL_DISPATCH. rewrite lookup_insert_eq. reflexivity. Qed.

Lemma TOOL_DISPATCH_record_unknown_question :
  TOOL_DISPATCH E !! py "record_unknown_question" = Some (record_unknown_question E).
Proof.
  unfold TOOL_DISPATCH. rewrite lookup_insert_ne.
  - rewrite lookup_insert_eq. reflexivity.
  - intros H. vm_compute in H. discriminate H.
Qed.

Lemma can_print_details_line name email notes :
  can_print E (details_line name email notes)
  = can_print E name && can_print E email && can_print E notes.
Proof.
  unfold details_line. rewrite !can_print_app, !can_print_py. cbn [andb].
  rewrite andb_assoc. reflexivity.
Qed.

Lemma can_print_question_line question :
  can_print E (question_line question) = can_print E question.
Proof.
  unfold question_line. rewrite !can_print_app, !can_print_py. cbn [andb].
  apply andb_true_r.
Qed.

(** The line a handler of the table announces for the values of its
    parameters. *)
Lemma handler_body_run f values :
  f = record_user_details E \/ f = record_unknown_question E ->
  length values = length (fn_params f) ->
  exists line,
    fn_body f values = (push E line ;; mret [(py "recorded", py "ok")])
    /\ (can_print E line = forallb (fun v => can_print E (py_str E v)) values).
Proof.
  intros [-> | ->] Hlen; cbn [fn_params record_user_details record_unknown_question length] in Hlen.
  - destruct values as [| email [| name [| notes [| extra values]]]]; try discriminate Hlen.
    eexists. split; [reflexivity |].
    rewrite can_print_details_line. cbn [forallb andb].
    destruct (can_print E (py_str E name)), (can_print E (py_str E email)),
      (can_print E (py_str E notes)); reflexivity.
  - destruct values as [| question [| extra values]]; try discriminate Hlen.
    eexists. split; [reflexivity |].
    rewrite can_print_question_line. cbn [forallb andb]. rewrite !andb_true_r. reflexivity.
Qed.

End HandlerFacts.

(* ====================================================================== *)
(** ** The executor over [TOOL_DISPATCH] *)
(* ====================================================================== *)

Section DispatchFacts.

Variable E : env.

(** The ways one turn of the loop ends: an exception of the decoding or of
    the printing of the request, with nothing sent; an error result with
    nothing sent; an error result for an exception that [push] raised after
    its announcement; or the payload of a handler, after one notification. *)
Lemma handle_tool_call_cases tc w :
  exists out w' sent,
    handle_tool_call E (TOOL_DISPATCH E) tc w = (out, w')
    /\ notified E sent w w'
    /\ ((exists e, out = Raise e /\ sent = [])
        \/ (exists reason, out = Ret (tool_message tc [(py "error", reason)]) /\ sent = [])
        \/ (exists e text line,
              out = Ret (tool_message tc
                           [(py "error",
                             if is_TypeError e
                             then py "bad arguments for " ++ tc_name tc ++ py ": " ++ text
                             else py "tool " ++ tc_name tc ++ py " failed: " ++ text)])
              /\ exn_str e = Some text /\ sent = [line])
        \/ (out = Ret (tool_message tc [(py "recorded", py "ok")]) /\ exists line, sent = [line])).
Proof.
  destruct (loads_in E (raw_args tc)) as [err | args] eqn:Hdec.
  { rewrite (handle_tool_call_decode_error _ _ _ _ _ Hdec).
    eexists _, w, []. split; [reflexivity |]. split; [apply notified_nil | left; eauto]. }
  destruct (can_print E (tool_line E tc args)) eqn:Hline.
  2: { destruct (handle_tool_call_unprintable E (TOOL_DISPATCH E) _ _ w Hdec Hline) as [msg ->].
       eexists _, w, []. split; [reflexivity |]. split; [apply notified_nil | left; eauto]. }
  destruct (TOOL_DISPATCH E !! tc_name tc) as [f |] eqn:Hreg.
  2: { rewrite (handle_tool_call_unknown _ _ _ _ w Hdec Hline Hreg).
       eexists _, w, []. split; [reflexivity |]. split; [apply notified_nil | right; left; eauto]. }
  destruct (bind_kwargs f args) as [err | values] eqn:Hbind.
  { rewrite (handle_tool_call_bad_arguments _ _ _ _ _ _ w Hdec Hline Hreg Hbind).
    eexists _, w, []. split; [reflexivity |]. split; [apply notified_nil | right; left; eauto]. }
  assert (Hf : f = record_user_details E \/ f = record_unknown_question E)
    by (destruct (TOOL_DISPATCH_lookup E _ _ Hreg) as [[_ ->] | [_ ->]]; auto).
  destruct (handler_body_run E f values Hf (bind_kwargs_length _ _ _ Hbind)) as (line & Hbody & _).
  destruct (recorder_run E line w)
    as (out & w' & sent & Hrun & Hnote & [[-> ->] | (e & text & -> & Hstr & Hsent)] & _).
  - eexists _, w', [line]. split; [| split; [exact Hnote | right; right; right; eauto]].
    apply (handle_tool_call_success _ _ _ _ _ _ _ _ _ Hdec Hline Hreg Hbind).
    rewrite Hbody. exact Hrun.
  - eexists _, w', sent. split; [| split; [exact Hnote |]].
    + apply (handle_tool_call_failure E _ tc args f values e text w w' Hdec Hline Hreg Hbind);
        [| exact Hstr].
      rewrite Hbody. exact Hrun.
    + destruct Hsent as [-> | ->]; [right; left; eauto | right; right; left; eauto 6].
Qed.

(** A request whose payload decodes and whose line stdout takes is
    answered. *)
Lemma handle_tool_call_answered tc args w :
  loads_in E (raw_args tc) = inr args ->
  can_print E (tool_line E tc args) = true ->
  exists m w', handle_tool_call E (TOOL_DISPATCH E) tc w = (Ret m, w').
Proof.
  intros Hdec Hline.
  destruct (handle_tool_call_cases tc w) as (out & w' & sent & Hrun & _ & Hcases).
  destruct Hcases as [[e [-> _]] | [[reason [-> _]] | [(e & text & line & -> & _) | [-> _]]]];
    eauto.
  exfalso. rewrite handle_tool_call_run, Hdec, (print_writable E _ w Hline) in Hrun.
  destruct (TOOL_DISPATCH E !! tc_name tc) as [f |]; [| discriminate Hrun].
  destruct (py_call f args w) as [[result | e' | |] w1]; try discriminate Hrun.
  destruct (exn_str e'); discriminate Hrun.
Qed.

(** One turn sends at most one notification, changes nothing else, and
    comes to an end. *)
Lemma handle_tool_call_notified tc w :
  exists out w' sent,
    handle_tool_call E (TOOL_DISPATCH E) tc w = (out, w')
    /\ notified E sent w w' /\ (length sent <= 1)%nat /\ out <> Diverge /\ out <> Stuck.
Proof.
  destruct (handle_tool_call_cases tc w) as (out & w' & sent & Hrun & Hnote & Hcases).
  exists out, w', sent. split; [exact Hrun |]. split; [exact Hnote |].
  destruct Hcases as [[e [-> ->]] | [[reason [-> ->]] | [(e & text & line & -> & _ & ->)
                                                         | [-> [line ->]]]]];
    cbn [length]; (split; [lia | split; discriminate]).
Qed.

Lemma handle_tool_calls_from_notified tool_calls : forall results w,
  exists out w' sent,
    handle_tool_calls_from E (TOOL_DISPATCH E) results tool_calls w = (out, w')
    /\ notified E sent w w'
    /\ (length sent <= length tool_calls)%nat
    /\ out <> Diverge /\ out <> Stuck.
Proof.
  induction tool_calls as [| tc rest IH]; intros results w; cbn [handle_tool_calls_from].
  - eexists _, w, []. split; [reflexivity |]. split; [apply notified_nil |].
    split; [reflexivity | split; discriminate].
  - rewrite bind_run.
    destruct (handle_tool_call_notified tc w) as (out & w1 & s1 & -> & Hn1 & Hl1 & Hd & Hs).
    destruct out as [m | e | |]; try contradiction.
    + destruct (IH (results ++ [m]) w1) as (out & w2 & s2 & -> & Hn2 & Hl2 & Hd2 & Hs2).
      exists out, w2, (s1 ++ s2). split; [reflexivity |].
      split; [exact (notified_trans _ _ _ _ _ _ Hn1 Hn2) |].
      rewrite length_app. cbn [length]. split; [lia | split; assumption].
    + eexists _, w1, s1. split; [reflexivity |]. split; [exact Hn1 |].
      cbn [length]. split; [lia | split; discriminate].
Qed.

Lemma handle_tool_calls_notified tool_calls w :
  exists out w' sent,
    handle_tool_calls E tool_calls w = (out, w')
    /\ notified E sent w w'
    /\ (length sent <= length tool_calls)%nat
    /\ out <> Diverge /\ out <> Stuck.
Proof. unfold handle_tool_calls, handle_tool_calls_with. apply handle_tool_calls_from_notified. Qed.

Lemma handle_tool_calls_quiet tool_calls w :
  exists out w',
    handle_tool_calls E tool_calls w = (out, w') /\ same_lists w w' /\ out <> Diverge.
Proof.
  destruct (handle_tool_calls_notified tool_calls w) as (out & w' & sent & Hrun & Hn & _ & Hd & _).
  exists out, w'. split; [exact Hrun |]. split; [exact (notified_same_lists _ _ _ _ Hn) | exact Hd].
Qed.

Lemma handle_tool_calls_replies tool_calls w answered w' :
  handle_tool_calls E tool_calls w = (Ret answered, w') ->
  Forall2 replies_to tool_calls answered.
Proof.
  unfold handle_tool_calls, handle_tool_calls_with. intros Hrun.
  destruct (handle_tool_calls_from_replies _ _ _ _ _ _ _ Hrun) as (replies & -> & Hall).
  exact Hall.
Qed.

(** Requests that decode and whose lines stdout takes are all answered. *)
Lemma handle_tool_calls_from_answered tool_calls : forall results w,
  Forall (fun tc => exists args, loads_in E (raw_args tc) = inr args
                                 /\ can_print E (tool_line E tc args) = true) tool_calls ->
  exists answered w',
    handle_tool_calls_from E (TOOL_DISPATCH E) results tool_calls w = (Ret answered, w').
Proof.
  induction tool_calls as [| tc rest IH]; intros results w Hall.
  - eexists _, _. reflexivity.
  - apply Forall_cons in Hall as [(args & Hdec & Hline) Hrest].
    destruct (handle_tool_call_answered tc args w Hdec Hline) as (m & w1 & Hrun).
    rewrite (handle_tool_calls_from_cons _ _ _ _ _ _ _ _ Hrun). apply IH. exact Hrest.
Qed.

End DispatchFacts.

(* ====================================================================== *)
(** ** The conversation loop, one round at a time *)
(* ====================================================================== *)

Section LoopFacts.

Variable E : env.

Lemma list_read_run l xs w : heap w !! l = Some xs -> list_read l w = (Ret xs, w).
Proof. intros H. unfold list_read. rewrite H. reflexivity. Qed.

Lemma list_extend_run l old xs w :
  heap w !! l = Some old ->
  list_extend l xs w = (Ret tt, set_heap (<[l := old ++ xs]> (heap w)) w).
Proof. intros H. unfold list_extend. rewrite H. reflexivity. Qed.

Lemma create_completion_run messages ms w :
  heap w !! messages = Some ms ->
  create_completion E messages w =
  match completions_create E (length (model_calls w)) ms with
  | inl e => (Raise e, log_model_call ms w)
  | inr c => (Ret c, log_model_call ms w)
  end.
Proof.
  intros H. unfold create_completion.
  rewrite (bind_ret_run _ _ _ _ _ (list_read_run _ _ _ H)). reflexivity.
Qed.

(** One round of the loop, in full. *)
Lemma chat_loop_round fuel messages ms w :
  heap w !! messages = Some ms ->
  chat_loop E (S fuel) messages w =
  match completions_create E (length (model_calls w)) ms with
  | inl e => (Raise e, log_model_call ms w)
  | inr c =>
      if decide (finish_reason c = py "tool_calls") then
        match handle_tool_calls E (default [] (message_tool_calls c)) (log_model_call ms w) with
        | (Ret results, w2) =>
            chat_loop E fuel messages
              (set_heap (<[messages := ms ++ assistant_message c :: results]> (heap w2)) w2)
        | (Raise e, w2) => (Raise e, w2)
        | (Diverge, w2) => (Diverge, w2)
        | (Stuck, w2) => (Stuck, w2)
        end
      else (Ret (or_empty (message_content c)), log_model_call ms w)
  end.
Proof.
  intros Hms. cbn [chat_loop]. rewrite bind_run, (create_completion_run _ _ _ Hms).
  destruct (completions_create E (length (model_calls w)) ms) as [e | c]; [reflexivity |].
  destruct (decide (finish_reason c = py "tool_calls")) as [Hfin | Hfin]; [| reflexivity].
  rewrite bind_run.
  destruct (handle_tool_calls_quiet E (default [] (message_tool_calls c))
              (log_model_call ms w)) as (out & w2 & -> & [Hheap _] & _).
  destruct out as [results | e | |]; try reflexivity.
  assert (Hms2 : heap w2 !! messages = Some ms) by (rewrite Hheap; exact Hms).
  unfold list_append.
  rewrite (bind_ret_run _ _ _ _ _ (list_extend_run _ _ _ _ Hms2)).
  erewrite bind_ret_run.
  2: { apply list_extend_run. cbn [set_heap heap]. rewrite lookup_insert_eq. reflexivity. }
  f_equal. unfold set_heap, assistant_message. cbn [heap pushes posts model_calls].
  rewrite insert_insert_eq, <- app_assoc. reflexivity.
Qed.

(** The seeding of a turn: a new list object holds the system prompt, the
    prior history and the user message; the loop starts on it. *)
Lemma chat_seeds fuel text history prior w :
  heap w !! history = Some prior ->
  chat E fuel text history w =
  chat_loop E fuel (fresh (dom (heap w)))
    (set_heap (<[fresh (dom (heap w)) := seeded E text prior]> (heap w)) w).
Proof.
  intros Hprior. unfold chat, seeded.
  set (l := fresh (dom (heap w))).
  assert (Hne : l <> history).
  { intros Heq. apply (is_fresh (dom (heap w))). fold l. rewrite Heq.
    apply elem_of_dom. exists prior. exact Hprior. }
  rewrite bind_run. unfold list_new. fold l.
  erewrite bind_ret_run.
  2: { apply list_read_run. cbn [set_heap heap]. rewrite lookup_insert_ne by exact Hne. exact Hprior. }
  erewrite bind_ret_run.
  2: { apply list_extend_run. cbn [set_heap heap]. rewrite lookup_insert_eq. reflexivity. }
  unfold list_append. erewrite bind_ret_run.
  2: { apply list_extend_run. cbn [set_heap heap]. rewrite lookup_insert_eq. reflexivity. }
  f_equal. unfold set_heap. cbn [heap pushes posts model_calls].
  rewrite !insert_insert_eq. reflexivity.
Qed.

(** Whatever the model and the tools do, a run of the loop only appends to
    its list object, changes no other list, and hands the model sequences
    that extend the one it started from. *)
Lemma chat_loop_grows fuel : forall messages ms w,
  heap w !! messages = Some ms ->
  exists out w' ms' calls,
    chat_loop E fuel messages w = (out, w')
    /\ heap w' = <[messages := ms']> (heap w)
    /\ ms `prefix_of` ms'
    /\ model_calls w' = model_calls w ++ calls
    /\ Forall (fun call => ms `prefix_of` call) calls
    /\ (fuel <> O -> head calls = Some ms).
Proof.
  induction fuel as [| fuel IH]; intros messages ms w Hms.
  - exists Diverge, w, ms, []. cbn [chat_loop]. rewrite app_nil_r, (insert_id _ _ _ Hms).
    split; [reflexivity |]. split; [reflexivity |]. split; [reflexivity |].
    split; [reflexivity |]. split; [constructor | intros H; contradiction].
  - rewrite (chat_loop_round _ _ _ _ Hms).
    assert (Hstop : forall (out : outcome pystr) w2,
      heap w2 = heap w -> model_calls w2 = model_calls w ++ [ms] ->
      exists out' w' ms' calls,
        (out, w2) = (out', w')
        /\ heap w' = <[messages := ms']> (heap w)
        /\ ms `prefix_of` ms'
        /\ model_calls w' = model_calls w ++ calls
        /\ Forall (fun call => ms `prefix_of` call) calls
        /\ (S fuel <> O -> head calls = Some ms)).
    { intros out w2 Hheap Hcalls. exists out, w2, ms, [ms].
      rewrite Hheap, Hcalls, (insert_id _ _ _ Hms).
      split; [reflexivity |]. split; [reflexivity |]. split; [reflexivity |].
      split; [reflexivity |]. split; [| intros _; reflexivity].
      constructor; [reflexivity | constructor]. }
    destruct (completions_create E (length (model_calls w)) ms) as [e | c];
      [apply Hstop; reflexivity |].
    destruct (decide (finish_reason c = py "tool_calls")) as [Hfin | Hfin];
      [| apply Hstop; reflexivity].
    destruct (handle_tool_calls_quiet E (default [] (message_tool_calls c)) (log_model_call ms w))
      as (out & w2 & -> & [Hheap Hcalls] & _).
    cbn [log_model_call heap model_calls] in Hheap, Hcalls.
    destruct out as [results | e | |]; try (apply Hstop; assumption).
    set (ms2 := ms ++ assistant_message c :: results).
    destruct (IH messages ms2 (set_heap (<[messages := ms2]> (heap w2)) w2))
      as (out & w' & ms' & calls & Hrun & Hheap' & Hpre & Hcalls' & Hall & _).
    { cbn [set_heap heap]. rewrite lookup_insert_eq. reflexivity. }
    assert (Hpre2 : ms `prefix_of` ms2) by (eexists; reflexivity).
    exists out, w', ms', (ms :: calls). split; [exact Hrun |].
    cbn [set_heap heap model_calls] in Hheap', Hcalls'.
    rewrite Hheap', Hheap, insert_insert_eq, Hcalls', Hcalls, <- app_assoc.
    split; [reflexivity |]. split; [etransitivity; eassumption |].
    split; [reflexivity |]. split; [| intros _; reflexivity].
    constructor; [reflexivity |].
    eapply Forall_impl; [exact Hall |]. intros call Hcall. etransitivity; eassumption.
Qed.

(** Against a model that asks for tools on every round the loop has no way
    to return: once the fuel is spent it is still awaiting the model, with
    one model call made per unit of fuel. *)
Lemma chat_loop_never_returns :
  (forall k ms, exists c, completions_create E k ms = inr c /\ finish_reason c = py "tool_calls") ->
  forall fuel messages ms w,
    heap w !! messages = Some ms ->
    exists out w',
      chat_loop E fuel messages w = (out, w')
      /\ (forall reply, out <> Ret reply)
      /\ (out = Diverge -> length (model_calls w') = (length (model_calls w) + fuel)%nat).
Proof.
  intros Hmodel. induction fuel as [| fuel IH]; intros messages ms w Hms.
  - exists Diverge, w. cbn [chat_loop].
    split; [reflexivity |]. split; [discriminate | intros _; lia].
  - rewrite (chat_loop_round _ _ _ _ Hms).
    destruct (Hmodel (length (model_calls w)) ms) as (c & -> & Hfin).
    destruct (decide (finish_reason c = py "tool_calls")) as [_ | Hne]; [| contradiction].
    destruct (handle_tool_calls_quiet E (default [] (message_tool_calls c)) (log_model_call ms w))
      as (out & w2 & -> & [Hheap Hcalls] & Hout).
    cbn [log_model_call heap model_calls] in Hheap, Hcalls.
    destruct out as [results | e | |];
      try (eexists _, _; split; [reflexivity |]; split; [discriminate | discriminate]);
      [| contradiction].
    set (ms2 := ms ++ assistant_message c :: results).
    destruct (IH messages ms2 (set_heap (<[messages := ms2]> (heap w2)) w2))
      as (out & w' & Hrun & Hnot & Hdiv).
    { cbn [set_heap heap]. rewrite lookup_insert_eq. reflexivity. }
    exists out, w'. split; [exact Hrun |]. split; [exact Hnot |].
    intros Hd. rewrite (Hdiv Hd). cbn [set_heap model_calls].
    rewrite Hcalls, length_app. cbn. lia.
Qed.

(** Against a model that asks for tools on every round and whose batches
    are all answered the loop goes on: after any number of rounds it is
    still awaiting the model, having made one model call and appended one
    whole round per round followed. *)
Lemma chat_loop_keeps_going :
  (forall k ms, exists c, completions_create E k ms = inr c /\ finish_reason c = py "tool_calls") ->
  (forall k ms c w1,
     completions_create E k ms = inr c ->
     exists results w2,
       handle_tool_calls E (default [] (message_tool_calls c)) w1 = (Ret results, w2)) ->
  forall fuel messages ms w,
    heap w !! messages = Some ms ->
    exists w' tail,
      chat_loop E fuel messages w = (Diverge, w')
      /\ length (model_calls w') = (length (model_calls w) + fuel)%nat
      /\ heap w' = <[messages := ms ++ tail]> (heap w)
      /\ conversation fuel tail.
Proof.
  intros Hmodel Hanswered. induction fuel as [| fuel IH]; intros messages ms w Hms.
  - exists w, []. cbn [chat_loop]. rewrite app_nil_r, (insert_id _ _ _ Hms).
    split; [reflexivity |]. split; [lia |]. split; [reflexivity | constructor].
  - rewrite (chat_loop_round _ _ _ _ Hms).
    destruct (Hmodel (length (model_calls w)) ms) as (c & Hc & Hfin). rewrite Hc.
    destruct (decide (finish_reason c = py "tool_calls")) as [_ | Hne]; [| contradiction].
    destruct (Hanswered _ _ _ (log_model_call ms w) Hc) as (results & w2 & Hrun).
    destruct (handle_tool_calls_quiet E (default [] (message_tool_calls c)) (log_model_call ms w))
      as (out & w2' & Hrun' & [Hheap Hcalls] & _).
    rewrite Hrun in Hrun'. injection Hrun' as <- <-. rewrite Hrun.
    cbn [log_model_call heap model_calls] in Hheap, Hcalls.
    pose proof (handle_tool_calls_replies E _ _ _ _ Hrun) as Hreplies.
    set (ms2 := ms ++ assistant_message c :: results).
    destruct (IH messages ms2 (set_heap (<[messages := ms2]> (heap w2)) w2))
      as (w' & tail & Hloop & Hlen & Hheap' & Hconv).
    { cbn [set_heap heap]. rewrite lookup_insert_eq. reflexivity. }
    exists w', (assistant_message c :: results ++ tail). split; [exact Hloop |].
    cbn [set_heap heap model_calls] in Hheap', Hlen.
    split; [rewrite Hlen, Hcalls, length_app; cbn [length]; lia |].
    split; [| constructor; assumption].
    rewrite Hheap', Hheap, insert_insert_eq. unfold ms2. rewrite <- app_assoc. reflexivity.
Qed.

(** The account of a run of the loop: what it appends, what it sends, and
    where a reply comes from. *)
Lemma chat_loop_trace fuel : forall messages ms w,
  heap w !! messages = Some ms ->
  exists out w' n tail sent,
    chat_loop E fuel messages w = (out, w')
    /\ heap w' = <[messages := ms ++ tail]> (heap w)
    /\ conversation n tail
    /\ relayed E sent w w'
    /\ (n <= fuel)%nat
    /\ (forall reply, out = Ret reply ->
          exists c,
            completions_create E (length (model_calls w) + n) (ms ++ tail) = inr c
            /\ finish_reason c <> py "tool_calls"
            /\ reply = or_empty (message_content c)
            /\ length (model_calls w') = (length (model_calls w) + S n)%nat).
Proof.
  induction fuel as [| fuel IH]; intros messages ms w Hms.
  - exists Diverge, w, O, [], []. cbn [chat_loop]. rewrite app_nil_r, (insert_id _ _ _ Hms).
    split; [reflexivity |]. split; [reflexivity |]. split; [constructor |].
    split; [apply relayed_nil; reflexivity |]. split; [lia | discriminate].
  - rewrite (chat_loop_round _ _ _ _ Hms).
    assert (Hstop : forall (out : outcome pystr) w2 sent,
      heap w2 = heap w -> relayed E sent w w2 -> (forall reply, out <> Ret reply) ->
      exists out' w' n tail sent',
        (out, w2) = (out', w')
        /\ heap w' = <[messages := ms ++ tail]> (heap w)
        /\ conversation n tail
        /\ relayed E sent' w w'
        /\ (n <= S fuel)%nat
        /\ (forall reply, out' = Ret reply ->
              exists c,
                completions_create E (length (model_calls w) + n) (ms ++ tail) = inr c
                /\ finish_reason c <> py "tool_calls"
                /\ reply = or_empty (message_content c)
                /\ length (model_calls w') = (length (model_calls w) + S n)%nat)).
    { intros out w2 sent Hheap Hrel Hnot. exists out, w2, O, [], sent.
      rewrite app_nil_r, Hheap, (insert_id _ _ _ Hms).
      split; [reflexivity |]. split; [reflexivity |]. split; [constructor |].
      split; [exact Hrel |]. split; [lia |]. intros reply ->. destruct (Hnot reply eq_refl). }
    destruct (completions_create E (length (model_calls w)) ms) as [e | c] eqn:Hmodel.
    { apply (Hstop _ _ []); [reflexivity | apply relayed_nil; reflexivity | discriminate]. }
    destruct (decide (finish_reason c = py "tool_calls")) as [Hfin | Hfin].
    2: { exists (Ret (or_empty (message_content c))), (log_model_call ms w), O, [], [].
         rewrite app_nil_r. cbn [log_model_call heap]. rewrite (insert_id _ _ _ Hms).
         split; [reflexivity |]. split; [reflexivity |]. split; [constructor |].
         split; [apply relayed_nil; reflexivity |]. split; [lia |].
         intros reply [= <-]. exists c. rewrite Nat.add_0_r.
         split; [exact Hmodel |]. split; [exact Hfin |]. split; [reflexivity |].
         cbn [log_model_call model_calls]. rewrite length_app. cbn [length]. lia. }
    destruct (handle_tool_calls_notified E (default [] (message_tool_calls c)) (log_model_call ms w))
      as (out & w2 & sent & Hrun & (Hp & Hq & Hheap & Hcalls) & _).
    rewrite Hrun. cbn [log_model_call heap model_calls pushes posts] in Hp, Hq, Hheap, Hcalls.
    assert (Hrel : relayed E sent w w2) by (split; assumption).
    destruct out as [results | e | |];
      try (apply (Hstop _ _ sent); [exact Hheap | exact Hrel | discriminate]).
    pose proof (handle_tool_calls_replies E _ _ _ _ Hrun) as Hreplies.
    set (ms2 := ms ++ assistant_message c :: results).
    destruct (IH messages ms2 (set_heap (<[messages := ms2]> (heap w2)) w2))
      as (out & w' & n & tail & sent' & Hloop & Hheap' & Hconv & Hrel' & Hn & Hreply).
    { cbn [set_heap heap]. rewrite lookup_insert_eq. reflexivity. }
    exists out, w', (S n), (assistant_message c :: results ++ tail), (sent ++ sent').
    split; [exact Hloop |].
    cbn [set_heap heap model_calls] in Hheap', Hreply.
    assert (Hseq : ms2 ++ tail = ms ++ assistant_message c :: results ++ tail).
    { unfold ms2. rewrite <- app_assoc. reflexivity. }
    split; [rewrite Hheap', Hheap, insert_insert_eq, Hseq; reflexivity |].
    split; [constructor; assumption |].
    split.
    { eapply relayed_trans; [exact Hrel |]. destruct Hrel' as [Hp' Hq']. split; assumption. }
    split; [lia |].
    intros reply Hout. destruct (Hreply reply Hout) as (c' & Hmodel' & Hfin' & Htext & Hlen).
    exists c'. rewrite Hcalls, length_app in Hmodel', Hlen. cbn [length] in Hmodel', Hlen.
    rewrite Hseq in Hmodel'.
    replace (length (model_calls w) + S n)%nat with (length (model_calls w) + 1 + n)%nat by lia.
    split; [exact Hmodel' |]. split; [exact Hfin' |]. split; [exact Htext | lia].
Qed.

End LoopFacts.

(* ====================================================================== *)
(** ** Encoding a result and decoding it again *)
(* ====================================================================== *)

Lemma hex_digit_val d : d < 16 -> hex_val (hex_digit d) = Some d.
Proof.
  intros H.
  assert (Hd : d = 0 \/ d = 1 \/ d = 2 \/ d = 3 \/ d = 4 \/ d = 5 \/ d = 6 \/ d = 7 \/ d = 8
               \/ d = 9 \/ d = 10 \/ d = 11 \/ d = 12 \/ d = 13 \/ d = 14 \/ d = 15) by lia.
  repeat (destruct Hd as [-> | Hd]; [reflexivity |]). subst d. reflexivity.
Qed.

Lemma hex4_escape u :
  u < 65536 ->
  hex4 (hex_digit (u / 4096 mod 16)) (hex_digit (u / 256 mod 16))
       (hex_digit (u / 16 mod 16)) (hex_digit (u mod 16)) = Some u.
Proof.
  intros Hu. unfold hex4.
  rewrite !hex_digit_val by (apply N.mod_lt; discriminate).
  f_equal.
  replace (u / 256) with (u / 16 / 16) by (rewrite N.Div0.div_div; reflexivity).
  replace (u / 4096) with (u / 16 / 16 / 16) by (rewrite !N.Div0.div_div; reflexivity).
  pose proof (N.div_mod u 16 ltac:(discriminate)) as H0.
  pose proof (N.div_mod (u / 16) 16 ltac:(discriminate)) as H1.
  pose proof (N.div_mod (u / 16 / 16) 16 ltac:(discriminate)) as H2.
  pose proof (N.div_mod (u / 16 / 16 / 16) 16 ltac:(discriminate)) as H3.
  pose proof (N.mod_lt u 16 ltac:(discriminate)).
  pose proof (N.mod_lt (u / 16) 16 ltac:(discriminate)).
  pose proof (N.mod_lt (u / 16 / 16) 16 ltac:(discriminate)).
  pose proof (N.mod_lt (u / 16 / 16 / 16) 16 ltac:(discriminate)).
  generalize dependent (u mod 16). generalize dependent (u / 16 mod 16).
  generalize dependent (u / 16 / 16 mod 16). generalize dependent (u / 16 / 16 / 16 mod 16).
  generalize dependent (u / 16 / 16 / 16 / 16). generalize dependent (u / 16 / 16 / 16).
  generalize dependent (u / 16 / 16). generalize dependent (u / 16).
  intros. lia.
Qed.

Lemma scanstring_u a b c d r acc :
  scanstring (92 :: 117 :: a :: b :: c :: d :: r) acc =
  match hex4 a b c d with
  | None => None
  | Some u =>
      if is_high_surrogate u then
        match low_surrogate_ahead r with
        | Some lo =>
            match r with
            | _ :: _ :: _ :: _ :: _ :: _ :: r3 => scanstring r3 (join_surrogates u lo :: acc)
            | _ => None
            end
        | None => scanstring r (u :: acc)
        end
      else scanstring r (u :: acc)
  end.
Proof. reflexivity. Qed.

Lemma scanstring_plain c r acc :
  (c =? 34) = false -> (c =? 92) = false -> (c <=? 31) = false ->
  scanstring (c :: r) acc = scanstring r (c :: acc).
Proof. intros H1 H2 H3. cbn [scanstring]. rewrite H1, H2, H3. reflexivity. Qed.

(** Reading back one escaped character. *)
Lemma scanstring_escape_char c t acc :
  is_scalar c = true -> scanstring (escape_char c ++ t) acc = scanstring t (c :: acc).
Proof.
  unfold is_scalar, escape_char. intros Hc.
  apply andb_true_iff in Hc as [Hmax Hsur]. apply N.leb_le in Hmax.
  apply negb_true_iff, andb_false_iff in Hsur.
  destruct (c =? 34) eqn:H34; [apply N.eqb_eq in H34 as ->; reflexivity |].
  destruct (c =? 92) eqn:H92; [apply N.eqb_eq in H92 as ->; reflexivity |].
  destruct ((32 <=? c) && (c <=? 126)) eqn:Hprint.
  { apply andb_true_iff in Hprint as [Hlo _]. apply N.leb_le in Hlo.
    cbn [app]. apply scanstring_plain; [exact H34 | exact H92 | apply N.leb_gt; lia]. }
  destruct (c =? 10) eqn:H10; [apply N.eqb_eq in H10 as ->; reflexivity |].
  destruct (c =? 13) eqn:H13; [apply N.eqb_eq in H13 as ->; reflexivity |].
  destruct (c =? 9) eqn:H9; [apply N.eqb_eq in H9 as ->; reflexivity |].
  destruct (c =? 8) eqn:H8; [apply N.eqb_eq in H8 as ->; reflexivity |].
  destruct (c =? 12) eqn:H12; [apply N.eqb_eq in H12 as ->; reflexivity |].
  destruct (c <? 65536) eqn:Hbmp.
  - apply N.ltb_lt in Hbmp. unfold escape_u. cbn [app].
    rewrite scanstring_u, (hex4_escape c Hbmp).
    assert (Hhigh : is_high_surrogate c = false).
    { unfold is_high_surrogate. destruct Hsur as [H | H].
      - rewrite H. reflexivity.
      - apply N.leb_gt in H. apply andb_false_iff. right. apply N.leb_gt. lia. }
    rewrite Hhigh. reflexivity.
  - apply N.ltb_ge in Hbmp.
    pose proof (N.mod_lt (c - 65536) 1024 ltac:(discriminate)) as Hmod.
    assert (Hdiv : (c - 65536) / 1024 < 1024).
    { apply N.Div0.div_lt_upper_bound. lia. }
    pose proof (N.div_mod (c - 65536) 1024 ltac:(discriminate)) as Hqr.
    remember ((c - 65536) / 1024) as q eqn:Hq. remember ((c - 65536) mod 1024) as r eqn:Hr.
    clear Hq Hr.
    assert (Hhi : 55296 + q < 65536) by lia.
    assert (Hlo : 56320 + r < 65536) by lia.
    unfold escape_u. cbn [app].
    rewrite scanstring_u, (hex4_escape _ Hhi).
    assert (Hhigh : is_high_surrogate (55296 + q) = true).
    { unfold is_high_surrogate. apply andb_true_iff. split; apply N.leb_le; lia. }
    rewrite Hhigh. unfold low_surrogate_ahead. cbn [andb N.eqb Pos.eqb].
    rewrite (hex4_escape _ Hlo).
    assert (Hlow : is_low_surrogate (56320 + r) = true).
    { unfold is_low_surrogate. apply andb_true_iff. split; apply N.leb_le; lia. }
    rewrite Hlow. f_equal. f_equal. unfold join_surrogates. lia.
Qed.

(** Reading back an encoded string, up to its closing quote. *)
Lemma scanstring_encoded s : forall t acc,
  scalar_text s ->
  scanstring (concat (map escape_char s) ++ 34 :: t) acc = Some (rev acc ++ s, t).
Proof.
  induction s as [| c s IH]; intros t acc Hs.
  - cbn. rewrite app_nil_r. reflexivity.
  - apply Forall_cons in Hs as [Hc Hs]. cbn [map concat]. rewrite <- app_assoc.
    rewrite (scanstring_escape_char c _ acc Hc), (IH t (c :: acc) Hs).
    cbn [rev]. rewrite <- app_assoc. reflexivity.
Qed.

(** The text of one member of a dumped dict. *)
Lemma member_text_eq k v rest :
  member_text (k, v) ++ rest =
  34 :: concat (map escape_char k) ++ 34 :: 58 :: 32 :: 34 :: concat (map escape_char v) ++ 34 :: rest.
Proof.
  unfold member_text, encode_str. cbn [fst snd].
  change (py ": ") with [58; 32]. repeat rewrite <- app_assoc. reflexivity.
Qed.

Lemma parse_member_step m room f k v rest acc :
  scalar_text k -> scalar_text v ->
  parse_members m (S (S f)) room (member_text (k, v) ++ rest) acc =
  match expect 125 (skip_ws rest) with
  | Some r4 => inr (dict_set k (JStr v) acc, r4)
  | None =>
      match expect 44 (skip_ws rest) with
      | Some r4 => parse_members m (S f) room (skip_ws r4) (dict_set k (JStr v) acc)
      | None => inl Invalid
      end
  end.
Proof.
  intros Hk Hv. rewrite member_text_eq.
  cbn [parse_members expect]. change (34 =? 34) with true. cbn iota.
  rewrite (scanstring_encoded k _ [] Hk). cbn [rev app].
  change (skip_ws (58 :: 32 :: 34 :: concat (map escape_char v) ++ 34 :: rest))
    with (58 :: 32 :: 34 :: concat (map escape_char v) ++ 34 :: rest).
  cbn [expect]. change (58 =? 58) with true. cbn iota.
  change (skip_ws (32 :: 34 :: concat (map escape_char v) ++ 34 :: rest))
    with (34 :: concat (map escape_char v) ++ 34 :: rest).
  cbn [scan_once]. change (34 =? 34) with true. cbn iota.
  rewrite (scanstring_encoded v _ [] Hv). cbn [rev app]. reflexivity.
Qed.

Lemma members_head kv d rest :
  exists r, join (py ", ") (map member_text (kv :: d)) ++ rest = 34 :: r.
Proof.
  destruct kv as [k v]. destruct d as [| kv' d]; cbn [map join].
  - rewrite member_text_eq. eauto.
  - rewrite <- app_assoc, member_text_eq. eauto.
Qed.

Lemma after_member_close m room f k v t acc :
  match expect 125 (skip_ws (125 :: t)) with
  | Some r4 => inr (dict_set k (JStr v) acc, r4)
  | None =>
      match expect 44 (skip_ws (125 :: t)) with
      | Some r4 => parse_members m (S f) room (skip_ws r4) (dict_set k (JStr v) acc)
      | None => inl Invalid
      end
  end = inr (dict_set k (JStr v) acc, t).
Proof. reflexivity. Qed.

Lemma after_member_comma m room f k v r acc :
  match expect 125 (skip_ws (44 :: 32 :: 34 :: r)) with
  | Some r4 => inr (dict_set k (JStr v) acc, r4)
  | None =>
      match expect 44 (skip_ws (44 :: 32 :: 34 :: r)) with
      | Some r4 => parse_members m (S f) room (skip_ws r4) (dict_set k (JStr v) acc)
      | None => inl Invalid
      end
  end = parse_members m (S f) room (34 :: r) (dict_set k (JStr v) acc).
Proof. reflexivity. Qed.

Lemma parse_members_dumped m room d : forall kv acc t fuel,
  (length d + 2 <= fuel)%nat ->
  scalar_dict (kv :: d) ->
  parse_members m fuel room (join (py ", ") (map member_text (kv :: d)) ++ 125 :: t) acc
  = inr (decoded_members (kv :: d) acc, t).
Proof.
  induction d as [| kv' d IH]; intros [k v] acc t fuel Hfuel Hd;
    apply Forall_cons in Hd as [[Hk Hv] Hd]; cbn [fst snd] in Hk, Hv;
    destruct fuel as [| [| f]]; cbn [length] in Hfuel; try lia.
  - cbn [map join]. rewrite (parse_member_step m room f k v _ acc Hk Hv).
    apply after_member_close.
  - change (join (py ", ") (map member_text ((k, v) :: kv' :: d)))
      with (member_text (k, v) ++ [44; 32] ++ join (py ", ") (map member_text (kv' :: d))).
    rewrite <- !app_assoc.
    rewrite (parse_member_step m room f k v _ acc Hk Hv).
    destruct (members_head kv' d (125 :: t)) as [r Hr].
    cbn [app]. rewrite Hr, after_member_comma, <- Hr.
    rewrite (IH kv' _ t (S f)) by (exact Hd || lia). reflexivity.
Qed.

(** Without repeated keys the decoded members are the members. *)
Lemma decoded_members_nodup d : forall acc,
  NoDup (map fst acc ++ map fst d) ->
  decoded_members d acc = acc ++ map (fun kv => (fst kv, JStr (snd kv))) d.
Proof.
  assert (Hset : forall (k : pystr) (v : json) acc, k ∉ map fst acc -> dict_set k v acc = acc ++ [(k, v)]).
  { intros k v acc. induction acc as [| [k' v'] acc IH]; cbn [dict_set map fst app]; [reflexivity |].
    intros Hnot. apply not_elem_of_cons in Hnot as [Hne Hnot].
    destruct (decide (k' = k)) as [-> | _]; [contradiction |]. rewrite (IH Hnot). reflexivity. }
  induction d as [| [k v] d IH]; intros acc Hnd; cbn [decoded_members fold_left map fst snd].
  - rewrite app_nil_r. reflexivity.
  - cbn [map fst] in Hnd.
    assert (Hk : k ∉ map fst acc).
    { apply NoDup_app in Hnd as (_ & Hdisj & _). intros Hin. apply (Hdisj k Hin). left. }
    rewrite (Hset k (JStr v) acc Hk).
    change (fold_left (fun a kv => dict_set (fst kv) (JStr (snd kv)) a) d (acc ++ [(k, JStr v)]))
      with (decoded_members d (acc ++ [(k, JStr v)])).
    rewrite IH.
    + rewrite <- app_assoc. reflexivity.
    + rewrite map_app. cbn [map fst]. rewrite <- app_assoc. exact Hnd.
Qed.

(** [json.loads(json.dumps(d))] gives [d] back, whatever the digit limit
    and the room on the stack beyond one container. *)
Lemma loads_dumps m room d :
  scalar_dict d -> NoDup (map fst d) ->
  loads m (S room) (dumps d) = inr (JObj (map (fun kv => (fst kv, JStr (snd kv))) d)).
Proof.
  intros Hd Hnd.
  rewrite (loads_fuel_independent m (S room) (dumps d)
             (S (2 * length (dumps d) + 2 + length d + 2))%nat) by lia.
  unfold dumps. destruct d as [| kv d].
  - reflexivity.
  - destruct (members_head kv d [125]) as [r Hr].
    change ([123] ++ join (py ", ") (map (fun kv0 => encode_str (fst kv0) ++ py ": " ++ encode_str (snd kv0)) (kv :: d)) ++ [125])
      with (123 :: (join (py ", ") (map member_text (kv :: d)) ++ [125])).
    change (skip_ws (123 :: (join (py ", ") (map member_text (kv :: d)) ++ [125])))
      with (123 :: (join (py ", ") (map member_text (kv :: d)) ++ [125])).
    cbn [scan_once]. change (123 =? 34) with false. change (123 =? 123) with true. cbn iota.
    rewrite Hr. change (skip_ws (34 :: r)) with (34 :: r).
    change (expect 125 (34 :: r)) with (@None pystr). cbn iota. rewrite <- Hr.
    rewrite parse_members_dumped by (exact Hd || (cbn [length]; lia)).
    change (skip_ws []) with (@nil N). cbn iota.
    rewrite (decoded_members_nodup (kv :: d) []) by exact Hnd. reflexivity.
Qed.

(* ====================================================================== *)
(** ** Stripping white space, translating line ends *)
(* ====================================================================== *)

Lemma lstrip_suffix s : lstrip s `suffix_of` s.
Proof.
  induction s as [| c r IH]; cbn [lstrip]; [reflexivity |].
  destruct (py_isspace c); [| reflexivity].
  destruct IH as [k Hk]. exists (c :: k). cbn. congruence.
Qed.

Lemma lstrip_head s c r : lstrip s = c :: r -> py_isspace c = false.
Proof.
  induction s as [| d t IH]; cbn [lstrip]; [discriminate |].
  destruct (py_isspace d) eqn:Hd; [exact IH |]. intros [= <- <-]. exact Hd.
Qed.

Lemma lstrip_id s : match s with [] => True | c :: _ => py_isspace c = false end -> lstrip s = s.
Proof. destruct s as [| c r]; [reflexivity |]. cbn [lstrip]. intros ->. reflexivity. Qed.


Lemma strip_edges s : no_edge_space (strip s).
Proof.
  unfold strip. set (t := lstrip s). set (u := lstrip (rev t)).
  destruct (rev u) as [| c r] eqn:Hru; [exact I |].
  assert (Hu : u <> []) by (intros Hu; rewrite Hu in Hru; discriminate).
  destruct u as [| d u'] eqn:Heu; [contradiction |].
  pose proof (lstrip_head (rev t) d u' Heu) as Hd.
  destruct (lstrip_suffix (rev t)) as [k Hk]. fold u in Hk. rewrite Heu in Hk.
  assert (Ht : t = rev (d :: u') ++ rev k).
  { rewrite <- (rev_involutive t), Hk, rev_app_distr. reflexivity. }
  cbn [no_edge_space]. split.
  - rewrite Hru in Ht. cbn [app] in Ht.
    exact (lstrip_head s c (r ++ rev k) Ht).
  - exists d. split; [| exact Hd].
    rewrite <- Hru. cbn [rev]. apply last_snoc.
Qed.

Lemma strip_fixed s : no_edge_space s -> strip s = s.
Proof.
  destruct s as [| c r]; [reflexivity |]. intros [Hc (d & Hlast & Hd)].
  unfold strip. rewrite (lstrip_id (c :: r)) by exact Hc.
  rewrite lstrip_id; [apply rev_involutive |].
  destruct (rev (c :: r)) as [| e q] eqn:Hrev; [exact I |].
  assert (e = d); [| congruence].
  apply (f_equal (@rev N)) in Hrev. rewrite rev_involutive in Hrev. cbn [rev] in Hrev.
  rewrite Hrev, last_snoc in Hlast. congruence.
Qed.

Lemma strip_idempotent s : strip (strip s) = strip s.
Proof. apply strip_fixed, strip_edges. Qed.






(* ====================================================================== *)
(** ** Schemas against signatures *)
(* ====================================================================== *)

Section Schemas.

Variable E : env.

(** Every advertised tool is registered under its name, by a handler of
    that name whose parameters are the properties of the schema and whose
    parameters without default are the required ones. *)
Lemma TOOLS_registered kind s :
  (kind, s) ∈ TOOLS ->
  kind = py "function"
  /\ exists f,
      TOOL_DISPATCH E !! schema_name s = Some f
      /\ fn_name f = schema_name s
      /\ map fst (fn_params f) = map fst (schema_properties s)
      /\ omap (fun p : pystr * option json => match snd p with None => Some (fst p) | Some _ => None end)
           (fn_params f) = schema_required s
      /\ additional_properties s = false.
Proof.
  unfold TOOLS. intros Hin.
  apply elem_of_cons in Hin as [[= -> ->] | Hin];
    [| apply elem_of_cons in Hin as [[= -> ->] | Hin]; [| destruct (not_elem_of_nil _ Hin)]].
  - split; [reflexivity |]. exists (record_user_details E).
    split; [apply TOOL_DISPATCH_record_user_details |]. repeat split.
  - split; [reflexivity |]. exists (record_unknown_question E).
    split; [apply TOOL_DISPATCH_record_unknown_question |]. repeat split.
Qed.

(** For a handler whose signature matches a schema, the arguments with
    allowed keys are exactly those that bind. *)
Lemma allowed_keys_bind (s : function_schema) (f : pyfunc) (args : json) :
  map fst (fn_params f) = map fst (schema_properties s) ->
  omap (fun p : pystr * option json => match snd p with None => Some (fst p) | Some _ => None end)
    (fn_params f) = schema_required s ->
  additional_properties s = false ->
  allowed_keys s args <-> exists values, bind_kwargs f args = inr values.
Proof.
  intros Hprops Hreq Hadd.
  assert (Hrequired : forall k, k ∈ schema_required s <-> (k, None) ∈ fn_params f).
  { intros k. rewrite <- Hreq, list_elem_of_omap. split.
    - intros [[p [d |]] [Hin Hp]]; cbn in Hp; [discriminate |]. injection Hp as <-. exact Hin.
    - intros Hin. exists (k, None). split; [exact Hin | reflexivity]. }
  assert (Hbind : (exists values, bind_kwargs f args = inr values) <-> ~ shape_mismatch f args).
  { rewrite <- bind_kwargs_fails_iff. destruct (bind_kwargs f args) as [err | values].
    - split; [intros [v Hv]; discriminate | intros H; destruct H; eauto].
    - split; [intros _ [err Herr]; discriminate | eauto]. }
  rewrite Hbind. destruct args as [| b | z | l | t | xs | kw]; cbn [allowed_keys shape_mismatch];
    try tauto.
  rewrite Hprops. split.
  - intros [Hall Hextra] [[k [Hin Hnot]] | [p [Hp Hnot]]].
    + exact (Hnot (Hextra Hadd k Hin)).
    + apply Hnot, Hall, Hrequired, Hp.
  - intros Hfit. split.
    + intros k Hk. destruct (decide (k ∈ map fst kw)) as [Hin | Hnot]; [exact Hin |].
      exfalso. apply Hfit. right. exists k. split; [apply Hrequired, Hk | exact Hnot].
    + intros _ k Hin. destruct (decide (k ∈ map fst (schema_properties s))) as [Hp | Hnot]; [exact Hp |].
      exfalso. apply Hfit. left. exists k. split; assumption.
Qed.

End Schemas.

(* ====================================================================== *)
(** ** The tool messages as texts *)
(* ====================================================================== *)

Lemma tool_message_error tc reason :
  tool_message tc [(py "error", reason)] = error_reply tc reason.
Proof.
  unfold tool_message, error_reply, dumps. cbn [map join fst snd].
  rewrite <- !app_assoc. reflexivity.
Qed.

Lemma tool_message_recorded tc :
  tool_message tc [(py "recorded", py "ok")] = recorded_reply tc.
Proof. reflexivity. Qed.

Lemma scalar_text_py (s : string) : scalar_text (py s).
Proof.
  unfold scalar_text, py. apply Forall_forall. intros c Hc.
  apply list_elem_of_In, in_map_iff in Hc as (a & <- & _).
  pose proof (N_ascii_bounded a) as Ha. unfold is_scalar.
  replace (N_of_ascii a <=? 1114111) with true by (symmetry; apply N.leb_le; lia).
  replace (55296 <=? N_of_ascii a) with false by (symmetry; apply N.leb_gt; lia).
  reflexivity.
Qed.

Lemma scalar_text_app a b : scalar_text a -> scalar_text b -> scalar_text (a ++ b).
Proof. intros Ha Hb. apply Forall_app. split; assumption. Qed.

(** A text of scalar values is one every stdout takes. *)
Lemma scalar_writable h s : scalar_text s -> writable h s = true.
Proof.
  intros Hs. unfold writable. apply forallb_forall. intros c Hc.
  apply list_elem_of_In in Hc.
  pose proof (proj1 (Forall_forall _ _) Hs c Hc) as H. cbn beta in H.
  unfold is_scalar in H. apply andb_true_iff in H as [_ H].
  unfold encodable, is_surrogate. rewrite H. reflexivity.
Qed.

(** An error result decodes to the reason it was built from. *)
Lemma error_reply_decodes tc reason m room :
  scalar_text reason ->
  Json.loads m (S room) (content (error_reply tc reason))
  = inr (JObj [(py "error", JStr reason)]).
Proof.
  intros Hreason. rewrite <- tool_message_error. cbn [tool_message content].
  rewrite (loads_dumps m room [(py "error", reason)]).
  - reflexivity.
  - constructor; [| constructor]. split; [apply scalar_text_py | exact Hreason].
  - constructor; [| constructor]. intros H. apply elem_of_nil in H. exact H.
Qed.

(** The values bound to the parameters come from the keywords or from the
    defaults. *)
Lemma param_values_elem f kw v :
  v ∈ param_values f kw ->
  (exists k, (k, v) ∈ kw) \/ (exists p, (p, Some v) ∈ fn_params f).
Proof.
  unfold param_values. induction (fn_params f) as [| [p d] ps IH]; cbn [omap list_omap fst snd].
  - intros H. apply elem_of_nil in H. contradiction.
  - destruct (dict_get p kw) as [x |] eqn:Hget.
    + cbn. intros H. apply elem_of_cons in H as [-> | H].
      * left. exists p. apply dict_get_Some_elem. exact Hget.
      * destruct (IH H) as [Hl | [q Hq]]; [left; exact Hl | right; exists q; right; exact Hq].
    + destruct d as [d |]; cbn.
      * intros H. apply elem_of_cons in H as [-> | H].
        -- right. exists p. left.
        -- destruct (IH H) as [Hl | [q Hq]]; [left; exact Hl | right; exists q; right; exact Hq].
      * intros H. destruct (IH H) as [Hl | [q Hq]]; [left; exact Hl | right; exists q; right; exact Hq].
Qed.

Section RecorderFacts.

Variable E : env.

(** A request that reaches a handler whose body is one [push] of a line
    stdout takes, then the payload: one notification is sent, and the
    request is answered, with the payload when [push] returns, with an
    error result when the POST, or the report of its failure, raises. *)
Lemma handle_tool_call_recorded registry tc args f values line w :
  loads_in E (raw_args tc) = inr args ->
  can_print E (tool_line E tc args) = true ->
  registry !! tc_name tc = Some f ->
  bind_kwargs f args = inr values ->
  fn_body f values = (push E line ;; mret [(py "recorded", py "ok")]) ->
  can_print E line = true ->
  exists m w',
    handle_tool_call E registry tc w = (Ret m, w')
    /\ notified E [line] w w'
    /\ (m = recorded_reply tc
        \/ exists e text, exn_str e = Some text /\ m = error_reply tc (failure_reason tc e text))
    /\ ((configured E = true -> post_settles E (length (posts w)) line = true) ->
        m = recorded_reply tc).
Proof.
  intros Hdec Hline Hreg Hbind Hbody Hprint.
  destruct (push_run E line w Hprint) as (out & w' & Hrun & Hnote & Hout & Hsettles).
  destruct Hout as [-> | (e & text & -> & Hstr)].
  - exists (recorded_reply tc), w'.
    split; [| split; [exact Hnote | split; [left; reflexivity | reflexivity]]].
    rewrite <- tool_message_recorded.
    apply (handle_tool_call_success _ _ _ _ _ _ _ _ _ Hdec Hline Hreg Hbind).
    rewrite Hbody, bind_run, Hrun. reflexivity.
  - exists (error_reply tc (failure_reason tc e text)), w'.
    split; [| split; [exact Hnote | split; [right; eauto |]]].
    + rewrite <- tool_message_error.
      apply (handle_tool_call_failure E _ tc args f values e text w w' Hdec Hline Hreg Hbind);
        [| exact Hstr].
      rewrite Hbody, bind_run, Hrun. reflexivity.
    + intros Hs. specialize (Hsettles Hs). discriminate.
Qed.

(** The line of a handler of the table is one stdout takes when it takes
    the values. *)
Lemma handler_line f values :
  f = record_user_details E \/ f = record_unknown_question E ->
  length values = length (fn_params f) ->
  Forall (fun v => can_print E (py_str E v) = true) values ->
  exists line,
    fn_body f values = (push E line ;; mret [(py "recorded", py "ok")])
    /\ can_print E line = true.
Proof.
  intros Hf Hlen Hvalues.
  destruct (handler_body_run E f values Hf Hlen) as (line & Hbody & Hcan).
  exists line. split; [exact Hbody |].
  rewrite Hcan. apply forallb_forall. intros v Hv. apply list_elem_of_In in Hv.
  exact (proj1 (Forall_forall _ _) Hvalues v Hv).
Qed.

End RecorderFacts.
(* ====================================================================== *)
(** ** The claims *)
(* ====================================================================== *)

(** C1, as stated, fails: followed for any number of rounds against a model
    that always asks for tools, the loop is still running; no round count
    makes it end. *)
Lemma C1_counterexample :
  ~ (exists fuel, fst (chat insatiable fuel (py "Hi") 0%nat host_world) <> Diverge).
Proof.
  intros [fuel Hends]. apply Hends.
  rewrite (chat_seeds insatiable fuel (py "Hi") 0%nat host_history host_world) by reflexivity.
  set (l := fresh (dom (heap host_world))).
  set (ms := seeded insatiable (py "Hi") host_history).
  destruct (fun Hmodel Hanswered =>
              chat_loop_keeps_going insatiable Hmodel Hanswered fuel l ms
                (set_heap (<[l := ms]> (heap host_world)) host_world))
    as (w' & tail & Hrun & _).
  - intros k ms'. eexists. split; reflexivity.
  - intros k ms' c w1 [= <-]. eexists _, _. reflexivity.
  - cbn [set_heap heap]. rewrite lookup_insert_eq. reflexivity.
  - rewrite Hrun. reflexivity.
Qed.

(** C1, amended: the loop has no iteration cap.  When the model requests
    tool calls on every round, (1) no number of rounds makes [chat] return
    a reply: a run ends only by an exception escaping a round, and
    otherwise it is still awaiting the model after as many model calls as
    rounds were followed; (2) when, moreover, the executor answers every
    batch the model sends, the loop goes on for ever: followed for any
    number [fuel] of rounds it is still running, has called the model
    [fuel] times, and has appended [fuel] rounds (an assistant message and
    one tool message per request) to the seeded sequence. *)
Theorem C1_loop_has_no_cap (E : env) (text : pystr) (history : loc) (prior : list message)
    (w : world) :
  heap w !! history = Some prior ->
  (forall k ms, exists c, completions_create E k ms = inr c /\ finish_reason c = py "tool_calls") ->
  (forall fuel, exists out w',
     chat E fuel text history w = (out, w')
     /\ (forall reply, out <> Ret reply)
     /\ (out = Diverge -> length (model_calls w') = (length (model_calls w) + fuel)%nat))
  /\ ((forall k ms c w1,
         completions_create E k ms = inr c ->
         exists results w2,
           handle_tool_calls E (default [] (message_tool_calls c)) w1 = (Ret results, w2)) ->
      forall fuel, exists w' tail,
        chat E fuel text history w = (Diverge, w')
        /\ length (model_calls w') = (length (model_calls w) + fuel)%nat
        /\ heap w' !! fresh (dom (heap w)) = Some (seeded E text prior ++ tail)
        /\ conversation fuel tail).
Proof.
  intros Hprior Hmodel. split.
  - intros fuel. rewrite (chat_seeds E fuel text history prior w Hprior).
    destruct (chat_loop_never_returns E Hmodel fuel (fresh (dom (heap w))) (seeded E text prior)
                (set_heap (<[fresh (dom (heap w)) := seeded E text prior]> (heap w)) w))
      as (out & w' & Hrun & Hnot & Hdiv).
    { cbn [set_heap heap]. rewrite lookup_insert_eq. reflexivity. }
    exists out, w'. split; [exact Hrun |]. split; [exact Hnot | exact Hdiv].
  - intros Hanswered fuel. rewrite (chat_seeds E fuel text history prior w Hprior).
    destruct (chat_loop_keeps_going E Hmodel Hanswered fuel (fresh (dom (heap w)))
                (seeded E text prior)
                (set_heap (<[fresh (dom (heap w)) := seeded E text prior]> (heap w)) w))
      as (w' & tail & Hrun & Hcalls & Hheap & Htail).
    { cbn [set_heap heap]. rewrite lookup_insert_eq. reflexivity. }
    exists w', tail. split; [exact Hrun |]. split; [exact Hcalls |]. split; [| exact Htail].
    rewrite Hheap, lookup_insert_eq. reflexivity.
Qed.

(** C1 amended, at a model that asks for the same tool call on every round,
    followed for three rounds. *)
Lemma C1_witness :
  heap host_world !! 0%nat = Some host_history
  /\ (forall k ms, exists c,
        completions_create persistent k ms = inr c /\ finish_reason c = py "tool_calls")
  /\ (forall k ms c w1,
        completions_create persistent k ms = inr c ->
        exists results w2,
          handle_tool_calls persistent (default [] (message_tool_calls c)) w1 = (Ret results, w2))
  /\ exists w' tail,
      chat persistent 3 (py "Hi") 0%nat host_world = (Diverge, w')
      /\ length (model_calls w') = (length (model_calls host_world) + 3)%nat
      /\ heap w' !! fresh (dom (heap host_world))
         = Some (seeded persistent (py "Hi") host_history ++ tail)
      /\ conversation 3 tail.
Proof.
  assert (Hmodel : forall k ms, exists c,
            completions_create persistent k ms = inr c /\ finish_reason c = py "tool_calls").
  { intros k ms. eexists. split; reflexivity. }
  assert (Hanswered : forall k ms c w1,
            completions_create persistent k ms = inr c ->
            exists results w2,
              handle_tool_calls persistent (default [] (message_tool_calls c)) w1
              = (Ret results, w2)).
  { intros k ms c w1 [= <-]. cbn [message_tool_calls from_option id].
    unfold handle_tool_calls, handle_tool_calls_with.
    apply handle_tool_calls_from_answered. constructor; [| constructor].
    exists (JObj [(py "question", JStr (py "why?"))]). split; vm_compute; reflexivity. }
  split; [reflexivity |]. split; [exact Hmodel |]. split; [exact Hanswered |].
  destruct (C1_loop_has_no_cap persistent (py "Hi") 0%nat host_history host_world)
    as [_ Hgo]; [reflexivity | exact Hmodel |].
  exact (Hgo Hanswered 3%nat).
Defined.

(** C2: the code breaks the claim.  A payload that is no JSON (here the
    text of one opening brace) is not turned into an error result: the
    decoding sits outside the [try], so the [JSONDecodeError] leaves the
    executor without any tool message, and leaves [chat] when the model
    sends such a request. *)
Theorem C2_decode_failure_escapes (E : env) (w : world) :
  loads_in E (raw_args truncated_call) = inl Invalid
  /\ handle_tool_calls E [truncated_call] w = (Raise (JSONDecodeError (py "{")), w)
  /\ fst (chat (requesting [truncated_call]) 5 (py "Hi") 0%nat host_world)
     = Raise (JSONDecodeError (py "{")).
Proof.
  split; [vm_compute; reflexivity |]. split.
  - unfold handle_tool_calls, handle_tool_calls_with.
    apply handle_tool_calls_from_raise.
    apply (handle_tool_call_decode_error E (TOOL_DISPATCH E) truncated_call Invalid w).
    vm_compute. reflexivity.
  - vm_compute. reflexivity.
Qed.

(** C3: the code breaks the claim.  For two requests of which the second
    carries a payload that is no JSON, the executor returns no result at
    all, neither for the second nor for the first, whose handler has
    already sent its notification. *)
Theorem C3_no_result_after_decode_failure (E : env) (w : world) :
  exists w',
    handle_tool_calls E [question_call; truncated_call] w = (Raise (JSONDecodeError (py "{")), w')
    /\ pushes w' = pushes w ++ [py "Recording 'why?' asked that I couldn't answer"].
Proof.
  destruct (handle_tool_call_recorded E (TOOL_DISPATCH E) question_call
              (JObj [(py "question", JStr (py "why?"))]) (record_unknown_question E)
              [JStr (py "why?")] (question_line (py "why?")) w)
    as (m & w' & Hrun & (Hpush & _) & _).
  - vm_compute. reflexivity.
  - rewrite can_print_tool_line. cbn [tc_name question_call andb]. rewrite can_print_py. reflexivity.
  - apply TOOL_DISPATCH_record_unknown_question.
  - vm_compute. reflexivity.
  - reflexivity.
  - rewrite can_print_question_line. apply can_print_py.
  - exists w'. split; [| exact Hpush].
    unfold handle_tool_calls, handle_tool_calls_with.
    rewrite (handle_tool_calls_from_cons _ _ [] question_call [truncated_call] m w w' Hrun).
    apply handle_tool_calls_from_raise.
    apply (handle_tool_call_decode_error E (TOOL_DISPATCH E) truncated_call Invalid w').
    vm_compute. reflexivity.
Qed.

(** C4, as stated, fails twice over.  An unregistered tool name with a
    payload that is no JSON yields no error result but a
    [JSONDecodeError], the payload being decoded before the name is looked
    up; and an unregistered name that a strict UTF-8 stdout cannot encode
    (here [lookup] followed by a lone surrogate), with a payload that
    decodes, yields a [UnicodeEncodeError] from the [print] of the request,
    which stands outside the [try] as well. *)
Lemma C4_counterexample :
  (TOOL_DISPATCH forthcoming !! tc_name truncated_unknown_call = None
   /\ handle_tool_calls forthcoming [truncated_unknown_call] host_world
      = (Raise (JSONDecodeError (py "{")), host_world))
  /\ (TOOL_DISPATCH forthcoming !! tc_name unprintable_call = None
      /\ loads_in forthcoming (raw_args unprintable_call) = inr (JObj [])
      /\ handle_tool_calls forthcoming [unprintable_call] host_world
         = (Raise (OtherException (py "UnicodeEncodeError")
                     (py "'utf-8' codec can't encode character '\ud800' in position 13: surrogates not allowed")),
            host_world)).
Proof. repeat split; vm_compute; reflexivity. Qed.

(** C4, amended: for every request whose tool name is not registered,
    whose payload decodes and whose log line stdout can encode, (1) the
    executor produces the error result [{"error": "unknown tool <name>"}]
    under the identifier of the request and raises nothing, leaving the
    world as it was; (2) that text, for a name of Unicode scalar values,
    decodes to the one member [error] with the reason as its value;
    (3) the executor goes on with the rest of the batch; (4) in a round
    whose other requests are answered, the assistant message and the tool
    messages of the batch, that result among them in its place, are
    appended and the loop proceeds to the next model call. *)
Theorem C4_unknown_tool (E : env) (tc : tool_call) (args : json) :
  loads_in E (raw_args tc) = inr args ->
  can_print E (tool_line E tc args) = true ->
  TOOL_DISPATCH E !! tc_name tc = None ->
  let reply :=
    Message (py "tool")
      (quoted "{'error': " ++ encode_str (py "unknown tool " ++ tc_name tc) ++ py "}")
      None (Some (tc_id tc)) in
  (forall w, handle_tool_call E (TOOL_DISPATCH E) tc w = (Ret reply, w))
  /\ (scalar_text (tc_name tc) ->
      forall max_digits room,
        Json.loads max_digits (S room) (content reply)
        = inr (JObj [(py "error", JStr (py "unknown tool " ++ tc_name tc))]))
  /\ (forall results rest w,
        handle_tool_calls_from E (TOOL_DISPATCH E) results (tc :: rest) w =
        handle_tool_calls_from E (TOOL_DISPATCH E) (results ++ [reply]) rest w)
  /\ (forall fuel messages ms c before after w replies_before w1 replies_after w2,
        heap w !! messages = Some ms ->
        completions_create E (length (model_calls w)) ms = inr c ->
        finish_reason c = py "tool_calls" ->
        message_tool_calls c = Some (before ++ tc :: after) ->
        handle_tool_calls E before (log_model_call ms w) = (Ret replies_before, w1) ->
        handle_tool_calls E after w1 = (Ret replies_after, w2) ->
        chat_loop E (S fuel) messages w =
        chat_loop E fuel messages
          (set_heap
             (<[messages := ms ++ assistant_message c
                               :: replies_before ++ reply :: replies_after]> (heap w2))
             w2)).
Proof.
  intros Hdec Hline Hreg reply.
  assert (Hone : forall w, handle_tool_call E (TOOL_DISPATCH E) tc w = (Ret reply, w)).
  { intros w. rewrite (handle_tool_call_unknown E _ _ _ w Hdec Hline Hreg).
    rewrite tool_message_error. reflexivity. }
  split; [exact Hone |]. split; [| split].
  - intros Hname max_digits room.
    apply (error_reply_decodes tc (py "unknown tool " ++ tc_name tc) max_digits room).
    apply scalar_text_app; [apply scalar_text_py | exact Hname].
  - intros results rest w. apply handle_tool_calls_from_cons. apply Hone.
  - intros fuel messages ms c before after w replies_before w1 replies_after w2
      Hms Hmodel Hfin Hcalls Hbefore Hafter.
    rewrite (chat_loop_round E fuel messages ms w Hms), Hmodel.
    destruct (decide (finish_reason c = py "tool_calls")) as [_ | Hne]; [| contradiction].
    rewrite Hcalls. cbn [from_option id].
    unfold handle_tool_calls, handle_tool_calls_with in *.
    rewrite (handle_tool_calls_from_app _ _ _ _ _ _ _ _ Hbefore).
    rewrite (handle_tool_calls_from_cons _ _ _ _ _ _ _ _ (Hone w1)).
    rewrite handle_tool_calls_from_shift, Hafter.
    rewrite <- app_assoc. reflexivity.
Qed.

(** C4 amended, at a request for the unregistered [lookup_weather]. *)
Lemma C4_witness :
  loads_in forthcoming (raw_args unknown_call) = inr (JObj [(py "city", JStr (py "Quito"))])
  /\ can_print forthcoming
       (tool_line forthcoming unknown_call (JObj [(py "city", JStr (py "Quito"))])) = true
  /\ TOOL_DISPATCH forthcoming !! tc_name unknown_call = None
  /\ handle_tool_call forthcoming (TOOL_DISPATCH forthcoming) unknown_call host_world
     = (Ret (Message (py "tool") (quoted "{'error': 'unknown tool lookup_weather'}") None
               (Some (py "call_1"))),
        host_world).
Proof.
  split; [vm_compute; reflexivity |]. split; [vm_compute; reflexivity |].
  split; [vm_compute; reflexivity |].
  apply (C4_unknown_tool forthcoming unknown_call (JObj [(py "city", JStr (py "Quito"))])).
  - vm_compute. reflexivity.
  - vm_compute. reflexivity.
  - vm_compute. reflexivity.
Defined.

(** C5, as stated, fails twice over.  (1) The claim sends every failure
    of the body of a handler to the result [tool <name> failed], but the
    executor tells the two kinds of failure apart by the class of the
    exception alone: the arguments of the request [clumsy_call] fit the
    parameters of its handler, the body of the handler raises a
    [TypeError] of its own, and the executor answers with the
    bad-arguments result.  (2) A failure can abort the batch: for a request
    to the registered [record_user_details] whose payload is a JSON string
    holding a lone surrogate, the arguments do not fit (they are no
    mapping), but the [print] of the request, which stands outside the
    [try], raises a [UnicodeEncodeError] on a strict UTF-8 stdout before
    the handler is called. *)
Lemma C5_counterexample :
  (flaky_registry !! tc_name clumsy_call = Some clumsy
   /\ loads_in forthcoming (raw_args clumsy_call) = inr (JObj [(py "path", JStr (py "/tmp/x"))])
   /\ bind_kwargs clumsy (JObj [(py "path", JStr (py "/tmp/x"))]) = inr [JStr (py "/tmp/x")]
   /\ fn_body clumsy [JStr (py "/tmp/x")] host_world
      = (Raise (TypeError (py "list indices must be integers or slices, not str")), host_world)
   /\ handle_tool_calls_with forthcoming flaky_registry [clumsy_call] host_world
      = (Ret [Message (py "tool")
                (quoted "{'error': 'bad arguments for clumsy: list indices must be integers or slices, not str'}")
                None (Some (py "call_6"))],
         host_world))
  /\ (TOOL_DISPATCH forthcoming !! tc_name unprintable_payload_call
      = Some (record_user_details forthcoming)
      /\ loads_in forthcoming (raw_args unprintable_payload_call) = inr (JStr [55296])
      /\ bind_kwargs (record_user_details forthcoming) (JStr [55296])
         = inl (NotAMapping (JStr [55296]))
      /\ handle_tool_calls forthcoming [unprintable_payload_call; question_call] host_world
         = (Raise (OtherException (py "UnicodeEncodeError")
                     (py "'utf-8' codec can't encode character '\ud800' in position 27: surrogates not allowed")),
            host_world)).
Proof. repeat split; vm_compute; reflexivity. Qed.

(** C5, amended: for a request to a registered tool whose payload decodes
    and whose log line stdout can encode, (1) when the decoded arguments
    do not fit the declared parameters (they are no mapping, name an
    undeclared parameter, or leave a required one out) the executor
    answers with the error result
    [{"error": "bad arguments for <name>: <diagnostic>"}], the diagnostic
    being the text of the [TypeError] of the call; (2) when the arguments
    fit and the body of the handler raises an exception, it answers with
    [{"error": "tool <name> failed: <message>"}] unless the exception is a
    [TypeError], which is answered with the bad-arguments result as well;
    in both cases the loop goes on with the rest of the batch.  This holds
    over any table of handlers; (3) over [TOOL_DISPATCH] every such request
    is answered, whatever its handler does. *)
Theorem C5_bad_arguments_and_handler_failure (E : env) (registry : gmap pystr pyfunc)
    (tc : tool_call) (f : pyfunc) (args : json) :
  registry !! tc_name tc = Some f ->
  loads_in E (raw_args tc) = inr args ->
  can_print E (tool_line E tc args) = true ->
  (shape_mismatch f args ->
   exists err,
     bind_kwargs f args = inl err
     /\ forall results rest w,
         handle_tool_calls_from E registry results (tc :: rest) w =
         handle_tool_calls_from E registry
           (results ++ [Message (py "tool")
                          (quoted "{'error': "
                           ++ encode_str (py "bad arguments for " ++ tc_name tc ++ py ": "
                                          ++ bind_error_message f err)
                           ++ py "}")
                          None (Some (tc_id tc))])
           rest w)
  /\ (forall values e text w w',
        bind_kwargs f args = inr values ->
        fn_body f values w = (Raise e, w') ->
        exn_str e = Some text ->
        forall results rest,
          handle_tool_calls_from E registry results (tc :: rest) w =
          handle_tool_calls_from E registry
            (results ++ [Message (py "tool")
                           (quoted "{'error': "
                            ++ encode_str
                                 (if is_TypeError e
                                  then py "bad arguments for " ++ tc_name tc ++ py ": " ++ text
                                  else py "tool " ++ tc_name tc ++ py " failed: " ++ text)
                            ++ py "}")
                           None (Some (tc_id tc))])
            rest w')
  /\ (registry = TOOL_DISPATCH E ->
      forall w, exists m w', handle_tool_call E registry tc w = (Ret m, w')).
Proof.
  intros Hreg Hdec Hline. split; [| split].
  - intros Hshape. apply bind_kwargs_fails_iff in Hshape as [err Herr].
    exists err. split; [exact Herr |]. intros results rest w.
    apply handle_tool_calls_from_cons.
    rewrite (handle_tool_call_bad_arguments E _ _ _ _ _ w Hdec Hline Hreg Herr).
    rewrite tool_message_error. reflexivity.
  - intros values e text w w' Hbind Hbody Hstr results rest.
    apply handle_tool_calls_from_cons.
    rewrite (handle_tool_call_failure E _ tc args f values e text w w' Hdec Hline Hreg Hbind
               Hbody Hstr).
    rewrite tool_message_error. reflexivity.
  - intros -> w. exact (handle_tool_call_answered E tc args w Hdec Hline).
Qed.

(** C5 amended, at three requests: [record_user_details] without its
    email, a handler whose body fails with an [OSError], and one whose
    body fails with a [TypeError]. *)
Lemma C5_witness :
  (TOOL_DISPATCH forthcoming !! tc_name nameless_call = Some (record_user_details forthcoming)
   /\ loads_in forthcoming (raw_args nameless_call) = inr (JObj [(py "name", JStr (py "Ana"))])
   /\ can_print forthcoming
        (tool_line forthcoming nameless_call (JObj [(py "name", JStr (py "Ana"))])) = true
   /\ shape_mismatch (record_user_details forthcoming) (JObj [(py "name", JStr (py "Ana"))])
   /\ handle_tool_calls forthcoming [nameless_call] host_world
      = (Ret [Message (py "tool")
                (quoted "{'error': 'bad arguments for record_user_details: record_user_details() missing 1 required positional argument: "
                 ++ py "'email'" ++ quoted "'}")
                None (Some (py "call_1"))],
         host_world))
  /\ (flaky_registry !! tc_name (flaky_call "{'path': '/tmp/x'}") = Some flaky
      /\ loads_in forthcoming (raw_args (flaky_call "{'path': '/tmp/x'}"))
         = inr (JObj [(py "path", JStr (py "/tmp/x"))])
      /\ handle_tool_calls_with forthcoming flaky_registry [flaky_call "{'path': '/tmp/x'}"]
           host_world
         = (Ret [Message (py "tool") (quoted "{'error': 'tool flaky failed: disk full'}") None
                   (Some (py "call_1"))],
            host_world))
  /\ (handle_tool_calls_with forthcoming flaky_registry [clumsy_call] host_world
      = (Ret [Message (py "tool")
                (quoted "{'error': 'bad arguments for clumsy: list indices must be integers or slices, not str'}")
                None (Some (py "call_6"))],
         host_world)).
Proof.
  assert (Hshape : shape_mismatch (record_user_details forthcoming)
                     (JObj [(py "name", JStr (py "Ana"))])).
  { right. exists (py "email"). split; [left |].
    intros Hin. vm_compute in Hin. apply list_elem_of_In in Hin.
    destruct Hin as [Hin | []]. discriminate Hin. }
  split; [| split].
  - split; [apply TOOL_DISPATCH_record_user_details |]. split; [vm_compute; reflexivity |].
    split; [vm_compute; reflexivity |]. split; [exact Hshape |].
    destruct (C5_bad_arguments_and_handler_failure forthcoming (TOOL_DISPATCH forthcoming)
                nameless_call (record_user_details forthcoming)
                (JObj [(py "name", JStr (py "Ana"))]))
      as [Hbad _];
      [apply TOOL_DISPATCH_record_user_details | vm_compute; reflexivity
      | vm_compute; reflexivity |].
    destruct (Hbad Hshape) as (err & Herr & Hrun).
    vm_compute in Herr. injection Herr as <-.
    unfold handle_tool_calls, handle_tool_calls_with. rewrite Hrun. vm_compute. reflexivity.
  - split; [vm_compute; reflexivity |]. split; [vm_compute; reflexivity |].
    destruct (C5_bad_arguments_and_handler_failure forthcoming flaky_registry
                (flaky_call "{'path': '/tmp/x'}") flaky (JObj [(py "path", JStr (py "/tmp/x"))]))
      as (_ & Hfail & _);
      [vm_compute; reflexivity | vm_compute; reflexivity | vm_compute; reflexivity |].
    unfold handle_tool_calls_with.
    rewrite (Hfail [JStr (py "/tmp/x")] (OtherException (py "OSError") (py "disk full"))
               (py "disk full") host_world host_world);
      [vm_compute; reflexivity | vm_compute; reflexivity | reflexivity | reflexivity].
  - destruct (C5_bad_arguments_and_handler_failure forthcoming flaky_registry
                clumsy_call clumsy (JObj [(py "path", JStr (py "/tmp/x"))]))
      as (_ & Hfail & _);
      [vm_compute; reflexivity | vm_compute; reflexivity | vm_compute; reflexivity |].
    unfold handle_tool_calls_with.
    rewrite (Hfail [JStr (py "/tmp/x")]
               (TypeError (py "list indices must be integers or slices, not str"))
               (py "list indices must be integers or slices, not str") host_world host_world);
      [vm_compute; reflexivity | vm_compute; reflexivity | reflexivity | reflexivity].
Defined.




(** C7: when the first response of the model does not ask for tool calls,
    [chat] makes exactly one model call, on the seeded sequence, appends
    nothing to it, sends no notification, and returns the text of the
    response unchanged, the empty string when the response has no text. *)
Theorem C7_ordinary_answer (E : env) (fuel : nat) (text : pystr) (history : loc)
    (prior : list message) (c : choice) (w : world) :
  heap w !! history = Some prior ->
  completions_create E (length (model_calls w)) (seeded E text prior) = inr c ->
  finish_reason c <> py "tool_calls" ->
  chat E (S fuel) text history w
    = (Ret (or_empty (message_content c)),
       World (<[fresh (dom (heap w)) := seeded E text prior]> (heap w))
             (pushes w) (posts w) (model_calls w ++ [seeded E text prior]))
  /\ (forall reply, message_content c = Some reply -> or_empty (message_content c) = reply)
  /\ (message_content c = None -> or_empty (message_content c) = []).
Proof.
  intros Hprior Hmodel Hfin. split.
  - rewrite (chat_seeds E (S fuel) text history prior w Hprior).
    erewrite chat_loop_round.
    2: { cbn [set_heap heap]. rewrite lookup_insert_eq. reflexivity. }
    cbn [set_heap model_calls]. rewrite Hmodel.
    destruct (decide (finish_reason c = py "tool_calls")) as [Heq | _]; [contradiction |].
    reflexivity.
  - split; [intros reply -> | intros ->]; reflexivity.
Qed.

(** C7 at a model that answers at once. *)
Lemma C7_witness :
  heap host_world !! 0%nat = Some host_history
  /\ completions_create forthcoming (length (model_calls host_world))
       (seeded forthcoming (py "Who are you?") host_history)
     = inr (Choice (py "stop") (Some (py "I am Carlos.")) None)
  /\ py "stop" <> py "tool_calls"
  /\ fst (chat forthcoming 1 (py "Who are you?") 0%nat host_world) = Ret (py "I am Carlos.")
  /\ length (model_calls (snd (chat forthcoming 1 (py "Who are you?") 0%nat host_world))) = 1%nat.
Proof.
  assert (Hne : py "stop" <> py "tool_calls") by (intros H; vm_compute in H; discriminate H).
  split; [reflexivity |]. split; [reflexivity |]. split; [exact Hne |].
  destruct (C7_ordinary_answer forthcoming 0 (py "Who are you?") 0%nat host_history
              (Choice (py "stop") (Some (py "I am Carlos.")) None) host_world)
    as [Hrun _]; [reflexivity | reflexivity | exact Hne |].
  rewrite Hrun. split; reflexivity.
Defined.

(** C8: [build_system_prompt] is a total function of its three arguments
    (it lives outside the effect monad): its value is a fixed instruction
    text depending on the persona name only, then the two grounding texts,
    verbatim, each under its heading, then a fixed closing sentence; with
    empty grounding texts the two sections are blank. *)
Theorem C8_prompt_builder (name : pystr) :
  exists instructions closing,
    instructions <> [] /\ closing <> []
    /\ (forall summary linkedin_text,
          build_system_prompt name summary linkedin_text =
          instructions ++ nl ++ nl ++ py "## Summary:" ++ nl ++ summary
          ++ nl ++ nl ++ py "## LinkedIn Profile:" ++ nl ++ linkedin_text
          ++ nl ++ nl ++ closing)
    /\ build_system_prompt name [] [] =
       instructions ++ nl ++ nl ++ py "## Summary:" ++ nl
       ++ nl ++ nl ++ py "## LinkedIn Profile:" ++ nl
       ++ nl ++ nl ++ closing.
Proof.
  exists (py "You are acting as " ++ name ++ py ". You are answering questions on " ++ name ++ py "'s website, "
  ++ py "particularly questions related to " ++ name ++ py "'s career, background, skills and experience. "
  ++ py "Your responsibility is to represent " ++ name ++ py " for interactions on the website as faithfully as possible. "
  ++ py "You are given a summary of " ++ name ++ py "'s background and LinkedIn profile which you can use to answer questions. "
  ++ py "Be professional and engaging, as if talking to a potential client or future employer who came across the website. "
  ++ py "If you don't know the answer to any question, use your record_unknown_question tool to record the question that you couldn't answer, "
  ++ py "even if it's about something trivial or unrelated to career. "
  ++ py "If the user is engaging in discussion, try to steer them towards getting in touch via email; ask for their email and name "
  ++ py "and record it using your record_user_details tool. "
  ++ py "Before calling the record_user_details tool, ask for the user's email address and name together."),
  (py "With this context, please chat with the user, always staying in character as " ++ name ++ py ".").
  split; [discriminate |]. split; [discriminate |].
  split; [intros summary linkedin_text |];
    unfold build_system_prompt; repeat rewrite <- app_assoc; reflexivity.
Qed.

(** C9: in every run of [chat], whatever the model and the tools do and
    however long it is followed, (1) every message sequence handed to the
    model starts with a system message whose content is the prompt built
    from the grounding texts read during this call, followed by the prior
    history and the new user message, the first call receiving exactly
    that seeded sequence; (2) the history list of the host is left as it
    was, and so is every list object other than the one [chat] created:
    the core only appends to its own sequence. *)
Theorem C9_seeding_and_history (E : env) (fuel : nat) (text : pystr) (history : loc)
    (prior : list message) (w : world) :
  heap w !! history = Some prior ->
  exists out w' calls,
    chat E fuel text history w = (out, w')
    /\ heap w' !! history = Some prior
    /\ (forall l, l <> fresh (dom (heap w)) -> heap w' !! l = heap w !! l)
    /\ model_calls w' = model_calls w ++ calls
    /\ Forall (fun call =>
                 exists appended,
                   call = Message (py "system")
                            (build_system_prompt NAME (read_text_file E SUMMARY_TXT)
                               (read_pdf_text E PROFILE_PDF)) None None
                          :: prior ++ Message (py "user") text None None :: appended) calls
    /\ (fuel <> O -> head calls = Some (seeded E text prior)).
Proof.
  intros Hprior. rewrite (chat_seeds E fuel text history prior w Hprior).
  set (l := fresh (dom (heap w))).
  assert (Hne : history <> l).
  { intros Heq. apply (is_fresh (dom (heap w))). fold l. rewrite <- Heq.
    apply elem_of_dom. exists prior. exact Hprior. }
  destruct (chat_loop_grows E fuel l (seeded E text prior)
              (set_heap (<[l := seeded E text prior]> (heap w)) w))
    as (out & w' & ms' & calls & Hrun & Hheap & _ & Hcalls & Hall & Hhead).
  { cbn [set_heap heap]. rewrite lookup_insert_eq. reflexivity. }
  cbn [set_heap heap model_calls] in Hheap, Hcalls.
  rewrite insert_insert_eq in Hheap.
  exists out, w', calls. split; [exact Hrun |].
  split; [rewrite Hheap, lookup_insert_ne by congruence; exact Hprior |].
  split; [intros l' Hl'; rewrite Hheap, lookup_insert_ne by congruence; reflexivity |].
  split; [exact Hcalls |]. split; [| exact Hhead].
  eapply Forall_impl; [exact Hall |].
  intros call [appended ->]. exists appended. unfold seeded.
  cbn [app]. rewrite <- app_assoc. reflexivity.
Qed.

(** C9 at a turn with one tool round. *)
Lemma C9_witness :
  heap host_world !! 0%nat = Some host_history
  /\ exists out w' calls,
      chat (requesting [question_call]) 4 (py "Why?") 0%nat host_world = (out, w')
      /\ heap w' !! 0%nat = Some host_history
      /\ (forall l, l <> fresh (dom (heap host_world)) -> heap w' !! l = heap host_world !! l)
      /\ model_calls w' = model_calls host_world ++ calls
      /\ Forall (fun call =>
                   exists appended,
                     call = Message (py "system")
                              (build_system_prompt NAME
                                 (read_text_file (requesting [question_call]) SUMMARY_TXT)
                                 (read_pdf_text (requesting [question_call]) PROFILE_PDF))
                              None None
                            :: host_history ++ Message (py "user") (py "Why?") None None
                            :: appended) calls
      /\ (4%nat <> O ->
          head calls = Some (seeded (requesting [question_call]) (py "Why?") host_history)).
Proof.
  split; [reflexivity |].
  apply (C9_seeding_and_history (requesting [question_call]) 4 (py "Why?") 0%nat host_history
           host_world).
  reflexivity.
Defined.

(** C10: when the response signals tool calls but carries no tool-call
    list, the round does not fault: the executor maps the empty list of
    requests to the empty list of results, exactly one assistant message
    (with the text of the response, empty if it has none, and an empty
    tool-call list) and no tool message are appended, and the loop goes on
    to the next model call. *)
Theorem C10_absent_tool_call_list (E : env) (fuel : nat) (messages : loc) (ms : list message)
    (c : choice) (w : world) :
  heap w !! messages = Some ms ->
  completions_create E (length (model_calls w)) ms = inr c ->
  finish_reason c = py "tool_calls" ->
  message_tool_calls c = None ->
  (forall w0, handle_tool_calls E [] w0 = (Ret [], w0))
  /\ chat_loop E (S fuel) messages w =
     chat_loop E fuel messages
       (World (<[messages := ms ++ [Message (py "assistant") (or_empty (message_content c))
                                      (Some []) None]]> (heap w))
              (pushes w) (posts w) (model_calls w ++ [ms])).
Proof.
  intros Hms Hmodel Hfin Hnone. split; [reflexivity |].
  rewrite (chat_loop_round E fuel messages ms w Hms), Hmodel.
  destruct (decide (finish_reason c = py "tool_calls")) as [_ | Hne]; [| contradiction].
  unfold assistant_message. rewrite Hnone. reflexivity.
Qed.

(** C10 at one round of the model that sends no tool-call list. *)
Lemma C10_witness :
  heap host_world !! 0%nat = Some host_history
  /\ completions_create insatiable (length (model_calls host_world)) host_history
     = inr (Choice (py "tool_calls") None None)
  /\ chat_loop insatiable 1 0%nat host_world
     = (Diverge,
        World (<[0%nat := host_history ++ [Message (py "assistant") [] (Some []) None]]>
                 (heap host_world)) [] [] [host_history]).
Proof.
  split; [reflexivity |]. split; [reflexivity |].
  destruct (C10_absent_tool_call_list insatiable 0 0%nat host_history
              (Choice (py "tool_calls") None None) host_world) as [_ Hstep];
    [reflexivity | reflexivity | reflexivity | reflexivity |].
  rewrite Hstep. reflexivity.
Defined.


(* ====================================================================== *)
(** ** Complete turns *)
(* ====================================================================== *)

(** A tool round followed by an ordinary answer: two model calls, the text
    of the second response, one notification, and a message sequence that
    ends with the assistant message and the tool message of the round. *)
Example tool_round_then_answer :
  let run := chat (requesting [question_call]) 2 (py "Why?") 0%nat host_world in
  fst run = Ret (py "Done.")
  /\ length (model_calls (snd run)) = 2%nat
  /\ pushes (snd run) = [py "Recording 'why?' asked that I couldn't answer"]
  /\ heap (snd run) !! 1%nat
     = Some (seeded (requesting [question_call]) (py "Why?") host_history
             ++ [Message (py "assistant") [] (Some [question_call]) None;
                 Message (py "tool") (quoted "{'recorded': 'ok'}") None (Some (py "call_1"))]).
Proof. vm_compute. repeat split. Qed.

(** The contact recorder reached through the executor, with credentials
    set and a POST that fails with a [RequestException]: the failure is
    swallowed by [push]. *)
Example contact_recorded_despite_failed_post :
  let tc := ToolCall (py "call_7") (py "record_user_details")
                     (Some (quoted "{'email': 'ana@example.org'}")) in
  let run := handle_tool_calls pushover [tc] host_world in
  fst run = Ret [Message (py "tool") (quoted "{'recorded': 'ok'}") None (Some (py "call_7"))]
  /\ pushes (snd run)
     = [py "Recording interest from Name not provided with email ana@example.org and notes not provided"]
  /\ length (posts (snd run)) = 1%nat.
Proof. vm_compute. repeat split. Qed.

(** The same with a POST that raises outside the [RequestException]
    hierarchy: [push] lets it through, and the executor turns it into an
    error result, after the notification went out. *)
Example contact_lost_to_broken_pipe :
  let run := handle_tool_calls broken_pipe [question_call] host_world in
  fst run
  = Ret [Message (py "tool")
           (quoted "{'error': 'tool record_unknown_question failed: [Errno 32] Broken pipe'}")
           None (Some (py "call_1"))]
  /\ pushes (snd run) = [py "Recording 'why?' asked that I couldn't answer"]
  /\ length (posts (snd run)) = 1%nat.
Proof. vm_compute. repeat split. Qed.

(** Values that are no strings are formatted as Python writes them. *)
Example contact_with_other_values :
  pushes (snd (handle_tool_calls forthcoming [lax_call] host_world))
  = [py "Recording interest from 1.5 with email 42 and notes None"].
Proof. vm_compute. reflexivity. Qed.

(** A lone surrogate in an email ends in an error result on a strict
    stdout, and is recorded on one that escapes it. *)
Example contact_with_surrogate :
  fst (handle_tool_calls forthcoming [unprintable_email_call] host_world)
  = Ret [error_reply unprintable_email_call
           (py "tool record_user_details failed: 'utf-8' codec can't encode character '\ud800' in position 60: surrogates not allowed")]
  /\ fst (handle_tool_calls broken_pipe [unprintable_question_call] host_world)
     = Ret [error_reply unprintable_question_call
              (py "tool record_unknown_question failed: [Errno 32] Broken pipe")]
  /\ pushes (snd (handle_tool_calls broken_pipe [unprintable_question_call] host_world))
     = [py "Recording '" ++ [56448] ++ py "' asked that I couldn't answer"].
Proof. vm_compute. repeat split. Qed.

(* ====================================================================== *)
(** ** Further properties of the program *)
(* ====================================================================== *)



Lemma bind_kwargs_values f kw values :
  bind_kwargs f (JObj kw) = inr values -> values = param_values f kw.
Proof.
  cbn [bind_kwargs]. destruct (List.find _ kw) as [[k v] |]; [discriminate |].
  destruct (missing_params f kw); [| discriminate]. intros [= <-]. reflexivity.
Qed.

(** X1, [push]: when stdout cannot encode the announcement, [push] raises
    the [UnicodeEncodeError] of its first [print] and nothing is announced,
    posted or changed.  Otherwise exactly one notification is announced,
    and posted exactly when both credentials are set (and not empty), and
    nothing else changes; [push] then returns [None] without credentials,
    and with them when the POST returns; a [RequestException] of the POST
    is caught and reported on stdout, the outcome being that of this second
    [print]; any other exception of the POST leaves [push]. *)
Theorem push_outcomes (E : env) (message : pystr) (w : world) :
  (can_print E message = false ->
   exists text,
     push E message w = (Raise (OtherException (py "UnicodeEncodeError") text), w))
  /\ (can_print E message = true ->
      exists out w',
        push E message w = (out, w')
        /\ notified E [message] w w'
        /\ (configured E = false -> out = Ret tt)
        /\ (configured E = true ->
            out = match requests_post E (length (posts w)) message with
                  | Delivered => Ret tt
                  | RequestFailed reason =>
                      fst (print E (py "[Push][WARN] Failed to send pushover: " ++ reason) w)
                  | PostRaises cls reason => Raise (raised cls reason)
                  end))
  /\ (forall text w0,
        print E text w0
        = (if can_print E text then Ret tt
           else match encode_failure (stdout_errors E) 0 text with
                | Some failure =>
                    Raise (OtherException (py "UnicodeEncodeError") (encode_error_text failure))
                | None => Ret tt
                end, w0)).
Proof.
  split; [apply push_unprintable |]. split.
  - intros Hprint. destruct (configured E) eqn:Hconf.
    + rewrite (push_configured E message w Hprint Hconf). eexists _, _.
      split; [reflexivity |]. split; [unfold notified; rewrite Hconf; auto |].
      split; [discriminate | reflexivity].
    + rewrite (push_unconfigured E message w Hprint Hconf). eexists _, _.
      split; [reflexivity |]. split; [unfold notified; rewrite Hconf, app_nil_r; auto |].
      split; [reflexivity | discriminate].
  - intros text w0. destruct (can_print E text) eqn:Hprint.
    + apply print_writable. exact Hprint.
    + unfold print. destruct (encode_failure (stdout_errors E) 0 text); reflexivity.
Qed.

(** X1 at a POST that raises a [BrokenPipeError]: the notification is
    announced and posted, and the exception leaves [push]. *)
Lemma push_outcomes_witness :
  can_print broken_pipe (py "hello") = true
  /\ configured broken_pipe = true
  /\ exists w',
      push broken_pipe (py "hello") host_world
      = (Raise (OtherException (py "BrokenPipeError") (py "[Errno 32] Broken pipe")), w')
      /\ notified broken_pipe [py "hello"] host_world w'.
Proof.
  split; [vm_compute; reflexivity |]. split; [reflexivity |].
  destruct (push_outcomes broken_pipe (py "hello") host_world) as (_ & Hsent & _).
  destruct Hsent as (out & w' & Hrun & Hnote & _ & Hout); [vm_compute; reflexivity |].
  exists w'. split; [| exact Hnote]. rewrite Hrun, (Hout eq_refl). reflexivity.
Defined.





(** X4, [TOOLS] against [TOOL_DISPATCH]: every tool advertised to the model
    is registered under its name, by a handler of that name, and the
    arguments whose keys the schema allows (every required key, no key
    beyond the properties) are exactly those that bind to the parameters
    of the handler. *)
Theorem advertised_tools_bind (E : env) (kind : pystr) (s : function_schema) (args : json) :
  (kind, s) ∈ TOOLS ->
  exists f,
    TOOL_DISPATCH E !! schema_name s = Some f
    /\ fn_name f = schema_name s
    /\ (allowed_keys s args <-> exists values, bind_kwargs f args = inr values).
Proof.
  intros Hin. destruct (TOOLS_registered E kind s Hin) as (_ & f & Hreg & Hname & Hprops & Hreq & Hadd).
  exists f. split; [exact Hreg |]. split; [exact Hname |].
  exact (allowed_keys_bind s f args Hprops Hreq Hadd).
Qed.

Lemma advertised_tools_bind_witness :
  (py "function", RECORD_USER_DETAILS_SCHEMA) ∈ TOOLS
  /\ exists f,
      TOOL_DISPATCH forthcoming !! py "record_user_details" = Some f
      /\ fn_name f = py "record_user_details"
      /\ (allowed_keys RECORD_USER_DETAILS_SCHEMA (JObj [(py "email", JInt 7)])
          <-> exists values, bind_kwargs f (JObj [(py "email", JInt 7)]) = inr values).
Proof.
  assert (Hin : (py "function", RECORD_USER_DETAILS_SCHEMA) ∈ TOOLS) by left.
  split; [exact Hin |].
  exact (advertised_tools_bind forthcoming (py "function") RECORD_USER_DETAILS_SCHEMA
           (JObj [(py "email", JInt 7)]) Hin).
Defined.

(** X5: a request for an advertised tool whose payload decodes to
    arguments with the keys its schema allows is recorded, whatever the
    types of the values (numbers, [null], lists and objects are formatted
    as Python writes them), provided stdout can encode the strings among
    the values and the POST, when the credentials are set, returns or fails
    with a [RequestException] whose report stdout can encode: the result
    is [{"recorded": "ok"}] and exactly one notification is sent.  The values are not checked against
    the types of the schema. *)
Theorem conforming_request_recorded (E : env) (kind : pystr) (s : function_schema)
    (tc : tool_call) (args : json) (w : world) :
  (kind, s) ∈ TOOLS ->
  tc_name tc = schema_name s ->
  loads_in E (raw_args tc) = inr args ->
  allowed_keys s args ->
  printable_values E args ->
  (configured E = true -> forall line, post_settles E (length (posts w)) line = true) ->
  exists w' line,
    handle_tool_call E (TOOL_DISPATCH E) tc w
    = (Ret (Message (py "tool") (quoted "{'recorded': 'ok'}") None (Some (tc_id tc))), w')
    /\ notified E [line] w w'.
Proof.
  intros Hin Hname Hdec Hkeys Hprint Hposts.
  destruct (TOOLS_registered E kind s Hin) as (_ & f & Hreg & _ & Hprops & Hreq & Hadd).
  pose proof (allowed_keys_bind s f args Hprops Hreq Hadd) as Hbind.
  apply Hbind in Hkeys as [values Hvalues]. rewrite <- Hname in Hreg.
  destruct args as [| b | z | l | t | xs | kw]; try discriminate Hvalues.
  assert (Hf : f = record_user_details E \/ f = record_unknown_question E)
    by (destruct (TOOL_DISPATCH_lookup E _ _ Hreg) as [[_ ->] | [_ ->]]; auto).
  assert (Hline : can_print E (tool_line E tc (JObj kw)) = true).
  { rewrite can_print_tool_line, andb_true_r.
    destruct (TOOL_DISPATCH_lookup E _ _ Hreg) as [[-> _] | [-> _]]; apply can_print_py. }
  assert (Hall : Forall (fun v => can_print E (py_str E v) = true) values).
  { rewrite (bind_kwargs_values f kw values Hvalues). apply Forall_forall. intros v Hv.
    rewrite can_print_py_str.
    destruct (param_values_elem f kw v Hv) as [[k Hk] | [p Hp]].
    - destruct v; try reflexivity. exact (Hprint k _ Hk).
    - destruct Hf as [-> | ->]; cbn [fn_params record_user_details record_unknown_question] in Hp;
        repeat (apply elem_of_cons in Hp as [Hp | Hp];
                [first [discriminate Hp | injection Hp as _ ->; apply can_print_py] |]);
        apply elem_of_nil in Hp; contradiction. }
  destruct (handler_line E f values Hf (bind_kwargs_length _ _ _ Hvalues) Hall)
    as (line & Hbody & Hcan).
  destruct (handle_tool_call_recorded E (TOOL_DISPATCH E) tc (JObj kw) f values line w
              Hdec Hline Hreg Hvalues Hbody Hcan) as (m & w' & Hrun & Hnote & _ & Hrec).
  exists w', line. split; [| exact Hnote].
  rewrite Hrun, (Hrec (fun Hconf => Hposts Hconf line)). reflexivity.
Qed.

(** X5 at a request whose values are a number, [null] and a float, with
    the credentials set and a POST that fails with a [RequestException]. *)
Lemma conforming_request_recorded_witness :
  (py "function", RECORD_USER_DETAILS_SCHEMA) ∈ TOOLS
  /\ tc_name lax_call = schema_name RECORD_USER_DETAILS_SCHEMA
  /\ loads_in pushover (raw_args lax_call)
     = inr (JObj [(py "notes", JNull); (py "email", JInt 42); (py "name", JFloat (py "1.5"))])
  /\ allowed_keys RECORD_USER_DETAILS_SCHEMA
       (JObj [(py "notes", JNull); (py "email", JInt 42); (py "name", JFloat (py "1.5"))])
  /\ (forall line, post_settles pushover (length (posts host_world)) line = true)
  /\ pushes (snd (handle_tool_call pushover (TOOL_DISPATCH pushover) lax_call host_world))
     = [py "Recording interest from 1.5 with email 42 and notes None"]
  /\ exists w' line,
      handle_tool_call pushover (TOOL_DISPATCH pushover) lax_call host_world
      = (Ret (Message (py "tool") (quoted "{'recorded': 'ok'}") None (Some (py "call_9"))), w')
      /\ notified pushover [line] host_world w'.
Proof.
  assert (Hin : (py "function", RECORD_USER_DETAILS_SCHEMA) ∈ TOOLS) by left.
  assert (Hkeys : allowed_keys RECORD_USER_DETAILS_SCHEMA
                    (JObj [(py "notes", JNull); (py "email", JInt 42);
                           (py "name", JFloat (py "1.5"))])).
  { split.
    - intros k Hk. apply list_elem_of_In in Hk. destruct Hk as [<- | []]. right. left.
    - intros _ k Hk. apply list_elem_of_In in Hk. destruct Hk as [<- | [<- | [<- | []]]].
      + right. right. left.
      + left.
      + right. left. }
  assert (Hposts : forall line, post_settles pushover (length (posts host_world)) line = true)
    by (intros line; reflexivity).
  split; [exact Hin |]. split; [reflexivity |]. split; [vm_compute; reflexivity |].
  split; [exact Hkeys |]. split; [exact Hposts |]. split; [vm_compute; reflexivity |].
  apply (conforming_request_recorded pushover (py "function") RECORD_USER_DETAILS_SCHEMA
           lax_call (JObj [(py "notes", JNull); (py "email", JInt 42);
                           (py "name", JFloat (py "1.5"))]) host_world Hin).
  - reflexivity.
  - vm_compute. reflexivity.
  - exact Hkeys.
  - intros k t Hkv. apply list_elem_of_In in Hkv.
    destruct Hkv as [Hkv | [Hkv | [Hkv | []]]]; discriminate Hkv.
  - intros _. exact Hposts.
Defined.

(** X6: over [TOOL_DISPATCH] a tool message is [{"recorded": "ok"}], and
    then exactly one notification was sent; or an error result with nothing
    sent and nothing changed (an unknown tool, bad arguments, or a handler
    whose announcement stdout refused); or the error result for an
    exception that [push] raised after its announcement, and then exactly
    one notification was sent as well. *)
Theorem handle_tool_call_answer_and_notification (E : env) (tc : tool_call) (w : world)
    (m : message) (w' : world) :
  handle_tool_call E (TOOL_DISPATCH E) tc w = (Ret m, w') ->
  (m = Message (py "tool") (quoted "{'recorded': 'ok'}") None (Some (tc_id tc))
   /\ exists line, notified E [line] w w')
  \/ (exists reason,
        m = Message (py "tool") (quoted "{'error': " ++ encode_str reason ++ py "}") None
              (Some (tc_id tc))
        /\ w' = w)
  \/ (exists e text line,
        m = Message (py "tool")
              (quoted "{'error': "
               ++ encode_str (if is_TypeError e
                              then py "bad arguments for " ++ tc_name tc ++ py ": " ++ text
                              else py "tool " ++ tc_name tc ++ py " failed: " ++ text)
               ++ py "}")
              None (Some (tc_id tc))
        /\ exn_str e = Some text
        /\ notified E [line] w w').
Proof.
  intros Hrun.
  destruct (handle_tool_call_cases E tc w) as (out & w1 & sent & Hrun' & Hnote & Hcases).
  rewrite Hrun in Hrun'. injection Hrun' as <- <-.
  destruct Hcases as [[e [Hout _]] | [[reason [Hout ->]] | [(e & text & line & Hout & Hstr & ->)
                                                            | [Hout [line ->]]]]];
    try discriminate Hout; injection Hout as ->.
  - right. left. exists reason. rewrite tool_message_error.
    split; [reflexivity | exact (notified_nothing _ _ _ Hnote)].
  - right. right. exists e, text, line. rewrite tool_message_error.
    split; [reflexivity |]. split; [exact Hstr | exact Hnote].
  - left. split; [reflexivity | eauto].
Qed.

(** X6 at a request recorded while the POST raises a [BrokenPipeError]. *)
Lemma handle_tool_call_answer_and_notification_witness :
  handle_tool_call broken_pipe (TOOL_DISPATCH broken_pipe) question_call host_world
  = (Ret (Message (py "tool")
            (quoted "{'error': 'tool record_unknown_question failed: [Errno 32] Broken pipe'}")
            None (Some (py "call_1"))),
     log_post (py "Recording 'why?' asked that I couldn't answer")
       (log_push (py "Recording 'why?' asked that I couldn't answer") host_world))
  /\ (Message (py "tool")
        (quoted "{'error': 'tool record_unknown_question failed: [Errno 32] Broken pipe'}")
        None (Some (py "call_1"))
      <> Message (py "tool") (quoted "{'recorded': 'ok'}") None (Some (tc_id question_call)))
  /\ (log_post (py "Recording 'why?' asked that I couldn't answer")
        (log_push (py "Recording 'why?' asked that I couldn't answer") host_world)
      <> host_world)
  /\ exists line,
      notified broken_pipe [line] host_world
        (log_post (py "Recording 'why?' asked that I couldn't answer")
           (log_push (py "Recording 'why?' asked that I couldn't answer") host_world)).
Proof.
  assert (Hrun : handle_tool_call broken_pipe (TOOL_DISPATCH broken_pipe) question_call host_world
    = (Ret (Message (py "tool")
              (quoted "{'error': 'tool record_unknown_question failed: [Errno 32] Broken pipe'}")
              None (Some (py "call_1"))),
       log_post (py "Recording 'why?' asked that I couldn't answer")
         (log_push (py "Recording 'why?' asked that I couldn't answer") host_world)))
    by (vm_compute; reflexivity).
  assert (Hm : Message (py "tool")
                 (quoted "{'error': 'tool record_unknown_question failed: [Errno 32] Broken pipe'}")
                 None (Some (py "call_1"))
               <> Message (py "tool") (quoted "{'recorded': 'ok'}") None
                    (Some (tc_id question_call)))
    by (intros H; vm_compute in H; discriminate H).
  assert (Hw : log_post (py "Recording 'why?' asked that I couldn't answer")
                 (log_push (py "Recording 'why?' asked that I couldn't answer") host_world)
               <> host_world)
    by (intros H; apply (f_equal pushes) in H; vm_compute in H; discriminate H).
  split; [exact Hrun |]. split; [exact Hm |]. split; [exact Hw |].
  destruct (handle_tool_call_answer_and_notification broken_pipe question_call host_world _ _ Hrun)
    as [[H _] | [(reason & _ & H) | (e & text & line & _ & _ & Hnote)]].
  - contradiction.
  - contradiction.
  - exists line. exact Hnote.
Defined.

(** X7: over [TOOL_DISPATCH] the executor, in whatever way it ends, has
    sent at most one notification per request and changed nothing but the
    traces of the notifier; it is never left running. *)
Theorem handle_tool_calls_sends_at_most_one_each (E : env) (tool_calls : list tool_call)
    (w : world) :
  exists out w' sent,
    handle_tool_calls E tool_calls w = (out, w')
    /\ notified E sent w w'
    /\ (length sent <= length tool_calls)%nat
    /\ out <> Diverge.
Proof.
  destruct (handle_tool_calls_notified E tool_calls w)
    as (out & w' & sent & Hrun & Hnote & Hlen & Hout & _).
  exists out, w', sent. split; [exact Hrun |]. split; [exact Hnote |]. split; [exact Hlen |].
  exact Hout.
Qed.

(** X8: over any table, when the executor returns it returns one tool
    message per request, in the order of the requests, each with the role
    [tool] and the identifier of its request. *)
Theorem handle_tool_calls_returns_one_per_request (E : env) (registry : gmap pystr pyfunc)
    (tool_calls : list tool_call) (w : world) (results : list message) (w' : world) :
  handle_tool_calls_with E registry tool_calls w = (Ret results, w') ->
  length results = length tool_calls
  /\ Forall2 replies_to tool_calls results
  /\ map role results = map (fun _ => py "tool") tool_calls
  /\ map tool_call_id results = map (fun tc => Some (tc_id tc)) tool_calls.
Proof.
  unfold handle_tool_calls_with. intros Hrun.
  destruct (handle_tool_calls_from_replies E registry _ _ _ _ _ Hrun) as (replies & -> & Hall).
  cbn [app]. clear Hrun. split; [symmetry; exact (Forall2_length _ _ _ Hall) |]. split; [exact Hall |].
  induction Hall as [| tc m tcs ms [result ->] _ [IHrole IHid]]; [split; reflexivity |].
  cbn [map tool_message role tool_call_id]. rewrite IHrole, IHid. split; reflexivity.
Qed.

Lemma handle_tool_calls_returns_one_per_request_witness :
  handle_tool_calls_with forthcoming flaky_registry [flaky_call "[]"; unknown_call] host_world
  = (Ret [Message (py "tool")
            (quoted "{'error': 'bad arguments for flaky: plugins.flaky() argument after ** must be a mapping, not list'}")
            None (Some (py "call_1"));
          Message (py "tool") (quoted "{'error': 'unknown tool lookup_weather'}") None
            (Some (py "call_1"))],
     host_world)
  /\ map tool_call_id
       [Message (py "tool")
          (quoted "{'error': 'bad arguments for flaky: plugins.flaky() argument after ** must be a mapping, not list'}")
          None (Some (py "call_1"));
        Message (py "tool") (quoted "{'error': 'unknown tool lookup_weather'}") None
          (Some (py "call_1"))]
     = map (fun tc => Some (tc_id tc)) [flaky_call "[]"; unknown_call].
Proof.
  assert (Hrun : handle_tool_calls_with forthcoming flaky_registry
                   [flaky_call "[]"; unknown_call] host_world
    = (Ret [Message (py "tool")
              (quoted "{'error': 'bad arguments for flaky: plugins.flaky() argument after ** must be a mapping, not list'}")
              None (Some (py "call_1"));
            Message (py "tool") (quoted "{'error': 'unknown tool lookup_weather'}") None
              (Some (py "call_1"))],
       host_world)) by (vm_compute; reflexivity).
  split; [exact Hrun |].
  exact (proj2 (proj2 (proj2 (handle_tool_calls_returns_one_per_request _ _ _ _ _ _ Hrun)))).
Defined.

(** X9: over any table, a batch that follows an answered batch is handled
    as on its own from the state the first one left, its results coming
    after those of the first. *)
Theorem handle_tool_calls_app (E : env) (registry : gmap pystr pyfunc)
    (first second : list tool_call) (w : world) (answered : list message) (w1 : world) :
  handle_tool_calls_with E registry first w = (Ret answered, w1) ->
  handle_tool_calls_with E registry (first ++ second) w =
  match handle_tool_calls_with E registry second w1 with
  | (Ret more, w2) => (Ret (answered ++ more), w2)
  | other => other
  end.
Proof.
  unfold handle_tool_calls_with. intros Hrun.
  rewrite (handle_tool_calls_from_app E registry first [] second answered w w1 Hrun).
  apply handle_tool_calls_from_shift.
Qed.

Lemma handle_tool_calls_app_witness :
  handle_tool_calls_with forthcoming (TOOL_DISPATCH forthcoming) [question_call] host_world
  = (Ret [tool_message question_call [(py "recorded", py "ok")]],
     log_push (py "Recording 'why?' asked that I couldn't answer") host_world)
  /\ handle_tool_calls_with forthcoming (TOOL_DISPATCH forthcoming)
       ([question_call] ++ [unknown_call]) host_world
     = (Ret ([tool_message question_call [(py "recorded", py "ok")]]
             ++ [tool_message unknown_call [(py "error", py "unknown tool lookup_weather")]]),
        log_push (py "Recording 'why?' asked that I couldn't answer") host_world).
Proof.
  assert (Hrun : handle_tool_calls_with forthcoming (TOOL_DISPATCH forthcoming) [question_call]
                   host_world
                 = (Ret [tool_message question_call [(py "recorded", py "ok")]],
                    log_push (py "Recording 'why?' asked that I couldn't answer") host_world))
    by (vm_compute; reflexivity).
  split; [exact Hrun |].
  rewrite (handle_tool_calls_app _ _ _ [unknown_call] _ _ _ Hrun). vm_compute. reflexivity.
Defined.

(** X10: over any table, an exception that leaves a batch leaves every
    longer batch in the same way and in the same state: the requests after
    the failing one are never handled. *)
Theorem handle_tool_calls_stops_at_failure (E : env) (registry : gmap pystr pyfunc)
    (first second : list tool_call) (w : world) (e : exn) (w1 : world) :
  handle_tool_calls_with E registry first w = (Raise e, w1) ->
  handle_tool_calls_with E registry (first ++ second) w = (Raise e, w1).
Proof. unfold handle_tool_calls_with. apply handle_tool_calls_from_app_raise. Qed.

Lemma handle_tool_calls_stops_at_failure_witness :
  handle_tool_calls_with forthcoming (TOOL_DISPATCH forthcoming) [truncated_call] host_world
  = (Raise (JSONDecodeError (py "{")), host_world)
  /\ handle_tool_calls_with forthcoming (TOOL_DISPATCH forthcoming)
       ([truncated_call] ++ [question_call]) host_world
     = (Raise (JSONDecodeError (py "{")), host_world).
Proof.
  assert (Hrun : handle_tool_calls_with forthcoming (TOOL_DISPATCH forthcoming) [truncated_call]
                   host_world
                 = (Raise (JSONDecodeError (py "{")), host_world)) by (vm_compute; reflexivity).
  split; [exact Hrun |].
  exact (handle_tool_calls_stops_at_failure _ _ _ [question_call] _ _ _ Hrun).
Defined.

(** X11: the content of a tool message decodes back to the result it
    carries, whatever characters its texts hold (quotes, backslashes,
    control characters, characters outside ASCII or outside the basic
    plane), provided they are Unicode scalar values; this under any limit
    on the digits of an integer and with room for one container. *)
Theorem tool_message_content_round_trip (tc : tool_call) (result : dict)
    (max_digits room : nat) :
  scalar_dict result ->
  NoDup (map fst result) ->
  Json.loads max_digits (S room) (content (tool_message tc result))
  = inr (JObj (map (fun kv => (fst kv, JStr (snd kv))) result)).
Proof.
  intros Hscalar Hkeys. cbn [tool_message content].
  exact (loads_dumps max_digits room result Hscalar Hkeys).
Qed.

Lemma tool_message_content_round_trip_witness :
  scalar_dict garbled_result
  /\ NoDup (map fst garbled_result)
  /\ Json.loads 4300 1 (content (tool_message unknown_call garbled_result))
     = inr (JObj [(py "error",
                   JStr (py "tool " ++ [34; 233; 128512; 34] ++ py " failed: "
                         ++ [10; 9; 92; 0; 127; 65535]))]).
Proof.
  assert (Hscalar : scalar_dict garbled_result) by (apply (bool_decide_unpack _); vm_compute; exact I).
  assert (Hkeys : NoDup (map fst garbled_result)) by (apply (bool_decide_unpack _); vm_compute; exact I).
  split; [exact Hscalar |]. split; [exact Hkeys |].
  exact (tool_message_content_round_trip unknown_call garbled_result 4300 0 Hscalar Hkeys).
Defined.

(** X12: contact details sent as the JSON text of [email], [name] and
    [notes] reach the notification unchanged, whatever characters they
    hold: the request is answered, after exactly one notification carrying
    the three texts, and the answer is [{"recorded": "ok"}] unless the POST
    raises (which it can only with the credentials set, outside the
    [RequestException] hierarchy or with a report stdout refuses). *)
Theorem dumped_details_are_recorded (E : env) (tc : tool_call) (email name notes : pystr)
    (w : world) :
  tc_name tc = py "record_user_details" ->
  tc_arguments tc
    = Some (Json.dumps [(py "email", email); (py "name", name); (py "notes", notes)]) ->
  scalar_text email -> scalar_text name -> scalar_text notes ->
  exists m w',
    handle_tool_call E (TOOL_DISPATCH E) tc w = (Ret m, w')
    /\ notified E [py "Recording interest from " ++ name ++ py " with email " ++ email
                   ++ py " and notes " ++ notes] w w'
    /\ ((configured E = true ->
         post_settles E (length (posts w))
           (py "Recording interest from " ++ name ++ py " with email " ++ email
            ++ py " and notes " ++ notes) = true) ->
        m = tool_message tc [(py "recorded", py "ok")]).
Proof.
  intros Hname Hargs He Hn Ht.
  assert (Hraw : raw_args tc
                 = Json.dumps [(py "email", email); (py "name", name); (py "notes", notes)]).
  { unfold raw_args. rewrite Hargs. reflexivity. }
  assert (Hdec : loads_in E (raw_args tc)
                 = inr (JObj [(py "email", JStr email); (py "name", JStr name);
                              (py "notes", JStr notes)])).
  { rewrite Hraw. apply loads_dumps.
    - repeat constructor; cbn [fst snd]; try assumption; apply scalar_text_py.
    - apply (bool_decide_unpack _). vm_compute. exact I. }
  destruct (handle_tool_call_recorded E (TOOL_DISPATCH E) tc _ (record_user_details E)
              [JStr email; JStr name; JStr notes] (details_line name email notes) w Hdec)
    as (m & w' & Hrun & Hnote & _ & Hrec).
  - rewrite can_print_tool_line, Hname, can_print_py. reflexivity.
  - rewrite Hname. apply TOOL_DISPATCH_record_user_details.
  - vm_compute. reflexivity.
  - reflexivity.
  - rewrite can_print_details_line. unfold can_print.
    rewrite !scalar_writable by assumption. reflexivity.
  - exists m, w'. split; [exact Hrun |]. split; [exact Hnote |].
    intros Hposts. rewrite <- tool_message_recorded in Hrec. exact (Hrec Hposts).
Qed.

Lemma dumped_details_are_recorded_witness :
  tc_name thorough_call = py "record_user_details"
  /\ scalar_text (py "ana@example.org") /\ scalar_text [65; 241; 97]
  /\ scalar_text (py "said " ++ [34] ++ py "hi" ++ [34])
  /\ exists m w',
      handle_tool_call forthcoming (TOOL_DISPATCH forthcoming) thorough_call host_world
      = (Ret m, w')
      /\ notified forthcoming
           [py "Recording interest from " ++ [65; 241; 97] ++ py " with email "
            ++ py "ana@example.org" ++ py " and notes " ++ (py "said " ++ [34] ++ py "hi" ++ [34])]
           host_world w'
      /\ ((configured forthcoming = true ->
           post_settles forthcoming (length (posts host_world))
             (py "Recording interest from " ++ [65; 241; 97] ++ py " with email "
              ++ py "ana@example.org" ++ py " and notes "
              ++ (py "said " ++ [34] ++ py "hi" ++ [34])) = true) ->
          m = tool_message thorough_call [(py "recorded", py "ok")]).
Proof.
  assert (H1 : scalar_text (py "ana@example.org")) by (apply (bool_decide_unpack _); vm_compute; exact I).
  assert (H2 : scalar_text [65; 241; 97]) by (apply (bool_decide_unpack _); vm_compute; exact I).
  assert (H3 : scalar_text (py "said " ++ [34] ++ py "hi" ++ [34]))
    by (apply (bool_decide_unpack _); vm_compute; exact I).
  split; [reflexivity |]. split; [exact H1 |]. split; [exact H2 |]. split; [exact H3 |].
  exact (dumped_details_are_recorded forthcoming thorough_call _ _ _ host_world
           eq_refl eq_refl H1 H2 H3).
Defined.

(** X13: a request without payload ([None] or the empty text) is handled
    as if its payload were the empty object: for either registered tool the
    result is the bad-arguments error on the missing required parameter,
    and nothing is sent. *)
Theorem missing_payload_is_bad_arguments (E : env) (tc : tool_call) (w : world) :
  truthy (tc_arguments tc) = false ->
  (tc_name tc = py "record_user_details" ->
   handle_tool_call E (TOOL_DISPATCH E) tc w
   = (Ret (tool_message tc
             [(py "error",
               py "bad arguments for record_user_details: record_user_details() missing 1 required positional argument: 'email'")]),
      w))
  /\ (tc_name tc = py "record_unknown_question" ->
      handle_tool_call E (TOOL_DISPATCH E) tc w
      = (Ret (tool_message tc
                [(py "error",
                  py "bad arguments for record_unknown_question: record_unknown_question() missing 1 required positional argument: 'question'")]),
         w)).
Proof.
  intros Hnone.
  assert (Hdec : loads_in E (raw_args tc) = inr (JObj [])).
  { unfold raw_args. rewrite Hnone. reflexivity. }
  assert (Hline : tc_name tc = py "record_user_details" \/ tc_name tc = py "record_unknown_question"
                  -> can_print E (tool_line E tc (JObj [])) = true).
  { intros Hname. rewrite can_print_tool_line, andb_true_r.
    destruct Hname as [-> | ->]; apply can_print_py. }
  split; intros Hname.
  - rewrite (handle_tool_call_bad_arguments E (TOOL_DISPATCH E) tc (JObj [])
               (record_user_details E) (MissingRequired [py "email"]) w Hdec);
      [rewrite Hname; reflexivity | apply Hline; left; exact Hname
       | rewrite Hname; apply TOOL_DISPATCH_record_user_details | vm_compute; reflexivity].
  - rewrite (handle_tool_call_bad_arguments E (TOOL_DISPATCH E) tc (JObj [])
               (record_unknown_question E) (MissingRequired [py "question"]) w Hdec);
      [rewrite Hname; reflexivity | apply Hline; right; exact Hname
       | rewrite Hname; apply TOOL_DISPATCH_record_unknown_question | vm_compute; reflexivity].
Qed.

Lemma missing_payload_is_bad_arguments_witness :
  truthy (tc_arguments (ToolCall (py "call_5") (py "record_unknown_question") None)) = false
  /\ handle_tool_call forthcoming (TOOL_DISPATCH forthcoming)
       (ToolCall (py "call_5") (py "record_unknown_question") None) host_world
     = (Ret (tool_message (ToolCall (py "call_5") (py "record_unknown_question") None)
               [(py "error",
                 py "bad arguments for record_unknown_question: record_unknown_question() missing 1 required positional argument: 'question'")]),
        host_world).
Proof.
  split; [reflexivity |].
  apply (missing_payload_is_bad_arguments forthcoming
           (ToolCall (py "call_5") (py "record_unknown_question") None) host_world eq_refl).
  reflexivity.
Defined.

(** X14: the system prompt names every registered tool, whatever the name,
    the summary and the profile text are. *)
Theorem prompt_names_registered_tools (E : env) (tool : pystr) (f : pyfunc)
    (name summary linkedin_text : pystr) :
  TOOL_DISPATCH E !! tool = Some f ->
  exists before after, build_system_prompt name summary linkedin_text = before ++ tool ++ after.
Proof.
  unfold TOOL_DISPATCH. intros Hreg.
  apply lookup_insert_Some in Hreg as [[<- _] | [_ Hreg]];
    [| apply lookup_insert_Some in Hreg as [[<- _] | [_ Hreg]];
       [| rewrite lookup_empty in Hreg; discriminate]].
  - exists (py "You are acting as " ++ name ++ py ". You are answering questions on " ++ name ++ py "'s website, "
      ++ py "particularly questions related to " ++ name ++ py "'s career, background, skills and experience. "
      ++ py "Your responsibility is to represent " ++ name ++ py " for interactions on the website as faithfully as possible. "
      ++ py "You are given a summary of " ++ name ++ py "'s background and LinkedIn profile which you can use to answer questions. "
      ++ py "Be professional and engaging, as if talking to a potential client or future employer who came across the website. "
      ++ py "If you don't know the answer to any question, use your record_unknown_question tool to record the question that you couldn't answer, "
      ++ py "even if it's about something trivial or unrelated to career. "
      ++ py "If the user is engaging in discussion, try to steer them towards getting in touch via email; ask for their email and name "
      ++ py "and record it using your ").
    eexists. unfold build_system_prompt. repeat rewrite <- app_assoc.
    repeat (apply (f_equal2 (@app N)); [reflexivity |]).
    change (py "and record it using your record_user_details tool. ")
      with (py "and record it using your " ++ py "record_user_details" ++ py " tool. ").
    repeat rewrite <- app_assoc. reflexivity.
  - exists (py "You are acting as " ++ name ++ py ". You are answering questions on " ++ name ++ py "'s website, "
      ++ py "particularly questions related to " ++ name ++ py "'s career, background, skills and experience. "
      ++ py "Your responsibility is to represent " ++ name ++ py " for interactions on the website as faithfully as possible. "
      ++ py "You are given a summary of " ++ name ++ py "'s background and LinkedIn profile which you can use to answer questions. "
      ++ py "Be professional and engaging, as if talking to a potential client or future employer who came across the website. "
      ++ py "If you don't know the answer to any question, use your ").
    eexists. unfold build_system_prompt. repeat rewrite <- app_assoc.
    repeat (apply (f_equal2 (@app N)); [reflexivity |]).
    change (py "If you don't know the answer to any question, use your record_unknown_question tool to record the question that you couldn't answer, ")
      with (py "If you don't know the answer to any question, use your " ++ py "record_unknown_question"
            ++ py " tool to record the question that you couldn't answer, ").
    repeat rewrite <- app_assoc. reflexivity.
Qed.

Lemma prompt_names_registered_tools_witness :
  TOOL_DISPATCH forthcoming !! py "record_unknown_question"
  = Some (record_unknown_question forthcoming)
  /\ exists before after,
      build_system_prompt NAME [] [] = before ++ py "record_unknown_question" ++ after.
Proof.
  split; [apply TOOL_DISPATCH_record_unknown_question |].
  exact (prompt_names_registered_tools forthcoming (py "record_unknown_question")
           (record_unknown_question forthcoming) NAME [] []
           (TOOL_DISPATCH_record_unknown_question forthcoming)).
Defined.

(** X15, [chat]: however a turn ends, the list it built holds the seeded
    messages followed by whole tool rounds only, each the assistant message
    with the requests of the model and then one tool message per request,
    and by no more rounds than were followed; earlier messages are never
    altered or removed. *)
Theorem chat_appends_whole_rounds (E : env) (fuel : nat) (text : pystr) (history : loc)
    (prior : list message) (w : world) :
  heap w !! history = Some prior ->
  exists out w' n tail,
    chat E fuel text history w = (out, w')
    /\ heap w' !! fresh (dom (heap w)) = Some (seeded E text prior ++ tail)
    /\ conversation n tail
    /\ (n <= fuel)%nat.
Proof.
  intros Hprior. rewrite (chat_seeds E fuel text history prior w Hprior).
  destruct (chat_loop_trace E fuel (fresh (dom (heap w))) (seeded E text prior)
              (set_heap (<[fresh (dom (heap w)) := seeded E text prior]> (heap w)) w))
    as (out & w' & n & tail & sent & Hrun & Hheap & Hconv & _ & Hn & _).
  { cbn [set_heap heap]. rewrite lookup_insert_eq. reflexivity. }
  exists out, w', n, tail. split; [exact Hrun |].
  split; [rewrite Hheap, lookup_insert_eq; reflexivity |]. split; [exact Hconv | exact Hn].
Qed.

(** X16, [chat]: a reply is the text of the response to the last model call
    of the turn, a response that asks for no tools; that call was given
    the seeded messages and the whole rounds before it, and the turn made
    one model call more than it had tool rounds. *)
Theorem chat_reply_is_last_response (E : env) (fuel : nat) (text : pystr) (history : loc)
    (prior : list message) (w : world) (reply : pystr) (w' : world) :
  heap w !! history = Some prior ->
  chat E fuel text history w = (Ret reply, w') ->
  exists n tail c,
    conversation n tail
    /\ heap w' !! fresh (dom (heap w)) = Some (seeded E text prior ++ tail)
    /\ completions_create E (length (model_calls w) + n) (seeded E text prior ++ tail) = inr c
    /\ finish_reason c <> py "tool_calls"
    /\ reply = or_empty (message_content c)
    /\ length (model_calls w') = (length (model_calls w) + S n)%nat.
Proof.
  intros Hprior Hrun. rewrite (chat_seeds E fuel text history prior w Hprior) in Hrun.
  destruct (chat_loop_trace E fuel (fresh (dom (heap w))) (seeded E text prior)
              (set_heap (<[fresh (dom (heap w)) := seeded E text prior]> (heap w)) w))
    as (out & w1 & n & tail & sent & Hrun' & Hheap & Hconv & _ & _ & Hreply).
  { cbn [set_heap heap]. rewrite lookup_insert_eq. reflexivity. }
  rewrite Hrun in Hrun'. injection Hrun' as <- <-.
  destruct (Hreply reply eq_refl) as (c & Hmodel & Hfin & Htext & Hlen).
  exists n, tail, c. split; [exact Hconv |].
  split; [rewrite Hheap, lookup_insert_eq; reflexivity |].
  split; [exact Hmodel |]. split; [exact Hfin |]. split; [exact Htext | exact Hlen].
Qed.

(** X17, [chat]: however a turn ends, whatever it printed as a notification
    it also posted when both credentials are set, and it posted nothing
    when they are not. *)
Theorem chat_relays_notifications (E : env) (fuel : nat) (text : pystr) (history : loc)
    (prior : list message) (w : world) :
  heap w !! history = Some prior ->
  exists out w' sent,
    chat E fuel text history w = (out, w')
    /\ pushes w' = pushes w ++ sent
    /\ posts w' = posts w ++ (if configured E then sent else []).
Proof.
  intros Hprior. rewrite (chat_seeds E fuel text history prior w Hprior).
  destruct (chat_loop_trace E fuel (fresh (dom (heap w))) (seeded E text prior)
              (set_heap (<[fresh (dom (heap w)) := seeded E text prior]> (heap w)) w))
    as (out & w' & n & tail & sent & Hrun & _ & _ & [Hp Hq] & _).
  { cbn [set_heap heap]. rewrite lookup_insert_eq. reflexivity. }
  exists out, w', sent. split; [exact Hrun |]. split; [exact Hp | exact Hq].
Qed.

(** X18, [chat]: an exception of the first model call leaves [chat] as it
    is, after the one model call, with the history untouched and nothing
    sent. *)
Theorem chat_model_error_propagates (E : env) (fuel : nat) (text : pystr) (history : loc)
    (prior : list message) (e : exn) (w : world) :
  heap w !! history = Some prior ->
  completions_create E (length (model_calls w)) (seeded E text prior) = inl e ->
  chat E (S fuel) text history w
  = (Raise e,
     World (<[fresh (dom (heap w)) := seeded E text prior]> (heap w))
           (pushes w) (posts w) (model_calls w ++ [seeded E text prior])).
Proof.
  intros Hprior Hmodel. rewrite (chat_seeds E (S fuel) text history prior w Hprior).
  erewrite chat_loop_round.
  2: { cbn [set_heap heap]. rewrite lookup_insert_eq. reflexivity. }
  cbn [set_heap model_calls]. rewrite Hmodel. reflexivity.
Qed.

Lemma chat_appends_whole_rounds_witness :
  heap host_world !! 0%nat = Some host_history
  /\ exists out w' n tail,
      chat pushover 3 (py "Why?") 0%nat host_world = (out, w')
      /\ heap w' !! fresh (dom (heap host_world))
         = Some (seeded pushover (py "Why?") host_history ++ tail)
      /\ conversation n tail
      /\ (n <= 3)%nat.
Proof.
  split; [reflexivity |].
  exact (chat_appends_whole_rounds pushover 3 (py "Why?") 0%nat host_history host_world eq_refl).
Defined.

Lemma chat_reply_is_last_response_witness :
  heap host_world !! 0%nat = Some host_history
  /\ chat pushover 3 (py "Why?") 0%nat host_world
     = (Ret (py "Done."), snd (chat pushover 3 (py "Why?") 0%nat host_world))
  /\ exists n tail c,
      conversation n tail
      /\ heap (snd (chat pushover 3 (py "Why?") 0%nat host_world)) !! fresh (dom (heap host_world))
         = Some (seeded pushover (py "Why?") host_history ++ tail)
      /\ completions_create pushover (length (model_calls host_world) + n)
           (seeded pushover (py "Why?") host_history ++ tail) = inr c
      /\ finish_reason c <> py "tool_calls"
      /\ py "Done." = or_empty (message_content c)
      /\ length (model_calls (snd (chat pushover 3 (py "Why?") 0%nat host_world)))
         = (length (model_calls host_world) + S n)%nat.
Proof.
  assert (Hrun : chat pushover 3 (py "Why?") 0%nat host_world
                 = (Ret (py "Done."), snd (chat pushover 3 (py "Why?") 0%nat host_world)))
    by (vm_compute; reflexivity).
  split; [reflexivity |]. split; [exact Hrun |].
  exact (chat_reply_is_last_response pushover 3 (py "Why?") 0%nat host_history host_world
           (py "Done.") _ eq_refl Hrun).
Defined.

Lemma chat_relays_notifications_witness :
  heap host_world !! 0%nat = Some host_history
  /\ exists out w' sent,
      chat pushover 3 (py "Why?") 0%nat host_world = (out, w')
      /\ pushes w' = pushes host_world ++ sent
      /\ posts w' = posts host_world ++ (if configured pushover then sent else []).
Proof.
  split; [reflexivity |].
  exact (chat_relays_notifications pushover 3 (py "Why?") 0%nat host_history host_world eq_refl).
Defined.

Lemma chat_model_error_propagates_witness :
  heap host_world !! 0%nat = Some host_history
  /\ completions_create unreachable (length (model_calls host_world))
       (seeded unreachable (py "Hi") host_history)
     = inl (OtherException (py "APIConnectionError") (py "Connection error."))
  /\ chat unreachable 1 (py "Hi") 0%nat host_world
     = (Raise (OtherException (py "APIConnectionError") (py "Connection error.")),
        World (<[fresh (dom (heap host_world)) := seeded unreachable (py "Hi") host_history]>
                 (heap host_world))
              [] [] [seeded unreachable (py "Hi") host_history]).
Proof.
  split; [reflexivity |]. split; [reflexivity |].
  exact (chat_model_error_propagates unreachable 0 (py "Hi") 0%nat host_history _ host_world
           eq_refl eq_refl).
Defined.

(** X19, [chat]: a round whose requests the executor answers, followed by
    a response that asks for no tools.  The results answer the requests one
    by one, the second model call is given the seeded messages, the
    assistant message and the tool messages, and the reply is the text of
    its response; the list of the turn holds exactly those messages, and
    the traces of the notifier are as the executor left them. *)
Theorem chat_two_rounds (E : env) (fuel : nat) (text : pystr) (history : loc)
    (prior : list message) (c1 : choice) (results : list message) (w w1 : world) :
  heap w !! history = Some prior ->
  completions_create E (length (model_calls w)) (seeded E text prior) = inr c1 ->
  finish_reason c1 = py "tool_calls" ->
  handle_tool_calls E (default [] (message_tool_calls c1))
    (log_model_call (seeded E text prior)
       (set_heap (<[fresh (dom (heap w)) := seeded E text prior]> (heap w)) w))
  = (Ret results, w1) ->
  Forall2 replies_to (default [] (message_tool_calls c1)) results
  /\ forall c2,
      completions_create E (S (length (model_calls w)))
        (seeded E text prior ++ assistant_message c1 :: results) = inr c2 ->
      finish_reason c2 <> py "tool_calls" ->
      chat E (S (S fuel)) text history w
      = (Ret (or_empty (message_content c2)),
         World (<[fresh (dom (heap w))
                  := seeded E text prior ++ assistant_message c1 :: results]> (heap w))
               (pushes w1) (posts w1)
               (model_calls w ++ [seeded E text prior;
                                  seeded E text prior ++ assistant_message c1 :: results])).
Proof.
  intros Hprior Hmodel1 Hfin1 Hrun.
  set (l := fresh (dom (heap w))) in *. set (ms := seeded E text prior) in *.
  set (w0 := set_heap (<[l := ms]> (heap w)) w) in *.
  split; [exact (handle_tool_calls_replies E _ _ _ _ Hrun) |].
  destruct (handle_tool_calls_quiet E (default [] (message_tool_calls c1)) (log_model_call ms w0))
    as (out & w1' & Hrun' & [Hheap Hcalls] & _).
  rewrite Hrun in Hrun'. injection Hrun' as <- <-.
  cbn [log_model_call heap model_calls w0 set_heap] in Hheap, Hcalls.
  intros c2 Hmodel2 Hfin2.
  rewrite (chat_seeds E (S (S fuel)) text history prior w Hprior). fold l ms w0.
  assert (Hms : heap w0 !! l = Some ms).
  { unfold w0. cbn [set_heap heap]. rewrite lookup_insert_eq. reflexivity. }
  rewrite (chat_loop_round E (S fuel) l ms w0 Hms).
  change (model_calls w0) with (model_calls w). rewrite Hmodel1.
  destruct (decide (finish_reason c1 = py "tool_calls")) as [_ | Hne]; [| contradiction].
  rewrite Hrun.
  erewrite chat_loop_round.
  2: { cbn [set_heap heap]. rewrite lookup_insert_eq. reflexivity. }
  cbn [set_heap model_calls]. rewrite Hcalls, length_app. cbn [length].
  replace (length (model_calls w) + 1)%nat with (S (length (model_calls w))) by lia.
  rewrite Hmodel2.
  destruct (decide (finish_reason c2 = py "tool_calls")) as [Heq | _]; [contradiction |].
  unfold log_model_call. cbn [heap pushes posts model_calls].
  rewrite Hheap, insert_insert_eq. cbn [set_heap heap pushes posts model_calls].
  rewrite Hcalls, <- app_assoc. reflexivity.
Qed.

(** X19 at a turn with credentials set and a POST that fails with a
    [RequestException]. *)
Lemma chat_two_rounds_witness :
  heap host_world !! 0%nat = Some host_history
  /\ completions_create pushover (length (model_calls host_world))
       (seeded pushover (py "Why?") host_history)
     = inr (Choice (py "tool_calls") (Some (py "One moment.")) (Some [question_call]))
  /\ fst (handle_tool_calls pushover [question_call]
            (log_model_call (seeded pushover (py "Why?") host_history)
               (set_heap (<[fresh (dom (heap host_world))
                            := seeded pushover (py "Why?") host_history]> (heap host_world))
                  host_world)))
     = Ret [Message (py "tool") (quoted "{'recorded': 'ok'}") None (Some (py "call_1"))]
  /\ fst (chat pushover 2 (py "Why?") 0%nat host_world) = Ret (py "Done.")
  /\ length (model_calls (snd (chat pushover 2 (py "Why?") 0%nat host_world))) = 2%nat.
Proof.
  split; [reflexivity |]. split; [reflexivity |]. split; [vm_compute; reflexivity |].
  destruct (chat_two_rounds pushover 0 (py "Why?") 0%nat host_history
              (Choice (py "tool_calls") (Some (py "One moment.")) (Some [question_call]))
              [Message (py "tool") (quoted "{'recorded': 'ok'}") None (Some (py "call_1"))]
              host_world
              (snd (handle_tool_calls pushover [question_call]
                      (log_model_call (seeded pushover (py "Why?") host_history)
                         (set_heap (<[fresh (dom (heap host_world))
                                      := seeded pushover (py "Why?") host_history]>
                                      (heap host_world)) host_world))))
              eq_refl eq_refl eq_refl) as [_ Hturn].
  - vm_compute. reflexivity.
  - rewrite (Hturn (Choice (py "stop") (Some (py "Done.")) None)); [| vm_compute; reflexivity | ].
    + split; reflexivity.
    + intros H. vm_compute in H. discriminate H.
Defined.

(** X20: the order of the keys of a payload does not matter.  Two requests
    with the same identifier and tool name whose payloads decode to the
    same members in different orders, none of them foreign to the handler,
    are handled alike, over any table. *)
Theorem keyword_order_is_irrelevant (E : env) (registry : gmap pystr pyfunc)
    (tc tc' : tool_call) (kw kw' : list (pystr * json)) (w : world) :
  tc_id tc' = tc_id tc ->
  tc_name tc' = tc_name tc ->
  loads_in E (raw_args tc) = inr (JObj kw) ->
  loads_in E (raw_args tc') = inr (JObj kw') ->
  NoDup (map fst kw) ->
  kw ≡ₚ kw' ->
  (forall f, registry !! tc_name tc = Some f -> Forall (fun kv => is_param f (fst kv) = true) kw) ->
  handle_tool_call E registry tc' w = handle_tool_call E registry tc w.
Proof.
  intros Hid Hname Hdec Hdec' Hnd Hperm Hparams.
  rewrite !handle_tool_call_run, Hdec, Hdec'.
  rewrite !print_tool_line by discriminate. rewrite Hname.
  destruct (print E (py "[Tool] " ++ tc_name tc ++ py "(") w) as [[[] | e | |] w1]; try reflexivity.
  destruct (registry !! tc_name tc) as [f |] eqn:Hreg.
  - unfold py_call.
    rewrite (bind_kwargs_permutation f kw kw' Hnd Hperm (Hparams f eq_refl)).
    unfold tool_message. rewrite Hid. reflexivity.
  - unfold tool_message. rewrite Hid. reflexivity.
Qed.

Lemma keyword_order_is_irrelevant_witness :
  loads_in forthcoming (raw_args ordered_call)
  = inr (JObj [(py "email", JStr (py "ana@example.org")); (py "notes", JStr (py "call me"))])
  /\ loads_in forthcoming (raw_args reordered_call)
     = inr (JObj [(py "notes", JStr (py "call me")); (py "email", JStr (py "ana@example.org"))])
  /\ handle_tool_call forthcoming (TOOL_DISPATCH forthcoming) reordered_call host_world
     = handle_tool_call forthcoming (TOOL_DISPATCH forthcoming) ordered_call host_world.
Proof.
  split; [vm_compute; reflexivity |]. split; [vm_compute; reflexivity |].
  apply (keyword_order_is_irrelevant forthcoming (TOOL_DISPATCH forthcoming) ordered_call
           reordered_call
           [(py "email", JStr (py "ana@example.org")); (py "notes", JStr (py "call me"))]
           [(py "notes", JStr (py "call me")); (py "email", JStr (py "ana@example.org"))]
           host_world eq_refl eq_refl).
  - vm_compute. reflexivity.
  - vm_compute. reflexivity.
  - apply (bool_decide_unpack _). vm_compute. exact I.
  - apply Permutation_swap.
  - intros f Hf. rewrite TOOL_DISPATCH_record_user_details in Hf. injection Hf as <-.
    repeat constructor.
Defined.
